(** * Scout: market-value resolution pipeline

    A shallow embedding of the repository's Python sources
    ([config.py], [utils.py], [repository.py], [transfermarkt_client.py],
    [app.py]) together with the properties of its specification and
    further properties of the code.

    Conventions of the embedding:
    - a Python [str] is the list of its code points ([pystr]);
    - a Python [int] is a [Z]; a Python [float] is an IEEE 754 binary64
      number, computed with the standard library's [SpecFloat];
    - a [dict] is a [gmap], a [set] a [gset];
    - a call that can raise returns a [result];
    - what comes from outside the process (the site's answers, the DOM,
      the clock, the shared queues as one worker sees them) is an input
      of the function that consumes it. *)

From Stdlib Require Import ZArith NArith Bool List String Ascii Decimal Lia Sorted.
From Stdlib Require Import Floats.SpecFloat.
From stdpp Require Import base option list gmap sorting.

#[local] Open Scope N_scope.

(** ** Python strings *)

Abbreviation pystr := (list N).

(** An ASCII literal of the source, as code points. *)
Definition lit (s : string) : pystr :=
  (fun a => N_of_ascii a) <$> list_ascii_of_string s.
Arguments lit s%_string.

(** [str.isspace] per character: the interpreter's fixed white-space set,
    shared by [str.strip], [str.split] and the [\s] class of [re]. *)
Definition isspace (c : N) : bool :=
  ((9 <=? c) && (c <=? 13)) || ((28 <=? c) && (c <=? 32))
  || (c =? 133) || (c =? 160) || (c =? 5760)
  || ((8192 <=? c) && (c <=? 8202))
  || (c =? 8232) || (c =? 8233) || (c =? 8239) || (c =? 8287) || (c =? 12288).

Fixpoint lstrip (s : pystr) : pystr :=
  match s with
  | [] => []
  | c :: s' => if isspace c then lstrip s' else s
  end.

Definition rstrip (s : pystr) : pystr := reverse (lstrip (reverse s)).

(** [s.strip()] *)
Definition strip (s : pystr) : pystr := rstrip (lstrip s).

(** [s.startswith(p)] *)
Fixpoint startswith (s p : pystr) {struct p} : bool :=
  match p, s with
  | [], _ => true
  | _ :: _, [] => false
  | a :: p', b :: s' => (a =? b) && startswith s' p'
  end.

(** [sub in s] *)
Fixpoint contains (sub s : pystr) : bool :=
  startswith s sub ||
  match s with
  | [] => false
  | _ :: s' => contains sub s'
  end.

(** [s.replace(old, new)] for a non-empty [old] (every call site passes a
    non-empty literal): occurrences are replaced from the left and do not
    overlap; [skip] counts the characters of a match still to be passed. *)
Fixpoint replace_from (old new : pystr) (skip : nat) (s : pystr) : pystr :=
  match s with
  | [] => []
  | c :: s' =>
      match skip with
      | S k => replace_from old new k s'
      | O =>
          if startswith s old
          then new ++ replace_from old new (pred (length old)) s'
          else c :: replace_from old new O s'
      end
  end.

Definition replace (old new s : pystr) : pystr := replace_from old new O s.

(** [re.sub(r"\s+", " ", s)]: every maximal white-space run becomes one
    space. [in_run] tells that the previous character was white space. *)
Fixpoint sub_spaces (in_run : bool) (s : pystr) : pystr :=
  match s with
  | [] => []
  | c :: s' =>
      if isspace c
      then (if in_run then sub_spaces true s' else 32 :: sub_spaces true s')
      else c :: sub_spaces false s'
  end.

(** [s.split()]: the maximal runs of non-space characters. [cur] is the
    token being read. *)
Fixpoint split_from (cur : pystr) (s : pystr) : list pystr :=
  match s with
  | [] => match cur with [] => [] | _ => [cur] end
  | c :: s' =>
      if isspace c
      then match cur with [] => split_from [] s' | _ => cur :: split_from [] s' end
      else split_from (cur ++ [c]) s'
  end.

Definition split (s : pystr) : list pystr := split_from [] s.

(** Length of the common prefix, as the [zip] loop of [score_name] counts it. *)
Fixpoint common_prefix_len (a b : pystr) : nat :=
  match a, b with
  | x :: a', y :: b' => if x =? y then S (common_prefix_len a' b') else O
  | _, _ => O
  end.

(** Lower case of an ASCII character. *)
Definition ascii_lower_char (c : N) : N :=
  if (65 <=? c) && (c <=? 90) then c + 32 else c.

(** The interpreter's Unicode tables, which the repository does not
    contain: they are a parameter of the embedding. The one fact assumed
    of them is what [str.lower] does to ASCII text. *)
Class UnicodeDB := {
  str_lower : pystr -> pystr;                   (* str.lower *)
  str_casefold : pystr -> pystr;                (* str.casefold *)
  unicodedata_normalize_NFKD : pystr -> pystr;  (* unicodedata.normalize("NFKD", _) *)
  unicodedata_combining : N -> N;               (* unicodedata.combining *)
  decimal_value : N -> option Z;                (* class \d of re; digit value for int() *)
  char_isdigit : N -> bool;                     (* str.isdigit, per character *)
  str_lower_ascii : forall s : pystr,
    Forall (fun c => c < 128) s -> str_lower s = map ascii_lower_char s
}.

Definition ascii_decimal (c : N) : option Z :=
  if (48 <=? c) && (c <=? 57) then Some (Z.of_N (c - 48)) else None.

(** The tables on the ASCII range, and the identity outside the ASCII
    letters: what the interpreter computes on ASCII text. *)
Definition ascii_db : UnicodeDB := {|
  str_lower := map ascii_lower_char;
  str_casefold := map ascii_lower_char;
  unicodedata_normalize_NFKD := fun s => s;
  unicodedata_combining := fun _ => 0;
  decimal_value := ascii_decimal;
  char_isdigit := fun c => (48 <=? c) && (c <=? 57);
  str_lower_ascii := fun s _ => eq_refl
|}.

(** ** Python values held by table cells and dictionaries

    A table is loaded as text ([dtype=str], no default NA values) and a
    resolution writes text and ints into it; [None] is what [dict.get]
    returns for an absent key and NaN is the missing-value marker of
    pandas. No other float reaches the functions below, so that the
    branch [int(round(value))] of [parse_market_value_to_int] for a float
    argument has no counterpart here. *)

Inductive value :=
  | VNone               (* None *)
  | VNaN                (* float("nan"), the missing-value marker of pandas *)
  | VInt (z : Z)
  | VStr (s : pystr).

#[global] Instance value_eq_dec : EqDecision value.
Proof. solve_decision. Defined.

Fixpoint uint_digits (d : Decimal.uint) : pystr :=
  match d with
  | Nil => []
  | D0 d' => 48 :: uint_digits d'
  | D1 d' => 49 :: uint_digits d'
  | D2 d' => 50 :: uint_digits d'
  | D3 d' => 51 :: uint_digits d'
  | D4 d' => 52 :: uint_digits d'
  | D5 d' => 53 :: uint_digits d'
  | D6 d' => 54 :: uint_digits d'
  | D7 d' => 55 :: uint_digits d'
  | D8 d' => 56 :: uint_digits d'
  | D9 d' => 57 :: uint_digits d'
  end.

(** [str(z)] for an int. *)
Definition int_str (z : Z) : pystr :=
  match Z.to_int z with
  | Decimal.Pos d => uint_digits d
  | Decimal.Neg d => 45 :: uint_digits d
  end.

(** [str(value)] *)
Definition py_str (v : value) : pystr :=
  match v with
  | VNone => lit "None"
  | VNaN => lit "nan"
  | VInt z => int_str z
  | VStr s => s
  end.

(** [d.get(key)]: [None] when the key is absent. *)
Definition dict_get (d : gmap pystr value) (key : pystr) : value :=
  default VNone (d !! key).

(** Outcome of a call: a returned value or a raised exception, named by
    its class. The classes are those derived from [Exception], which is
    what the client's code and its libraries raise. *)
Inductive result (A : Type) :=
  | Ok (a : A)
  | Raise (exc_type : pystr).
Arguments Ok {A} a.
Arguments Raise {A} exc_type.

#[global] Instance result_ret : MRet result := fun _ a => Ok a.
#[global] Instance result_bind : MBind result := fun _ _ f m =>
  match m with
  | Ok a => f a
  | Raise e => Raise e
  end.

(** ** Python floats (binary64) *)

Abbreviation float := spec_float.

(** An int converted to float, rounded to nearest even. *)
Definition float_of_int (z : Z) : float := binary_normalize 53 1024 z 0 false.

Definition float_mul (x y : float) : float := SFmul 53 1024 x y.

(** The nearest binary64 number to [n / d], for [d > 0]. *)
Definition float_of_ratio (n d : positive) : float :=
  SFdiv 53 1024 (S754_finite false n 0) (S754_finite false d 0).

(** Nearest integer to [m * 2^e], ties to even. *)
Definition round_half_even (m e : Z) : Z :=
  match e with
  | Zneg p =>
      let d := Z.pow 2 (Zpos p) in
      let q := Z.div m d in
      match Z.compare (2 * Z.modulo m d) d with
      | Lt => q
      | Gt => Z.succ q
      | Eq => if Z.even q then q else Z.succ q
      end
  | _ => (m * Z.pow 2 e)%Z
  end.

(** [int(round(x))] for a float [x]: [round] returns the nearest int, ties
    to even, and raises on an infinity or a NaN. *)
Definition int_round (x : float) : result Z :=
  match x with
  | S754_zero _ => Ok 0%Z
  | S754_finite s m e => Ok (cond_Zopp s (round_half_even (Zpos m) e))
  | S754_infinity _ => Raise (lit "OverflowError")
  | S754_nan => Raise (lit "ValueError")
  end.

(** [math.isfinite(x)] *)
Definition isfinite (x : float) : bool :=
  match x with
  | S754_zero _ | S754_finite _ _ _ => true
  | S754_infinity _ | S754_nan => false
  end.

Definition is_ascii_digit (c : N) : bool := (48 <=? c) && (c <=? 57).

Fixpoint take_while (p : N -> bool) (s : pystr) : pystr :=
  match s with
  | c :: s' => if p c then c :: take_while p s' else []
  | [] => []
  end.

Fixpoint drop_while (p : N -> bool) (s : pystr) : pystr :=
  match s with
  | c :: s' => if p c then drop_while p s' else s
  | [] => []
  end.

(** Value of a run of ASCII digits read in base ten. *)
Definition digits_value (ds : pystr) : Z :=
  fold_left (fun acc c => (10 * acc + Z.of_N (c - 48))%Z) ds 0%Z.

(** [float(num)] on the numerals that reach it, [<digits>] or
    [<digits>.<digits>]: the nearest binary64 number to the decimal value
    (the interpreter's conversion is correctly rounded). Any other text
    raises [ValueError]. *)
Definition py_float (num : pystr) : result float :=
  let ip := take_while is_ascii_digit num in
  let fp :=
    match drop_while is_ascii_digit num with
    | [] => Some []
    | dot :: ds =>
        if (dot =? 46) && forallb is_ascii_digit ds && negb (bool_decide (ds = []))
        then Some ds else None
    end in
  match ip, fp with
  | _ :: _, Some ds =>
      match digits_value (ip ++ ds), Z.pow 10 (Z.of_nat (length ds)) with
      | Zpos n, Zpos d => Ok (float_of_ratio n d)
      | _, _ => Ok (S754_zero false)
      end
  | _, _ => Raise (lit "ValueError")
  end.

(** ** utils.py *)

Section Utils.
Context {U : UnicodeDB}.

(** [normalize_text] *)
Definition normalize_text (value : pystr) : pystr :=
  let s := strip value in
  let s := sub_spaces false s in
  let s := unicodedata_normalize_NFKD s in
  let s := filter (fun ch => unicodedata_combining ch = 0) s in
  str_casefold s.

Definition normalize_player_name (name : pystr) : pystr := normalize_text name.

Definition normalize_club_name (name : pystr) : pystr := normalize_text name.

(** The pattern of [parse_market_value_to_int],
    [^([0-9]+(?:[.,][0-9]+)?)\s*([mMkK])?$], applied by [re.match]:
    groups 1 and 2 of the match. The classes that follow one another are
    disjoint, so the greedy reading is the only one; [$] also matches
    before a final newline. *)
Definition re_match_value (s : pystr) : option (pystr * option N) :=
  let ip := take_while is_ascii_digit s in
  let rest := drop_while is_ascii_digit s in
  match ip with
  | [] => None
  | _ :: _ =>
      let '(g1, rest) :=
        match rest with
        | sep :: rest' =>
            if (sep =? 46) || (sep =? 44)
            then match take_while is_ascii_digit rest' with
                 | [] => (ip, rest)
                 | fp => (ip ++ sep :: fp, drop_while is_ascii_digit rest')
                 end
            else (ip, rest)
        | [] => (ip, rest)
        end in
      let rest := lstrip rest in
      let '(g2, rest) :=
        match rest with
        | c :: rest' =>
            if (c =? 109) || (c =? 77) || (c =? 107) || (c =? 75)
            then (Some c, rest') else (None, rest)
        | [] => (None, rest)
        end in
      match rest with
      | [] | [10] => Some (g1, g2)
      | _ => None
      end
  end.

(** [int(digits)]: base ten, from the digit values of the characters
    (the interpreter's configurable bound on the length of the numeral is
    left out). *)
Definition py_int (digits : pystr) : result Z :=
  match digits with
  | [] => Raise (lit "ValueError")
  | _ =>
      fold_left
        (fun acc c =>
           a ← acc;
           match decimal_value c with
           | Some d => Ok (10 * a + d)%Z
           | None => Raise (lit "ValueError")
           end)
        digits (Ok 0%Z)
  end.

(** [parse_market_value_to_int] *)
Definition parse_market_value_to_int (value : value) : result (option Z) :=
  match value with
  | VNone | VNaN => Ok None
  | VInt z => Ok (Some z)
  | VStr _ =>
      let s := strip (py_str value) in
      if bool_decide (s = []) || bool_decide (str_lower s ∈ [lit "null"; lit "none"; lit "nan"])
      then Ok None
      else
        let s := replace [163] [] (replace [36] [] (replace [8364] [] s)) in
        let s := replace [194; 163] [] (replace [226; 8218; 172] [] s) in
        let s := strip (replace [160] [32] s) in
        match re_match_value (replace [32] [] s) with
        | Some (g1, suffix) =>
            let num := replace [44] [46] g1 in
            base ← py_float num;
            match suffix with
            | Some c =>
                if (c =? 109) || (c =? 77)
                then n ← int_round (float_mul base (float_of_int 1000000)); Ok (Some n)
                else n ← int_round (float_mul base (float_of_int 1000)); Ok (Some n)
            | None => n ← int_round base; Ok (Some n)
            end
        | None =>
            let digits := filter (fun c => is_Some (decimal_value c)) s in
            if forallb char_isdigit digits && negb (bool_decide (digits = []))
            then n ← py_int digits; Ok (Some n)
            else Ok None
        end
  end.

(** [clean_token], local to [score_name]: [re.sub(r"[^a-z]", "", tok.casefold())] *)
Definition clean_token (tok : pystr) : pystr :=
  filter (fun c => 97 <= c <= 122) (str_casefold tok).

(** [score_name] *)
Definition score_name (query_name row_name : pystr) : Z :=
  if bool_decide (row_name = []) then 0%Z
  else
    let q := normalize_player_name query_name in
    let r := normalize_player_name row_name in
    if bool_decide (q = r) then 3%Z
    else if contains q r || contains r q then 2%Z
    else
      let q_tokens : gset pystr := list_to_set (split q) in
      let r_tokens : gset pystr := list_to_set (split r) in
      if negb (bool_decide (q_tokens = ∅))
         && bool_decide (Nat.max 1 (Nat.min (size q_tokens) 2) ≤ size (q_tokens ∩ r_tokens))%nat
      then 1%Z
      else
        let q_parts := split q in
        let r_parts := split r in
        if bool_decide (2 ≤ length q_parts)%nat && bool_decide (2 ≤ length r_parts)%nat
        then
          let q_first := clean_token (hd [] q_parts) in
          let r_first := clean_token (hd [] r_parts) in
          let q_last := clean_token (List.last q_parts []) in
          let r_last := clean_token (List.last r_parts []) in
          if bool_decide (q_first = []) || bool_decide (r_first = [])
             || bool_decide (q_last = []) || bool_decide (r_last = [])
          then 0%Z
          else
            let min_len := Nat.min (length q_last) (length r_last) in
            let common_prefix := common_prefix_len q_last r_last in
            let same_last :=
              bool_decide (q_last = r_last)
              || (bool_decide (4 ≤ min_len)%nat
                  && (startswith q_last (take min_len r_last)
                      || startswith r_last (take min_len q_last)))
              || bool_decide (5 ≤ common_prefix)%nat in
            let first_prefix :=
              bool_decide (3 ≤ length q_first)%nat
              && (startswith r_first q_first || startswith q_first r_first) in
            if same_last && first_prefix then 1%Z else 0%Z
        else 0%Z.

(** The [for club in row_clubs] loop of [score_squad]; an exact match
    ends it at once with [return 3, club]. *)
Fixpoint score_squad_loop (q : pystr) (row_clubs : list pystr)
    (best_score : Z) (best_club : pystr) : Z * pystr :=
  match row_clubs with
  | [] => (best_score, best_club)
  | club :: rest =>
      let c := normalize_club_name club in
      if bool_decide (c = []) then score_squad_loop q rest best_score best_club
      else if bool_decide (q = c) then (3%Z, club)
      else if contains q c || contains c q then
        if (best_score <? 2)%Z
        then score_squad_loop q rest 2%Z club
        else score_squad_loop q rest best_score best_club
      else
        let q_tokens : gset pystr := list_to_set (split q) in
        let c_tokens : gset pystr := list_to_set (split c) in
        if negb (bool_decide (q_tokens = ∅))
           && negb (bool_decide (q_tokens ∩ c_tokens = ∅))
           && (best_score <? 1)%Z
        then score_squad_loop q rest 1%Z club
        else score_squad_loop q rest best_score best_club
  end.

(** [score_squad] *)
Definition score_squad (query_squad : pystr) (row_clubs : list pystr) : Z * pystr :=
  if bool_decide (query_squad = []) then (0%Z, hd [] row_clubs)
  else
    let q := normalize_club_name query_squad in
    score_squad_loop q row_clubs 0%Z (hd [] row_clubs).

(** [is_blank] *)
Definition is_blank (value : value) : bool :=
  match value with
  | VNone => true
  | VNaN => true
  | _ =>
      let s := str_casefold (strip (py_str value)) in
      bool_decide (s ∈ [[]; lit "nan"; lit "none"; lit "null"])
  end.

End Utils.

(** ** repository.py *)

(** The in-memory table [self.df]: its column labels and its rows in
    order, each row mapping a column label to the cell. Rows are
    addressed by position (the index of a loaded table is [0 .. n-1]). *)
Record DataFrame := {
  df_columns : list pystr;
  df_rows : list (gmap pystr value)
}.

(** The cell at row [idx], column [col], when both exist. *)
Definition cell (df : DataFrame) (idx : nat) (col : pystr) : option value :=
  row ← df_rows df !! idx; row !! col.

Section Repository.
Context {U : UnicodeDB}.

(** The [for idx, row in self.df.iterrows()] loop of [iter_rows_from]. *)
Fixpoint iter_rows_loop (start_row : Z) (idx : nat) (rows : list (gmap pystr value))
    : list (nat * pystr * pystr) :=
  match rows with
  | [] => []
  | row :: rest =>
      if (Z.of_nat idx + 1 <? start_row)%Z
      then iter_rows_loop start_row (S idx) rest
      else
        let player := py_str (default (VStr []) (row !! lit "Player")) in
        let squad := py_str (default (VStr []) (row !! lit "Squad")) in
        if bool_decide (player = []) || bool_decide (str_lower player = lit "nan")
        then iter_rows_loop start_row (S idx) rest
        else (idx, player, squad) :: iter_rows_loop start_row (S idx) rest
  end.

(** [MarketValuesRepository.iter_rows_from] *)
Definition iter_rows_from (df : DataFrame) (start_row : Z) : list (nat * pystr * pystr) :=
  iter_rows_loop start_row 0 (df_rows df).

(** The [for col in force_columns] loop of [merge_missing_fields]. *)
Definition fill_missing (fetched_row : gmap pystr value) (force_columns : list pystr)
    (current : gmap pystr value) : gmap pystr value :=
  foldl
    (fun current col =>
       if bool_decide (is_Some (fetched_row !! col)) && is_blank (dict_get current col)
       then <[col := dict_get fetched_row col]> current
       else current)
    current force_columns.

(** The status recomputed after the fill. *)
Definition refresh_status (current : gmap pystr value) : gmap pystr value :=
  if negb (is_blank (dict_get current (lit "Market Value (raw)")))
  then <[lit "Status" := VStr (lit "ok")]> current
  else if negb (is_blank (dict_get current (lit "Transfermarkt URL")))
  then <[lit "Status" := VStr (lit "value_not_found")]> current
  else current.

(** The final [for col, val in current.items()] loop: [self.df.at[idx, col] = val]
    for the labels that are columns of the table. *)
Definition write_back (columns : list pystr) (current row : gmap pystr value)
    : gmap pystr value :=
  map_fold
    (fun col val row => if bool_decide (col ∈ columns) then <[col := val]> row else row)
    row current.

(** [MarketValuesRepository.merge_missing_fields]. [self.df.iloc[idx]]
    raises [IndexError] past the last row; the keys of a row are the
    columns of the table, so that [to_dict()] is the row itself. *)
Definition merge_missing_fields (df : DataFrame) (idx : nat)
    (fetched_row : gmap pystr value) (force_columns : gset pystr) : result DataFrame :=
  match df_rows df !! idx with
  | None => Raise (lit "IndexError")
  | Some row =>
      let current := row in
      let current := fill_missing fetched_row (elements force_columns) current in
      let current := refresh_status current in
      Ok {| df_columns := df_columns df;
            df_rows := <[idx := write_back (df_columns df) current row]> (df_rows df) |}
  end.

End Repository.

(** ** transfermarkt_client.py *)

(** One [<tr>] fragment of the fast tier's answer, as the regular
    expressions of [_find_best_http] read it. *)
Record http_row := {
  hr_player : option (pystr * pystr);  (* m_player: the href and the link text, unescaped and stripped *)
  hr_club_links : list pystr;          (* texts of the /verein/ links, stripped *)
  hr_img_labels : list pystr;          (* title or alt of the images, stripped *)
  hr_value_cell : option pystr;        (* m_mv: text of the value cell, stripped *)
  hr_value_token : option pystr        (* m_mv2: first money-like token of the row text, stripped *)
}.

(** A results row of the DOM, as the fallback tier queries it. A query
    that fails is caught by the code and leaves what was gathered so far:
    each list holds what the queries delivered. *)
Record browser_row := {
  br_id : N;                                      (* row.id *)
  br_player_links : list pystr;                   (* .text of the player links of the row *)
  br_imgs : list (option pystr * option pystr);   (* title and alt attributes of the images *)
  br_club_links : list pystr;                     (* .text of the /verein/ links *)
  br_value_cells : list pystr                     (* .text of the td.rechts.hauptlink cells *)
}.

(** A player link found in the results page. *)
Record browser_link := {
  bl_href : option pystr;       (* link.get_attribute("href") *)
  bl_row : option browser_row;  (* the ancestor tr; None when the lookup raises *)
  bl_text : pystr               (* link.text *)
}.

(** What the outside world answers to one client during one resolution. *)
Record World := {
  http_search : pystr -> option (list http_row);
    (* urlopen on the search URL of a name, then findall; None on a transport failure *)
  build_driver : result unit;       (* _build_driver and the load of the home page *)
  accept_cookies : bool;            (* _accept_cookies_if_present (never raises) *)
  browser_get : pystr -> result unit;   (* driver.get on the search URL of a name *)
  browser_links : pystr -> result (list browser_link);
    (* the wait for the body, then find_elements on the player links *)
  strftime_now : pystr              (* time.strftime("%Y-%m-%d %H:%M:%S") *)
}.

(** Which tier a search went through. *)
Inductive tier := Fast | Fallback.

#[global] Instance tier_eq_dec : EqDecision tier.
Proof. solve_decision. Defined.

(** The client object, with the log of the searches it has issued. *)
Record Client := {
  driver : bool;             (* self.driver is not None *)
  cookies_accepted : bool;
  searches : list tier
}.

(** A method of the client: it may change the client and may raise. *)
Definition Exec (A : Type) : Type := Client -> result A * Client.

Definition exec_ret {A} (a : A) : Exec A := fun c => (Ok a, c).

Definition exec_bind {A B} (m : Exec A) (f : A -> Exec B) : Exec B :=
  fun c =>
    match m c with
    | (Ok a, c') => f a c'
    | (Raise e, c') => (Raise e, c')
    end.

(** A call that does not touch the client. *)
Definition exec_lift {A} (r : result A) : Exec A := fun c => (r, c).

Notation "x <- m ;; k" := (exec_bind m (fun x => k))
  (at level 100, m at next level, right associativity).
Notation "m ;;; k" := (exec_bind m (fun _ => k))
  (at level 100, right associativity).

(** A scored candidate: the tuple built by both tiers. *)
Record candidate := {
  composite : Z;
  name_score : Z;
  squad_score : Z;
  href : pystr;
  best_club : pystr;
  mv_raw : pystr
}.

(** [candidate[:3] > best[:3]]: tuples compare lexicographically. *)
Definition key_gt (a b : candidate) : bool :=
  (composite b <? composite a)%Z
  || ((composite a =? composite b)%Z
      && ((name_score b <? name_score a)%Z
          || ((name_score a =? name_score b)%Z
              && (squad_score b <? squad_score a)%Z))).

(** [re.search(r"[€$£]\s*[\d.,]+\s*[mkMK]?", txt)]: some currency sign
    is followed, after optional white space, by a digit, a dot or a comma. *)
Fixpoint money_search {U : UnicodeDB} (txt : pystr) : bool :=
  match txt with
  | [] => false
  | c :: rest =>
      (((c =? 8364) || (c =? 36) || (c =? 163))
       && match lstrip rest with
          | d :: _ => bool_decide (is_Some (decimal_value d)) || (d =? 46) || (d =? 44)
          | [] => false
          end)
      || money_search rest
  end.

(** [max(texts, key=len)]: the first text of greatest length. *)
Definition longest (texts : list pystr) : pystr :=
  foldl (fun best t => if (length best <? length t)%nat then t else best)
        (hd [] texts) (tl texts).

Section Client.
Context {U : UnicodeDB}.

(** Lines 189-190 and 270-271, the same in both tiers: score the squad
    and build the candidate tuple. *)
Definition make_candidate (squad : pystr) (score : Z) (link : pystr)
    (club_candidates : list pystr) (raw : pystr) : candidate :=
  let '(sq_score, club) := score_squad squad club_candidates in
  {| composite := score * 10 + sq_score * 4 + (if bool_decide (raw = []) then 0 else 1);
     name_score := score; squad_score := sq_score;
     href := link; best_club := club; mv_raw := raw |}.

(** Lines 191-192 and 272-273:
    [if best is None or candidate[:3] > best[:3]: best = candidate]. *)
Definition keep_best (best : option candidate) (cand : candidate) : option candidate :=
  match best with
  | None => Some cand
  | Some b => if key_gt cand b then Some cand else best
  end.

(** Lines 153-154: a site-relative link is made absolute. *)
Definition http_href (link : pystr) : pystr :=
  if startswith link (lit "/") then lit "https://www.transfermarkt.com" ++ link
  else link.

(** Lines 160-172: the club labels of a row, links first, then images. *)
Definition http_clubs (row_html : http_row) : list pystr :=
  filter (fun t => t ≠ []) (hr_club_links row_html)
  ++ filter (fun t => t ≠ []) (hr_img_labels row_html).

(** Lines 174-187: the value cell, else the first money-like token. *)
Definition http_raw (row_html : http_row) : pystr :=
  let raw := default [] (hr_value_cell row_html) in
  if bool_decide (raw = []) then default raw (hr_value_token row_html) else raw.

(** The body of the [for row_html in rows_html] loop. *)
Definition http_step (player_name squad : pystr) (best : option candidate)
    (row_html : http_row) : option candidate :=
  match hr_player row_html with
  | None => best
  | Some (link, row_player) =>
      let link := http_href link in
      let score := score_name player_name row_player in
      if (score =? 0)%Z then best
      else
        let club_candidates := http_clubs row_html in
        let raw := http_raw row_html in
        keep_best best (make_candidate squad score link club_candidates raw)
  end.

(** The selection of [_find_best_http] over the rows of an answer. *)
Definition http_select (player_name squad : pystr) (rows_html : list http_row)
    : option (pystr * pystr * pystr) :=
  match foldl (http_step player_name squad) None rows_html with
  | None => None
  | Some b => Some (href b, best_club b, mv_raw b)
  end.

(** [TransfermarktClient._find_best_http] *)
Definition _find_best_http (w : World) (player_name squad : pystr)
    : Exec (option (pystr * pystr * pystr)) :=
  fun c =>
    let c := {| driver := driver c; cookies_accepted := cookies_accepted c;
                searches := searches c ++ [Fast] |} in
    match http_search w player_name with
    | None => (Ok None, c)
    | Some rows_html => (Ok (http_select player_name squad rows_html), c)
    end.

(** [extract_mv], local to [_find_best_browser]. *)
Fixpoint extract_mv (mv_cells : list pystr) : pystr :=
  match mv_cells with
  | [] => []
  | cell_text :: rest =>
      let txt := strip cell_text in
      let txt := replace [194; 163] [163] (replace [226; 8218; 172] [8364] txt) in
      if money_search txt then txt else extract_mv rest
  end.

(** Lines 240-248: the name shown by a link, else the longest name among
    the player links of its row. *)
Definition browser_player (link : browser_link) (row : browser_row) : pystr :=
  let row_player := strip (bl_text link) in
  if bool_decide (row_player = []) then
    let texts :=
      strip <$> filter (fun t => t ≠ [] ∧ strip t ≠ []) (br_player_links row) in
    match texts with [] => row_player | _ => longest texts end
  else row_player.

(** Lines 253-267: the club labels of a row, images first, then links. *)
Definition browser_clubs (row : browser_row) : list pystr :=
  flat_map (fun '(title, alt) =>
              filter (fun t => t ≠ [])
                     [strip (default [] title); strip (default [] alt)])
           (br_imgs row)
  ++ filter (fun t => t ≠ []) (strip <$> br_club_links row).

(** The body of the [for link in links] loop; the state is the best
    candidate and the set [seen_rows]. *)
Definition browser_step (player_name squad : pystr)
    (st : option candidate * gset N) (link : browser_link)
    : option candidate * gset N :=
  let '(best, seen_rows) := st in
  match bl_href link with
  | None | Some [] => st
  | Some link_href =>
      match bl_row link with
      | None => st
      | Some row =>
          if bool_decide (br_id row ∈ seen_rows) then st
          else
            let seen_rows := seen_rows ∪ {[ br_id row ]} in
            let row_player := browser_player link row in
            let score := score_name player_name row_player in
            if (score =? 0)%Z then (best, seen_rows)
            else
              let club_candidates := browser_clubs row in
              let raw := extract_mv (br_value_cells row) in
              (keep_best best (make_candidate squad score link_href club_candidates raw),
               seen_rows)
      end
  end.

(** The selection of [_find_best_browser] over the links of a page. *)
Definition browser_select (player_name squad : pystr) (links : list browser_link)
    : option (pystr * pystr * pystr) :=
  match fst (foldl (browser_step player_name squad) (None, ∅) links) with
  | None => None
  | Some b => Some (href b, best_club b, mv_raw b)
  end.

(** The candidates of an answer of the fast tier as the specification
    lists them: one per row that has a player link, scored whatever its
    name score, in the order of the rows. *)
Definition http_candidates (player_name squad : pystr) (rows_html : list http_row)
    : list candidate :=
  omap (fun row_html =>
          '(link, row_player) ← hr_player row_html;
          Some (make_candidate squad (score_name player_name row_player)
                  (http_href link) (http_clubs row_html) (http_raw row_html)))
       rows_html.

(** The candidates of a page of the fallback tier as the specification
    lists them: one per link that has an address and lies in a row not
    met before, in the order of the links. *)
Fixpoint browser_candidates (player_name squad : pystr) (seen_rows : gset N)
    (links : list browser_link) : list candidate :=
  match links with
  | [] => []
  | link :: rest =>
      match bl_href link, bl_row link with
      | Some (ch :: link_href), Some row =>
          if bool_decide (br_id row ∈ seen_rows)
          then browser_candidates player_name squad seen_rows rest
          else
            make_candidate squad (score_name player_name (browser_player link row))
              (ch :: link_href) (browser_clubs row) (extract_mv (br_value_cells row))
            :: browser_candidates player_name squad (seen_rows ∪ {[ br_id row ]}) rest
      | _, _ => browser_candidates player_name squad seen_rows rest
      end
  end.

(** The sort key of a candidate, [candidate[:3]]. *)
Definition key (c : candidate) : Z * Z * Z := (composite c, name_score c, squad_score c).

(** The lexicographic order of Python on triples of ints. *)
Definition lex_lt (x y : Z * Z * Z) : Prop :=
  (x.1.1 < y.1.1
   \/ (x.1.1 = y.1.1 /\ (x.1.2 < y.1.2 \/ (x.1.2 = y.1.2 /\ x.2 < y.2))))%Z.

(** [c] is the first candidate of [l] whose key is greatest: no key of
    [l] is above its key, and every earlier key is strictly below. *)
Definition first_maximum (l : list candidate) (c : candidate) : Prop :=
  exists i,
    l !! i = Some c
    /\ (forall j c', l !! j = Some c' -> ~ lex_lt (key c) (key c'))
    /\ (forall j c', (j < i)%nat -> l !! j = Some c' -> lex_lt (key c') (key c)).

(** [TransfermarktClient._ensure_browser] *)
Definition _ensure_browser (w : World) : Exec unit :=
  fun c =>
    if driver c then (Ok tt, c)
    else
      match build_driver w with
      | Raise e => (Raise e, c)
      | Ok _ =>
          (Ok tt, {| driver := true; cookies_accepted := accept_cookies w;
                     searches := searches c |})
      end.

(** [TransfermarktClient._find_best_browser] *)
Definition _find_best_browser (w : World) (player_name squad : pystr)
    : Exec (option (pystr * pystr * pystr)) :=
  fun c =>
    let c := {| driver := driver c; cookies_accepted := cookies_accepted c;
                searches := searches c ++ [Fallback] |} in
    match browser_get w player_name with
    | Raise e => (Raise e, c)
    | Ok _ =>
        let c :=
          if cookies_accepted c then c
          else {| driver := driver c;
                  cookies_accepted := accept_cookies w || cookies_accepted c;
                  searches := searches c |} in
        match browser_links w player_name with
        | Raise e => (Raise e, c)
        | Ok [] => (Ok None, c)
        | Ok links => (Ok (browser_select player_name squad links), c)
        end
    end.

(** The test of line 284, negated:
    [match is not None and (match[2] and str(match[2]).strip())]. *)
Definition has_value_text (found : option (pystr * pystr * pystr)) : bool :=
  match found with
  | None => false
  | Some (_, _, raw) => negb (bool_decide (raw = [])) && negb (bool_decide (strip raw = []))
  end.

(** Lines 282-289 of [process_player]: the match that is kept and the
    source it is credited to. *)
Definition select_match (w : World) (player_name squad : pystr)
    : Exec (option (pystr * pystr * pystr) * pystr) :=
  found <- _find_best_http w player_name squad ;;
  let source := lit "http" in
  if has_value_text found then exec_ret (found, source)
  else
    _ensure_browser w ;;;
    browser_match <- _find_best_browser w player_name squad ;;
    match browser_match with
    | Some _ => exec_ret (browser_match, lit "browser")
    | None => exec_ret (found, source)
    end.

(** Lines 291-314 of [process_player]: the row payload of a match. *)
Definition build_row (w : World) (player_name squad : pystr)
    (found : option (pystr * pystr * pystr)) : result (gmap pystr value) :=
  match found with
  | None =>
      Ok (list_to_map
            [(lit "Player", VStr player_name); (lit "Squad", VStr squad);
             (lit "Matched Club", VStr []); (lit "Transfermarkt URL", VStr []);
             (lit "Market Value (raw)", VStr []); (lit "Market Value (int)", VStr []);
             (lit "Updated At", VStr (strftime_now w));
             (lit "Status", VStr (lit "not_found"))])
  | Some (url, matched_club, raw) =>
      mv_int ← (if bool_decide (raw = []) then Ok None
                else parse_market_value_to_int (VStr raw));
      Ok (list_to_map
            [(lit "Player", VStr player_name); (lit "Squad", VStr squad);
             (lit "Matched Club", VStr matched_club); (lit "Transfermarkt URL", VStr url);
             (lit "Market Value (raw)", VStr raw);
             (lit "Market Value (int)",
               match mv_int with Some n => VInt n | None => VStr [] end);
             (lit "Updated At", VStr (strftime_now w));
             (lit "Status",
               VStr (if bool_decide (raw = []) then lit "value_not_found" else lit "ok"))])
  end.

(** [TransfermarktClient.process_player] *)
Definition process_player (w : World) (player_name squad : pystr)
    : Exec (gmap pystr value * pystr) :=
  sel <- select_match w player_name squad ;;
  row <- exec_lift (build_row w player_name squad (fst sel)) ;;
  exec_ret (row, snd sel).

End Client.

(** ** app.py *)

(** An item of the result queue: [(idx, row_out, source)]. *)
Definition message : Type := option nat * option (gmap pystr value) * pystr.

(** What one worker observes on one turn of its loop: the stop flag, the
    outcome of [tasks_queue.get(timeout=0.3)] ([None] for [Empty]), and
    the world its client meets while it works on the task. The queues are
    shared with the other threads; this is the view of a single worker. *)
Record observation := {
  ob_stop : bool;
  ob_task : option (nat * pystr * pystr);
  ob_world : World
}.

(** The tasks a worker takes: those it is handed until the stop flag is
    seen set or the queue is found empty. *)
Fixpoint taken_tasks (obs : list observation) : list (nat * pystr * pystr) :=
  match obs with
  | [] => []
  | ob :: rest =>
      if ob_stop ob then []
      else match ob_task ob with
           | None => []
           | Some task => task :: taken_tasks rest
           end
  end.

Section App.
Context {U : UnicodeDB}.

(** The row a worker builds in its [except Exception as exc] branch. *)
Definition error_row (player squad now exc_type : pystr) : gmap pystr value :=
  list_to_map
    [(lit "Player", VStr player); (lit "Squad", VStr squad);
     (lit "Matched Club", VStr []); (lit "Transfermarkt URL", VStr []);
     (lit "Market Value (raw)", VStr []); (lit "Market Value (int)", VStr []);
     (lit "Updated At", VStr now);
     (lit "Status", VStr (lit "error:" ++ exc_type))].

(** The [try / except Exception / finally] block of the loop for one
    task, up to the message that is put on the result queue. *)
Definition worker_job (w : World) (task : nat * pystr * pystr) (client : Client)
    : result message * Client :=
  let '(idx, player, squad) := task in
  let '(outcome, client) := process_player w player squad client in
  let handled :=
    match outcome with
    | Ok (row_out, source) => Ok (row_out, source)
    | Raise exc_type =>
        Ok (error_row player squad (strftime_now w) exc_type, lit "error")
    end in
  (pair ← handled; Ok (Some idx, Some (fst pair), snd pair), client).

(** The [while not stop_event.is_set()] loop; a list of observations that
    runs out stands for the drained queue. *)
Fixpoint worker_while (obs : list observation) (client : Client)
    (results_queue : list message) : result unit * Client * list message :=
  match obs with
  | [] => (Ok tt, client, results_queue)
  | ob :: rest =>
      if ob_stop ob then (Ok tt, client, results_queue)
      else
        match ob_task ob with
        | None => (Ok tt, client, results_queue)
        | Some task =>
            match worker_job (ob_world ob) task client with
            | (Ok msg, client) => worker_while rest client (results_queue ++ [msg])
            | (Raise e, client) => (Raise e, client, results_queue)
            end
        end
  end.

(** [TransfermarktClient.close] *)
Definition close (client : Client) : Client :=
  {| driver := false; cookies_accepted := cookies_accepted client;
     searches := searches client |}.

(** [MarketValueApp._worker_loop]: the outcome of the call (an exception
    that leaves the loop would be re-raised after the [finally] block) and
    the result queue afterwards. *)
Definition _worker_loop (worker_id : Z) (obs : list observation)
    (results_queue : list message) : result unit * list message :=
  let client := {| driver := false; cookies_accepted := false; searches := [] |} in
  let '(outcome, client, results_queue) := worker_while obs client results_queue in
  let client := close client in
  (outcome, results_queue ++ [(None, None, lit "worker_done:" ++ int_str worker_id)]).

End App.

(** ** Sample data

    Concrete tables, answers of the site and runs, on ASCII text plus the
    euro sign; the properties below are evaluated on them with the ASCII
    tables. *)

Definition euro : N := 8364.

Definition messi_url : pystr :=
  lit "https://www.transfermarkt.com/lionel-messi/profil/spieler/28003".

(** A stored row resolved earlier without a value. *)
Definition stored_row : gmap pystr value :=
  list_to_map
    [(lit "Player", VStr (lit "Lionel Messi")); (lit "Squad", VStr (lit "Inter Miami"));
     (lit "Matched Club", VStr (lit "Inter Miami"));
     (lit "Transfermarkt URL", VStr messi_url);
     (lit "Market Value (raw)", VStr []); (lit "Market Value (int)", VStr []);
     (lit "Updated At", VStr (lit "2026-02-18 12:19:00"));
     (lit "Status", VStr (lit "value_not_found"))].

Definition HEADERS : list pystr :=
  [lit "Player"; lit "Squad"; lit "Matched Club"; lit "Transfermarkt URL";
   lit "Market Value (raw)"; lit "Market Value (int)"; lit "Updated At"; lit "Status"].

Definition stored_table : DataFrame :=
  {| df_columns := HEADERS; df_rows := [stored_row] |}.

(** What a later resolution of the same player fetched. *)
Definition fetched_fields : gmap pystr value :=
  list_to_map
    [(lit "Player", VStr (lit "Lionel Messi")); (lit "Squad", VStr (lit "Inter Miami"));
     (lit "Matched Club", VStr (lit "Inter Miami CF"));
     (lit "Transfermarkt URL", VStr messi_url);
     (lit "Market Value (raw)", VStr (euro :: lit "30.00m"));
     (lit "Market Value (int)", VInt 30000000);
     (lit "Updated At", VStr (lit "2026-02-18 12:25:00"));
     (lit "Status", VStr (lit "ok"))].

(** The stored table after the fetched fields are merged into its row. *)
Definition merged_table : DataFrame :=
  {| df_columns := HEADERS;
     df_rows :=
       [list_to_map
          [(lit "Player", VStr (lit "Lionel Messi")); (lit "Squad", VStr (lit "Inter Miami"));
           (lit "Matched Club", VStr (lit "Inter Miami"));
           (lit "Transfermarkt URL", VStr messi_url);
           (lit "Market Value (raw)", VStr (euro :: lit "30.00m"));
           (lit "Market Value (int)", VInt 30000000);
           (lit "Updated At", VStr (lit "2026-02-18 12:19:00"));
           (lit "Status", VStr (lit "ok"))]] |}.

(** The forced columns of the backfill pass ([force_cols] in [_run_backfill]). *)
Definition backfill_columns : gset pystr :=
  list_to_set
    [lit "Transfermarkt URL"; lit "Market Value (raw)"; lit "Market Value (int)";
     lit "Matched Club"; lit "Updated At"; lit "Status"].

(** A table whose names are blank for [is_blank] but not for [iter_rows_from]. *)
Definition null_named_table : DataFrame :=
  {| df_columns := HEADERS;
     df_rows :=
       [list_to_map [(lit "Player", VStr (lit "None")); (lit "Squad", VStr (lit "Porto"))];
        list_to_map [(lit "Player", VStr (lit "null")); (lit "Squad", VStr (lit "Benfica"))];
        list_to_map [(lit "Player", VStr (lit "  ")); (lit "Squad", VStr (lit "Braga"))];
        list_to_map [(lit "Player", VStr (lit "NaN")); (lit "Squad", VStr (lit "Boavista"))]] |}.

(** A fast-tier row with a name and a value but no club label at all. *)
Definition row_without_labels : http_row :=
  {| hr_player := Some (lit "/lionel-messi/profil/spieler/28003", lit "Lionel Messi");
     hr_club_links := []; hr_img_labels := [];
     hr_value_cell := Some (euro :: lit "30.00m"); hr_value_token := None |}.

(** A fast-tier row with a club label but no value text. *)
Definition row_without_value : http_row :=
  {| hr_player := Some (lit "/lionel-messi/profil/spieler/28003", lit "Lionel Messi");
     hr_club_links := [lit "Inter Miami CF"]; hr_img_labels := [];
     hr_value_cell := None; hr_value_token := None |}.

(** The same player as the browser shows it, with its value. *)
Definition browser_messi : browser_link :=
  {| bl_href := Some messi_url;
     bl_row := Some {| br_id := 7; br_player_links := [lit "Lionel Messi"];
                       br_imgs := [(Some (lit "Inter Miami CF"), Some (lit "Inter Miami CF"))];
                       br_club_links := [lit "Inter Miami CF"];
                       br_value_cells := [euro :: lit "30.00m"] |};
     bl_text := lit "Lionel Messi" |}.

(** A world whose fast tier answers with [rows_html] and whose browser
    works and shows [links]. *)
Definition world_with (rows_html : list http_row) (links : list browser_link) : World :=
  {| http_search := fun _ => Some rows_html;
     build_driver := Ok tt;
     accept_cookies := true;
     browser_get := fun _ => Ok tt;
     browser_links := fun _ => Ok links;
     strftime_now := lit "2026-02-18 12:25:00" |}.

(** A world without network: the request fails and no browser starts. *)
Definition world_offline : World :=
  {| http_search := fun _ => None;
     build_driver := Raise (lit "WebDriverException");
     accept_cookies := false;
     browser_get := fun _ => Raise (lit "WebDriverException");
     browser_links := fun _ => Raise (lit "WebDriverException");
     strftime_now := lit "2026-02-18 12:25:00" |}.

(** A client just created. *)
Definition new_client : Client :=
  {| driver := false; cookies_accepted := false; searches := [] |}.

(** The row payload of a resolution that kept the candidate without
    labels of the fast tier. *)
Definition unlabelled_fields : gmap pystr value :=
  list_to_map
    [(lit "Player", VStr (lit "Lionel Messi")); (lit "Squad", VStr (lit "Inter Miami"));
     (lit "Matched Club", VStr []);
     (lit "Transfermarkt URL", VStr messi_url);
     (lit "Market Value (raw)", VStr (euro :: lit "30.00m"));
     (lit "Market Value (int)", VInt 30000000);
     (lit "Updated At", VStr (lit "2026-02-18 12:25:00"));
     (lit "Status", VStr (lit "ok"))].

(** A one-task observation of a worker without network. *)
Definition offline_task : observation :=
  {| ob_stop := false;
     ob_task := Some (0%nat, lit "Lionel Messi", lit "Inter Miami");
     ob_world := world_offline |}.

(** ** The remaining functions

    The prompts and the column detection of [utils.py], [update_row] of
    [repository.py], the URL and tag helpers of [transfermarkt_client.py],
    and the passes of [app.py] that run after the workers. What the user
    types at a prompt is an argument of the function that reads it. *)

(** *** config.py *)

Definition POSSIBLE_PLAYER_COLS : list pystr :=
  [lit "Player"; lit "player"; lit "Name"; lit "name"; lit "Player Name"; lit "player_name"].

Definition POSSIBLE_SQUAD_COLS : list pystr :=
  [lit "Squad"; lit "squad"; lit "Team"; lit "team"; lit "Club"; lit "club"].

Definition MAX_WORKERS : Z := 6.

Definition BACKFILL_BEHIND_ROWS : Z := 5.

(** *** utils.py: the input file *)

Definition INPUT_FILE_STEM : pystr := lit "players_data_light-2024_2025".

Definition INPUT_EXTS : list pystr := [lit ".csv"; lit ".xlsx"; lit ".xls"].

(** The [for ext in INPUT_EXTS] loop of [find_input_file]; [present name]
    is the answer of [(folder / name).exists()]. *)
Fixpoint first_present (present : pystr -> bool) (exts : list pystr) : option pystr :=
  match exts with
  | [] => None
  | ext :: rest =>
      let candidate := INPUT_FILE_STEM ++ ext in
      if present candidate then Some candidate else first_present present rest
  end.

(** [find_input_file]: the name, within the folder, of the file found. *)
Definition find_input_file (present : pystr -> bool) : result pystr :=
  match first_present present INPUT_EXTS with
  | Some candidate => Ok candidate
  | None => Raise (lit "FileNotFoundError")
  end.

(** [name.rfind(".")]: [pos] is the position of the head of [s]. *)
Fixpoint rfind_dot (s : pystr) (pos : nat) (found : option nat) : option nat :=
  match s with
  | [] => found
  | c :: s' => rfind_dot s' (S pos) (if c =? 46 then Some pos else found)
  end.

(** [Path.suffix] of a file name: from its last dot on, when that dot is
    neither the first nor the last character (later versions of the
    library treat a final dot otherwise; no name of [find_input_file]
    has one). *)
Definition path_suffix (name : pystr) : pystr :=
  match rfind_dot name O None with
  | Some i =>
      if bool_decide (0 < i)%nat && bool_decide (i < length name - 1)%nat
      then drop i name else []
  | None => []
  end.

(** The reader that [read_input_table] hands the file to. *)
Inductive reader := read_csv | read_excel.

(** [read_input_table], up to the choice of the reader. *)
Definition read_input_table {U : UnicodeDB} (name : pystr) : result reader :=
  let suffix := str_lower (path_suffix name) in
  if bool_decide (suffix = lit ".csv") then Ok read_csv
  else if bool_decide (suffix ∈ [lit ".xlsx"; lit ".xls"]) then Ok read_excel
  else Raise (lit "ValueError").

(** *** utils.py: prompts and column detection *)

(** [s.split(sep)] for a separator of one character; [cur] is the piece
    being read. *)
Fixpoint split_on (sep : N) (cur : pystr) (s : pystr) : list pystr :=
  match s with
  | [] => [cur]
  | c :: s' =>
      if c =? sep then cur :: split_on sep [] s'
      else split_on sep (cur ++ [c]) s'
  end.

(** The digits of an integer literal after its sign: decimal digits, with
    single underscores between digits only. *)
Fixpoint int_digits {U : UnicodeDB} (after_digit : bool) (acc : Z) (s : pystr) : result Z :=
  match s with
  | [] => if after_digit then Ok acc else Raise (lit "ValueError")
  | c :: s' =>
      if c =? 95 then
        if after_digit then int_digits false acc s' else Raise (lit "ValueError")
      else
        match decimal_value c with
        | Some d => int_digits true (10 * acc + d)%Z s'
        | None => Raise (lit "ValueError")
        end
  end.

Section Prompts.
Context {U : UnicodeDB}.

(** [int(text)] for a [str], in base ten: white space around the literal
    is dropped, then an optional sign and the digits are read (the
    interpreter's configurable bound on the length of the numeral is left
    out). *)
Definition int_of_str (text : pystr) : result Z :=
  match strip text with
  | 45 :: digits => n ← int_digits false 0%Z digits; Ok (- n)%Z
  | 43 :: digits => int_digits false 0%Z digits
  | digits => int_digits false 0%Z digits
  end.

(** [detect_player_column] and [detect_squad_column] build
    [{c.casefold(): c for c in df.columns}]: of two labels with one key
    the later one stays. *)
Definition cols_casefold (columns : list pystr) : gmap pystr pystr :=
  foldl (fun m c => <[str_casefold c := c]> m) ∅ columns.

(** [for candidate in ...: if candidate.casefold() in cols_casefold: return ...] *)
Fixpoint first_known (cols : gmap pystr pystr) (candidates : list pystr) : option pystr :=
  match candidates with
  | [] => None
  | candidate :: rest =>
      match cols !! str_casefold candidate with
      | Some c => Some c
      | None => first_known cols rest
      end
  end.

(** [detect_player_column]; a column is given with the answer to
    [df[c].dtype == "object"] (the labels of an input table are distinct
    texts). *)
Definition detect_player_column (columns : list (pystr * bool)) : result pystr :=
  match first_known (cols_casefold (columns.*1)) POSSIBLE_PLAYER_COLS with
  | Some c => Ok c
  | None =>
      match filter (fun cd => cd.2 = true) columns with
      | (c, _) :: _ => Ok c
      | [] => Raise (lit "ValueError")
      end
  end.

(** [detect_squad_column] *)
Definition detect_squad_column (columns : list pystr) : result pystr :=
  match first_known (cols_casefold columns) POSSIBLE_SQUAD_COLS with
  | Some c => Ok c
  | None => Raise (lit "ValueError")
  end.

(** [choose_columns_to_fill]; [mode_answer] and [selected_answer] are the
    two lines typed, the second one being read in the selected mode only. *)
Definition choose_columns_to_fill (headers : list pystr)
    (mode_answer selected_answer : pystr) : gset pystr :=
  let editable := filter (fun h => h ∉ [lit "Player"; lit "Squad"]) headers in
  let mode := str_casefold (strip mode_answer) in
  if bool_decide (mode ≠ lit "selected") then list_to_set editable
  else
    let selected_input := strip selected_answer in
    let selected : gset pystr :=
      list_to_set (strip <$> filter (fun c => strip c ≠ []) (split_on 44 [] selected_input)) in
    let chosen : gset pystr := list_to_set (filter (fun c => c ∈ selected) editable) in
    if bool_decide (chosen = ∅) then list_to_set editable else chosen.

(** [ask_worker_count]; [answer] is the outcome of [input(...)], which
    raises at the end of the input stream. *)
Definition ask_worker_count (default_workers total_jobs : Z) (answer : result pystr) : Z :=
  let fallback := Z.max 1 (Z.min default_workers total_jobs) in
  match answer with
  | Raise _ => fallback
  | Ok line =>
      let raw := strip line in
      if bool_decide (raw = []) then fallback
      else
        match int_of_str raw with
        | Ok n => Z.max 1 (Z.min n total_jobs)
        | Raise _ => fallback
        end
  end.

(** [recommended_workers]; [cpu_count] is the answer of [os.cpu_count()]. *)
Definition recommended_workers (cpu_count : option Z) (max_workers : Z) : Z :=
  let cpu :=
    match cpu_count with
    | Some n => if (n =? 0)%Z then 4%Z else n
    | None => 4%Z
    end in
  Z.max 2 (Z.min max_workers (Z.max 2 (cpu - 1))).

(** [ask_enable_backfill] *)
Definition ask_enable_backfill (answer : pystr) : bool :=
  let raw := str_casefold (strip answer) in
  bool_decide (raw ∈ [lit "y"; lit "yes"]).


End Prompts.

(** *** repository.py: [update_row] *)

(** The [for col, val in row_data.items()] loop of [update_row] on the
    cells of the target row. *)
Definition update_cells (columns : list pystr) (columns_to_fill : gset pystr)
    (row_data row : gmap pystr value) : gmap pystr value :=
  map_fold
    (fun col val row =>
       if bool_decide (col ∈ columns) && bool_decide (col ∈ columns_to_fill)
       then <[col := val]> row else row)
    row row_data.

(** [MarketValuesRepository.update_row]. [self.df.at[idx, col] = val] on a
    position past the last row would make pandas add a row labelled [idx];
    the positional table does not hold such a row, and the outcome is
    [None] there. When no column is written the position is not looked at. *)
Definition update_row (df : DataFrame) (idx : nat) (row_data : gmap pystr value)
    (columns_to_fill : gset pystr) : option DataFrame :=
  match df_rows df !! idx with
  | Some row =>
      Some {| df_columns := df_columns df;
              df_rows :=
                <[idx := update_cells (df_columns df) columns_to_fill row_data row]>
                  (df_rows df) |}
  | None =>
      if bool_decide
           (filter (fun kv => kv.1 ∈ df_columns df ∧ kv.1 ∈ columns_to_fill) row_data = ∅)
      then Some df
      else None
  end.

(** *** transfermarkt_client.py: the search URL and the tag stripper *)

(** [str.encode("utf-8")] for one code point; the surrogates have no
    encoding, and a [str] holds no code point above U+10FFFF. *)
Definition utf8_encode_char (c : N) : result (list N) :=
  if c <? 128 then Ok [c]
  else if c <? 2048 then Ok [192 + c / 64; 128 + c mod 64]
  else if c <? 65536 then
    if (55296 <=? c) && (c <=? 57343) then Raise (lit "UnicodeEncodeError")
    else Ok [224 + c / 4096; 128 + (c / 64) mod 64; 128 + c mod 64]
  else if c <? 1114112 then
    Ok [240 + c / 262144; 128 + (c / 4096) mod 64; 128 + (c / 64) mod 64; 128 + c mod 64]
  else Raise (lit "UnicodeEncodeError").

Fixpoint utf8_encode (s : pystr) : result (list N) :=
  match s with
  | [] => Ok []
  | c :: s' => bs ← utf8_encode_char c; rest ← utf8_encode s'; Ok (bs ++ rest)
  end.

(** The bytes [urllib.parse.quote] never escapes: letters, digits and [_.-~]. *)
Definition always_safe (b : N) : bool :=
  ((65 <=? b) && (b <=? 90)) || ((97 <=? b) && (b <=? 122)) || ((48 <=? b) && (b <=? 57))
  || (b =? 95) || (b =? 46) || (b =? 45) || (b =? 126).

Definition hex_digit (n : N) : N := if n <? 10 then 48 + n else 55 + n.

(** One byte as [quote_plus] writes it: itself when safe, [+] for a
    space, else [%XX] in upper-case hexadecimal. *)
Definition quote_byte (b : N) : pystr :=
  if always_safe b then [b]
  else if b =? 32 then [43]
  else [37; hex_digit (b / 16); hex_digit (b mod 16)].

(** [urllib.parse.quote_plus(s)] with its default arguments. *)
Definition quote_plus (s : pystr) : result pystr :=
  bs ← utf8_encode s; Ok (flat_map quote_byte bs).

Definition search_endpoint : pystr :=
  lit "https://www.transfermarkt.com/schnellsuche/ergebnis/schnellsuche?query=".

(** [TransfermarktClient.build_search_url] *)
Definition build_search_url (player_name : pystr) : result pystr :=
  query ← quote_plus (strip player_name); Ok (search_endpoint ++ query).




(** *** app.py: the aggregation of the results, the retry and the backfill *)

(** What the main thread finds on one turn of its loop over the result
    queue: an item, or the [Empty] of [get(timeout=0.3)] together with the
    answer to [all(not t.is_alive() for t in threads)]. *)
Inductive queue_event :=
  | Item (msg : message)
  | NoItem (all_ended : bool).

(** The variables of the loop of [_run_parallel], with the table. *)
Record tally := {
  t_df : DataFrame;
  t_processed_idxs : gset nat;
  t_results : list (gmap pystr value);
  t_processed : nat
}.

Section Passes.
Context {U : UnicodeDB}.

(** [row_out.get("Status", "").startswith("error:")] of the progress log:
    a value that is not a [str] has no such method. *)
Definition status_is_error (row_out : gmap pystr value) : result bool :=
  match default (VStr []) (row_out !! lit "Status") with
  | VStr s => Ok (startswith s (lit "error:"))
  | _ => Raise (lit "AttributeError")
  end.

(** The [while processed < total_jobs] loop of [_run_parallel] on a run
    that is not interrupted from the keyboard; a list of events that runs
    out stands for the threads having ended. The writes of the table to
    the file are outside the table and left out. *)
Fixpoint aggregate (total_jobs : nat) (columns_to_fill : gset pystr)
    (events : list queue_event) (st : tally) : option (result unit * tally) :=
  if bool_decide (t_processed st < total_jobs)%nat then
    match events with
    | [] => Some (Ok tt, st)
    | NoItem true :: _ => Some (Ok tt, st)
    | NoItem false :: rest => aggregate total_jobs columns_to_fill rest st
    | Item (None, _, _) :: rest => aggregate total_jobs columns_to_fill rest st
    | Item (Some idx, None, _) :: _ => Some (Raise (lit "AttributeError"), st)
    | Item (Some idx, Some row_out, _) :: rest =>
        match update_row (t_df st) idx row_out columns_to_fill with
        | None => None
        | Some df =>
            let st := {| t_df := df;
                         t_processed_idxs := {[ idx ]} ∪ t_processed_idxs st;
                         t_results := t_results st ++ [row_out];
                         t_processed := S (t_processed st) |} in
            match status_is_error row_out with
            | Raise e => Some (Raise e, st)
            | Ok _ => aggregate total_jobs columns_to_fill rest st
            end
        end
    end
  else Some (Ok tt, st).

(** [MarketValueApp._run_parallel] as the main thread runs it: the
    results, the indices processed and the interrupt flag, with the table
    afterwards. *)
Definition _run_parallel (columns_to_fill : gset pystr) (rows : list (nat * pystr * pystr))
    (events : list queue_event) (df : DataFrame)
    : option (result (list (gmap pystr value) * gset nat * bool) * DataFrame) :=
  let total_jobs := length rows in
  if bool_decide (total_jobs = O) then Some (Ok ([], ∅, false), df)
  else
    '(outcome, st) ←
      aggregate total_jobs columns_to_fill events
        {| t_df := df; t_processed_idxs := ∅; t_results := []; t_processed := O |};
    Some (_ ← outcome; Ok (t_results st, t_processed_idxs st, false), t_df st).

(** The [try / except Exception] block of [_retry_missing] for one row. *)
Definition retry_job (w : World) (player squad : pystr) (client : Client)
    : gmap pystr value * Client :=
  match process_player w player squad client with
  | (Ok (row_out, _), client) => (row_out, client)
  | (Raise exc_type, client) => (error_row player squad (strftime_now w) exc_type, client)
  end.

(** The [for idx in missing_idxs] loop of [_retry_missing]; [worlds idx]
    is the world met while row [idx] is resolved. The list [results] is
    the caller's and keeps what was appended when the loop raises. *)
Fixpoint retry_loop (worlds : nat -> World) (row_lookup : gmap nat (pystr * pystr))
    (columns_to_fill : gset pystr) (missing_idxs : list nat) (client : Client)
    (df : DataFrame) (results : list (gmap pystr value))
    : option (result unit * DataFrame * list (gmap pystr value)) :=
  match missing_idxs with
  | [] => Some (Ok tt, df, results)
  | idx :: rest =>
      match row_lookup !! idx with
      | None => Some (Raise (lit "KeyError"), df, results)
      | Some (player, squad) =>
          let '(row_out, client) := retry_job (worlds idx) player squad client in
          match update_row df idx row_out columns_to_fill with
          | None => None
          | Some df =>
              retry_loop worlds row_lookup columns_to_fill rest client df
                (results ++ [row_out])
          end
      end
  end.

(** [MarketValueApp._retry_missing] *)
Definition _retry_missing (worlds : nat -> World) (row_lookup : gmap nat (pystr * pystr))
    (columns_to_fill : gset pystr) (missing_idxs : list nat)
    (df : DataFrame) (results : list (gmap pystr value))
    : option (result unit * DataFrame * list (gmap pystr value)) :=
  match missing_idxs with
  | [] => Some (Ok tt, df, results)
  | _ => retry_loop worlds row_lookup columns_to_fill missing_idxs new_client df results
  end.

(** The body of the [for idx in range(start_idx, len(self.repo.df))] loop
    of [_run_backfill] on a run that is not interrupted from the keyboard:
    the outcome, the client, the table and the count of updates. *)
Definition backfill_step (w : World) (idx : nat) (client : Client) (df : DataFrame)
    (updates : nat) : result unit * Client * DataFrame * nat :=
  match df_rows df !! idx with
  | None => (Raise (lit "IndexError"), client, df, updates)
  | Some row =>
      let player := py_str (default (VStr []) (row !! lit "Player")) in
      let squad := py_str (default (VStr []) (row !! lit "Squad")) in
      if is_blank (VStr player) then (Ok tt, client, df, updates)
      else
        let needs_url := is_blank (dict_get row (lit "Transfermarkt URL")) in
        let needs_value_int := is_blank (dict_get row (lit "Market Value (int)")) in
        if negb (needs_url || needs_value_int) then (Ok tt, client, df, updates)
        else
          match process_player w player squad client with
          | (Raise _, client) => (Ok tt, client, df, updates)
          | (Ok (fetched, _), client) =>
              match merge_missing_fields df idx fetched backfill_columns with
              | Raise e => (Raise e, client, df, updates)
              | Ok df => (Ok tt, client, df, S updates)
              end
          end
  end.

Fixpoint backfill_loop (worlds : nat -> World) (idxs : list nat) (client : Client)
    (df : DataFrame) (updates : nat) : result unit * DataFrame * nat :=
  match idxs with
  | [] => (Ok tt, df, updates)
  | idx :: rest =>
      match backfill_step (worlds idx) idx client df updates with
      | (Ok _, client, df, updates) => backfill_loop worlds rest client df updates
      | (Raise e, _, df, updates) => (Raise e, df, updates)
      end
  end.

(** [MarketValueApp._run_backfill]: the outcome, the table afterwards and
    the number of rows it merged into. *)
Definition _run_backfill (enable_backfill : bool) (start_row : Z) (worlds : nat -> World)
    (df : DataFrame) : result unit * DataFrame * nat :=
  if enable_backfill then
    let start_idx := Z.to_nat (Z.max 0 (start_row - 1 - BACKFILL_BEHIND_ROWS)) in
    backfill_loop worlds (seq start_idx (length (df_rows df) - start_idx)) new_client df O
  else (Ok tt, df, O).

(** [{idx: (player, squad) for idx, player, squad in rows}] *)
Definition row_lookup_of (rows : list (nat * pystr * pystr)) : gmap nat (pystr * pystr) :=
  foldl (fun m '(idx, player, squad) => <[idx := (player, squad)]> m) ∅ rows.

(** Lines 277-286 of [MarketValueApp.run], from the rows to process to
    the end of the backfill, on a run that is not interrupted: the
    outcome, the table and the list of results. *)
Definition run_passes (columns_to_fill : gset pystr) (start_row : Z) (enable_backfill : bool)
    (events : list queue_event) (retry_worlds backfill_worlds : nat -> World)
    (df : DataFrame) : option (result unit * DataFrame * list (gmap pystr value)) :=
  let rows := iter_rows_from df start_row in
  let row_lookup := row_lookup_of rows in
  match _run_parallel columns_to_fill rows events df with
  | None => None
  | Some (Raise e, df) => Some (Raise e, df, [])
  | Some (Ok (results, processed_idxs, interrupted), df) =>
      let missing_idxs :=
        if (interrupted : bool) then []
        else merge_sort Nat.le (elements (dom row_lookup ∖ processed_idxs)) in
      match _retry_missing retry_worlds row_lookup columns_to_fill missing_idxs df results with
      | None => None
      | Some (Raise e, df, results) => Some (Raise e, df, results)
      | Some (Ok _, df, results) =>
          let '(outcome, df, _) := _run_backfill enable_backfill start_row backfill_worlds df in
          Some (outcome, df, results)
      end
  end.

End Passes.

(** What stands behind a score of [score_squad] for the label it
    returns: the test of the loop that gave the score. *)
Definition squad_score_reason {U : UnicodeDB} (q : pystr) (score : Z) (club : pystr)
    : Prop :=
  let c := normalize_club_name club in
  (score = 3%Z /\ q = c)
  \/ (score = 2%Z /\ contains q c || contains c q = true)
  \/ (score = 1%Z
      /\ (list_to_set (split q) : gset pystr) ∩ list_to_set (split c) ≠ ∅).

(** A float that is not a negative number. *)
Definition float_unsigned (x : float) : Prop :=
  match x with
  | S754_finite true _ _ => False
  | _ => True
  end.

(** The row indices of the result items among the events of the main
    thread, in the order of their arrival. *)
Definition event_idxs (events : list queue_event) : list nat :=
  omap (fun ev => match ev with Item (Some idx, _, _) => Some idx | _ => None end) events.

(** An event as the workers of a run produce it for the jobs [jobs]: a
    result item carries the index of a job and a row whose status is a
    text; the end-of-worker items carry no index. *)
Definition event_of_worker (jobs : gset nat) (ev : queue_event) : Prop :=
  match ev with
  | Item (Some idx, Some row_out, _) =>
      idx ∈ jobs /\ exists status, row_out !! lit "Status" = Some (VStr status)
  | Item (Some _, None, _) => False
  | _ => True
  end.

(** ** Sample data for the passes *)

(** The allowed columns of a run that fills the value and the status. *)
Definition value_columns : gset pystr :=
  list_to_set [lit "Market Value (raw)"; lit "Market Value (int)"; lit "Status"].

(** The fetched fields under another spelling of the player's name. *)
Definition renamed_fields : gmap pystr value :=
  <[lit "Player" := VStr (lit "Leo Messi")]> fetched_fields.

(** The one job of the stored table, and the lookup table of [run] for it. *)
Definition stored_jobs : list (nat * pystr * pystr) :=
  [(0%nat, lit "Lionel Messi", lit "Inter Miami")].


(** What it finds when the worker ended without a result. *)
Definition undelivered_events : list queue_event :=
  [NoItem false; Item (None, None, lit "worker_done:1"); NoItem true].

(** A client whose browser runs. *)
Definition started_client : Client :=
  {| driver := true; cookies_accepted := true; searches := [] |}.

(** * Properties *)

(** ** Strings *)

(** Two different literals of the source are different texts. *)
Ltac lit_neq :=
  let H := fresh in intros H; vm_compute in H; discriminate H.

Lemma lstrip_no_space (s : pystr) :
  match s with [] => True | c :: _ => isspace c = false end -> lstrip s = s.
Proof. destruct s as [|c s]; simpl; [done|]. by intros ->. Qed.

Lemma strip_no_space (s : pystr) :
  Forall (fun c => isspace c = false) s -> strip s = s.
Proof.
  intros Hs. unfold strip, rstrip.
  rewrite (lstrip_no_space s) by (destruct Hs; done).
  rewrite lstrip_no_space; [apply reverse_involutive|].
  apply Forall_reverse in Hs. by destruct Hs.
Qed.

Lemma startswith_head_absent (c : N) (old s : pystr) :
  c ∉ s -> startswith s (c :: old) = false.
Proof.
  destruct s as [|x s]; simpl; [done|]. intros Hc.
  destruct (N.eqb_spec c x) as [->|]; [|done].
  exfalso. apply Hc. by left.
Qed.

(** A pattern whose first character does not occur is never replaced. *)
Lemma replace_absent (c : N) (old new s : pystr) :
  c ∉ s -> replace (c :: old) new s = s.
Proof.
  unfold replace. induction s as [|x s IH]; intros Hc; [done|].
  cbn [replace_from]. rewrite startswith_head_absent by done.
  f_equal. apply IH. intros ?. apply Hc. by right.
Qed.

(** Replacing one character by one character is a map. *)
Lemma replace_char (c d : N) (s : pystr) :
  replace [c] [d] s = map (fun x => if c =? x then d else x) s.
Proof.
  unfold replace. induction s as [|x s IH]; [done|].
  cbn [replace_from startswith length pred map].
  destruct (c =? x); simpl; by rewrite IH.
Qed.

Lemma replace_char_absent (c d : N) (s : pystr) :
  c ∉ s -> map (fun x => if c =? x then d else x) s = s.
Proof.
  induction s as [|x s IH]; [done|]. intros Hc.
  apply not_elem_of_cons in Hc as [Hx Hs]. cbn [map].
  destruct (N.eqb_spec c x); [done|]. by rewrite IH.
Qed.

Lemma take_while_app_stop (p : N -> bool) (a : pystr) (c : N) (b : pystr) :
  forallb p a = true -> p c = false -> take_while p (a ++ c :: b) = a.
Proof.
  intros Ha Hc. induction a as [|x a IH]; simpl in *; [by rewrite Hc|].
  apply andb_prop in Ha as [-> Ha]. by rewrite IH.
Qed.

Lemma drop_while_app_stop (p : N -> bool) (a : pystr) (c : N) (b : pystr) :
  forallb p a = true -> p c = false -> drop_while p (a ++ c :: b) = c :: b.
Proof.
  intros Ha Hc. induction a as [|x a IH]; simpl in *; [by rewrite Hc|].
  apply andb_prop in Ha as [-> Ha]. by rewrite IH.
Qed.

Lemma take_while_all (p : N -> bool) (a : pystr) :
  forallb p a = true -> take_while p a = a.
Proof.
  induction a as [|x a IH]; simpl; [done|].
  intros [-> Ha]%andb_prop. by rewrite IH.
Qed.

Lemma drop_while_all (p : N -> bool) (a : pystr) :
  forallb p a = true -> drop_while p a = [].
Proof.
  induction a as [|x a IH]; simpl; [done|].
  intros [-> Ha]%andb_prop. by rewrite IH.
Qed.

(** ** Identity scorer *)

Section ScorerProperties.
Context {U : UnicodeDB}.

(** C3, as amended. For every non-empty string [x] (white space only
    included), [score_name x x] is the maximal score 3: both arguments
    normalize to the same text. The empty string is excluded by the
    guard on the candidate name. *)
Theorem score_name_self (x : pystr) :
  x ≠ [] -> score_name x x = 3%Z.
Proof.
  intros Hx. unfold score_name.
  rewrite bool_decide_eq_false_2 by done.
  by rewrite bool_decide_eq_true_2.
Qed.

Lemma contains_nil (s : pystr) : contains [] s = true.
Proof. by destruct s. Qed.

(** Once the score is 2 and the query normalizes to the empty text, no
    later label changes the outcome. *)
Lemma score_squad_loop_settled (row_clubs : list pystr) (club : pystr) :
  score_squad_loop [] row_clubs 2 club = (2%Z, club).
Proof.
  induction row_clubs as [|c rest IH]; [done|].
  cbn [score_squad_loop]. case_bool_decide as Hc; [done|].
  rewrite bool_decide_eq_false_2 by done.
  by rewrite contains_nil.
Qed.

Lemma score_squad_loop_blank_query (pre : list pystr) (club : pystr)
    (post : list pystr) (first : pystr) :
  Forall (fun l => normalize_club_name l = []) pre ->
  normalize_club_name club ≠ [] ->
  score_squad_loop [] (pre ++ club :: post) 0 first = (2%Z, club).
Proof.
  intros Hpre Hclub. induction Hpre as [|l pre Hl _ IH].
  - cbn [app score_squad_loop].
    rewrite bool_decide_eq_false_2 by done.
    rewrite bool_decide_eq_false_2 by done.
    rewrite contains_nil. cbn. apply score_squad_loop_settled.
  - cbn [app score_squad_loop]. by rewrite bool_decide_eq_true_2.
Qed.

(** C10. When the query is not the empty string but normalizes to it
    (white space only, say), and [club] is the first label that is
    non-empty after normalization, [score_squad] returns score 2 with
    that label: the empty text is contained in every label. *)
Theorem score_squad_blank_query (query_squad : pystr) (pre : list pystr)
    (club : pystr) (post : list pystr) :
  query_squad ≠ [] ->
  normalize_club_name query_squad = [] ->
  Forall (fun l => normalize_club_name l = []) pre ->
  normalize_club_name club ≠ [] ->
  score_squad query_squad (pre ++ club :: post) = (2%Z, club).
Proof.
  intros Hq Hn Hpre Hclub. unfold score_squad.
  rewrite bool_decide_eq_false_2 by done. rewrite Hn.
  by apply score_squad_loop_blank_query.
Qed.

End ScorerProperties.

(** ** Value parser *)

Lemma digit_range (c : N) : is_ascii_digit c = true <-> 48 <= c <= 57.
Proof.
  unfold is_ascii_digit. rewrite andb_true_iff, !N.leb_le. tauto.
Qed.

(** No character from the comma to the digit nine is white space. *)
Lemma numeral_char_not_space (c : N) : 44 <= c <= 57 -> isspace c = false.
Proof.
  intros Hc. unfold isspace.
  rewrite !orb_false_iff, !andb_false_iff, !N.leb_gt, !N.eqb_neq. lia.
Qed.

Lemma digit_lower (c : N) : c < 65 -> ascii_lower_char c = c.
Proof.
  intros Hc. unfold ascii_lower_char.
  destruct (N.leb_spec 65 c); [lia|done].
Qed.

(** The shape [<digits>,<digits>]: every character is a digit or the
    comma, hence below the letters. *)
Lemma numeral_chars (a b : pystr) (sep : N) :
  forallb is_ascii_digit a = true -> forallb is_ascii_digit b = true ->
  44 <= sep <= 57 ->
  Forall (fun c => 44 <= c <= 57) (a ++ sep :: b).
Proof.
  intros Ha Hb Hsep. apply Forall_app. split; [|constructor; [done|]].
  - apply Forall_forall. intros c Hc%list_elem_of_In.
    eapply forallb_forall in Ha; [|done]. apply digit_range in Ha. lia.
  - apply Forall_forall. intros c Hc%list_elem_of_In.
    eapply forallb_forall in Hb; [|done]. apply digit_range in Hb. lia.
Qed.

Lemma char_absent (c : N) (s : pystr) :
  Forall (fun x => 44 <= x <= 57) s -> ~ 44 <= c <= 57 -> c ∉ s.
Proof.
  intros Hs Hc Hin. eapply Forall_forall in Hs; [|done]. lia.
Qed.

Lemma re_match_value_numeral (a b : pystr) (sep : N) :
  a ≠ [] -> b ≠ [] ->
  forallb is_ascii_digit a = true -> forallb is_ascii_digit b = true ->
  sep = 46 \/ sep = 44 ->
  re_match_value (a ++ sep :: b) = Some (a ++ sep :: b, None).
Proof.
  intros Ha Hb Da Db Hsep. unfold re_match_value.
  assert (is_ascii_digit sep = false) as Hnd by (by destruct Hsep as [-> | ->]).
  rewrite take_while_app_stop, drop_while_app_stop by done.
  destruct a as [|x a]; [done|].
  replace ((sep =? 46) || (sep =? 44)) with true by (by destruct Hsep as [-> | ->]).
  rewrite take_while_all, drop_while_all by done.
  by destruct b.
Qed.

Lemma py_float_numeral (a b : pystr) :
  a ≠ [] -> b ≠ [] ->
  forallb is_ascii_digit a = true -> forallb is_ascii_digit b = true ->
  py_float (a ++ 46 :: b) =
    Ok match digits_value (a ++ b), (10 ^ Z.of_nat (length b))%Z with
       | Zpos n, Zpos d => float_of_ratio n d
       | _, _ => S754_zero false
       end.
Proof.
  intros Ha Hb Da Db. unfold py_float.
  rewrite take_while_app_stop, drop_while_app_stop by done.
  cbn [N.eqb Pos.eqb andb]. rewrite Db. cbn [andb].
  rewrite bool_decide_eq_false_2 by done. cbn [negb].
  destruct a as [|x a]; [done|].
  by repeat case_match.
Qed.

Section ParserProperties.
Context {U : UnicodeDB}.

Lemma numeral_not_null_like (a b : pystr) (sep : N) :
  a ≠ [] ->
  forallb is_ascii_digit a = true -> forallb is_ascii_digit b = true ->
  44 <= sep <= 57 ->
  bool_decide (str_lower (a ++ sep :: b) ∈ [lit "null"; lit "none"; lit "nan"]) = false.
Proof.
  intros Ha Da Db Hsep.
  pose proof (numeral_chars a b sep Da Db Hsep) as Hs.
  rewrite str_lower_ascii by (eapply Forall_impl; [done|]; intros c Hc; simpl in Hc |- *; lia).
  rewrite (map_ext_Forall _ id), map_id.
  2:{ eapply Forall_impl; [done|]. intros c Hc. simpl in Hc. unfold id. apply digit_lower. lia. }
  apply bool_decide_eq_false_2.
  destruct a as [|x a]; [done|].
  apply Forall_cons_1 in Hs as [Hx _].
  rewrite !elem_of_cons, elem_of_nil.
  intros [H|[H|[H|[]]]]; vm_compute in H; injection H as H _; subst x; lia.
Qed.

(** C9, as amended. On [<digits>,<digits>] (ASCII digits, both runs
    non-empty, no suffix) the parser reads the comma as the decimal
    separator: [float] is applied to [a.b] and yields the binary64 number
    nearest to that decimal, and whenever this number is finite the
    parser returns [int(round(float(a.b)))], the integer nearest to it,
    ties to even. The digits are never glued into one integer. *)
Theorem parse_comma_is_decimal_separator (a b : pystr) :
  a ≠ [] -> b ≠ [] ->
  forallb is_ascii_digit a = true -> forallb is_ascii_digit b = true ->
  let reading :=
    match digits_value (a ++ b), (10 ^ Z.of_nat (length b))%Z with
    | Zpos n, Zpos d => float_of_ratio n d
    | _, _ => S754_zero false
    end in
  py_float (a ++ lit "." ++ b) = Ok reading
  /\ (isfinite reading = true ->
      exists n,
        int_round reading = Ok n
        /\ parse_market_value_to_int (VStr (a ++ lit "," ++ b)) = Ok (Some n)).
Proof.
  intros Ha Hb Da Db reading.
  change (lit ".") with [46]. change (lit ",") with [44]. cbn [app].
  assert (py_float (a ++ 46 :: b) = Ok reading) as Hfloat
    by (by apply py_float_numeral).
  assert (parse_market_value_to_int (VStr (a ++ 44 :: b))
          = (n ← int_round reading; Ok (Some n))) as Hparse.
  { pose proof (numeral_chars a b 44 Da Db ltac:(lia)) as Hs.
    unfold parse_market_value_to_int. cbn [py_str].
    rewrite strip_no_space
      by (eapply Forall_impl; [done|]; apply numeral_char_not_space).
    rewrite bool_decide_eq_false_2 by (by destruct a).
    rewrite numeral_not_null_like by (done || lia). cbn [orb].
    set (s := a ++ 44 :: b) in *.
    rewrite (replace_absent 8364 _ _ s) by (apply (char_absent _ _ Hs); lia).
    rewrite (replace_absent 36 _ _ s) by (apply (char_absent _ _ Hs); lia).
    rewrite (replace_absent 163 _ _ s) by (apply (char_absent _ _ Hs); lia).
    rewrite (replace_absent 226 _ _ s) by (apply (char_absent _ _ Hs); lia).
    rewrite (replace_absent 194 _ _ s) by (apply (char_absent _ _ Hs); lia).
    rewrite replace_char.
    rewrite (map_ext_Forall _ id), map_id.
    2:{ eapply Forall_impl; [done|]. intros c Hc. simpl in Hc.
        destruct (N.eqb_spec 160 c); [lia|done]. }
    rewrite strip_no_space
      by (eapply Forall_impl; [done|]; apply numeral_char_not_space).
    rewrite (replace_absent 32 _ _ s) by (apply (char_absent _ _ Hs); lia).
    subst s.
    rewrite re_match_value_numeral by (done || by right).
    rewrite replace_char, map_app. cbn [map].
    change (44 =? 44) with true. cbv iota.
    rewrite !replace_char_absent.
    2,3: intros Hc%list_elem_of_In; eapply forallb_forall in Hc; [|done];
         apply digit_range in Hc; lia.
    by rewrite Hfloat. }
  split; [done|]. intros Hfinite. rewrite Hparse.
  destruct reading as [s|s| |s m e]; try discriminate Hfinite; cbn; by eexists.
Qed.

End ParserProperties.

(** ** Repository *)

Section RepositoryProperties.
Context {U : UnicodeDB}.

(** The jobs of the loop started at position [k]: membership and order. *)
Lemma iter_rows_loop_spec (start_row : Z) (rows : list (gmap pystr value)) (k : nat) :
  (forall idx player squad,
     (idx, player, squad) ∈ iter_rows_loop start_row k rows <->
     exists i row,
       idx = (k + i)%nat /\ rows !! i = Some row
       /\ (start_row <= Z.of_nat idx + 1)%Z
       /\ player = py_str (default (VStr []) (row !! lit "Player"))
       /\ squad = py_str (default (VStr []) (row !! lit "Squad"))
       /\ player ≠ [] /\ str_lower player ≠ lit "nan")
  /\ StronglySorted lt ((fun j => j.1.1) <$> iter_rows_loop start_row k rows)
  /\ Forall (fun j => (k <= j.1.1)%nat) (iter_rows_loop start_row k rows).
Proof.
  revert k. induction rows as [|row rest IH]; intros k.
  { cbn. split; [|split; constructor].
    intros idx player squad. split; [by intros ?%elem_of_nil|].
    by intros (i & r & _ & ? & _). }
  destruct (IH (S k)) as (IHmem & IHsorted & IHlow).
  assert (forall idx player squad,
    (exists i row0, idx = (k + i)%nat /\ (row :: rest) !! i = Some row0
       /\ (start_row <= Z.of_nat idx + 1)%Z
       /\ player = py_str (default (VStr []) (row0 !! lit "Player"))
       /\ squad = py_str (default (VStr []) (row0 !! lit "Squad"))
       /\ player ≠ [] /\ str_lower player ≠ lit "nan")
    <->
    (idx = k /\ (start_row <= Z.of_nat k + 1)%Z
       /\ player = py_str (default (VStr []) (row !! lit "Player"))
       /\ squad = py_str (default (VStr []) (row !! lit "Squad"))
       /\ player ≠ [] /\ str_lower player ≠ lit "nan")
    \/ (idx, player, squad) ∈ iter_rows_loop start_row (S k) rest) as Hsplit.
  { intros idx player squad. rewrite IHmem. split.
    - intros ([|i] & r & -> & Hr & Hrest).
      + left. injection Hr as <-. by rewrite Nat.add_0_r in *.
      + right. exists i, r. split; [lia|]. split; [done|].
        by replace (S k + i)%nat with (k + S i)%nat by lia.
    - intros [(-> & Hrest) | (i & r & -> & Hr & Hrest)].
      + exists 0%nat, row. by rewrite Nat.add_0_r.
      + exists (S i), r. split; [lia|]. split; [done|].
        by replace (k + S i)%nat with (S k + i)%nat by lia. }
  assert (Forall (fun j => (k <= j.1.1)%nat) (iter_rows_loop start_row (S k) rest))
    as IHlow' by (eapply Forall_impl; [done|]; intros j Hj; simpl in *; lia).
  cbn [iter_rows_loop].
  destruct (Z.ltb_spec (Z.of_nat k + 1) start_row) as [Hlt|Hge].
  { split; [|done]. intros idx player squad. rewrite Hsplit.
    split; [by right|]. intros [(_ & ? & _)|?]; [lia|done]. }
  set (player0 := py_str (default (VStr []) (row !! lit "Player"))).
  set (squad0 := py_str (default (VStr []) (row !! lit "Squad"))).
  destruct (bool_decide (player0 = []) || bool_decide (str_lower player0 = lit "nan"))
    eqn:Hskip.
  { split; [|done]. intros idx player squad. rewrite Hsplit.
    split; [by right|]. intros [(_ & _ & -> & _ & Hne & Hnan)|?]; [|done].
    apply orb_true_iff in Hskip as [?%bool_decide_eq_true|?%bool_decide_eq_true]; done. }
  apply orb_false_iff in Hskip as [Hne%bool_decide_eq_false Hnan%bool_decide_eq_false].
  split; [|split].
  - intros idx player squad. rewrite Hsplit, elem_of_cons. split.
    + intros [[= -> -> ->]|?]; [left|right]; done.
    + intros [(-> & _ & -> & -> & _)|?]; [left|right]; done.
  - cbn [fmap list_fmap]. constructor; [done|].
    apply Forall_fmap. eapply Forall_impl; [exact IHlow|].
    intros j Hj. simpl in *. lia.
  - constructor; [simpl; lia|done].
Qed.

(** X28. What [iter_rows_from] returns: in row order and once each, the rows
    at 1-based positions [>= start_row] whose name, as text, is not empty
    and is not [nan] in any letter case. Nothing is trimmed, and [is_blank]
    is not consulted. *)
Theorem iter_rows_from_spec (df : DataFrame) (start_row : Z) :
  (forall idx player squad,
     (idx, player, squad) ∈ iter_rows_from df start_row <->
     exists row,
       df_rows df !! idx = Some row
       /\ (start_row <= Z.of_nat idx + 1)%Z
       /\ player = py_str (default (VStr []) (row !! lit "Player"))
       /\ squad = py_str (default (VStr []) (row !! lit "Squad"))
       /\ player ≠ [] /\ str_lower player ≠ lit "nan")
  /\ StronglySorted lt ((fun j => j.1.1) <$> iter_rows_from df start_row).
Proof.
  unfold iter_rows_from.
  destruct (iter_rows_loop_spec start_row (df_rows df) 0) as (Hmem & Hsorted & _).
  split; [|done]. intros idx player squad. rewrite Hmem. split.
  - intros (i & row & -> & Hrow & Hrest). by exists row.
  - intros (row & Hrow & Hrest). by exists idx, row.
Qed.

End RepositoryProperties.

Section MergeProperties.
Context {U : UnicodeDB}.

(** What the fill loop leaves at a label: the fetched value when the
    label is forced, fetched and blank so far; the previous content
    otherwise. *)
Lemma fill_missing_lookup (fetched_row : gmap pystr value) (force_columns : list pystr)
    (current : gmap pystr value) (col : pystr) :
  fill_missing fetched_row force_columns current !! col =
    if bool_decide (col ∈ force_columns)
       && bool_decide (is_Some (fetched_row !! col))
       && is_blank (dict_get current col)
    then Some (dict_get fetched_row col)
    else current !! col.
Proof.
  unfold fill_missing. revert current.
  induction force_columns as [|c cols IH]; intros current; [done|].
  cbn [foldl]. rewrite IH. clear IH.
  destruct (decide (c = col)) as [->|Hne].
  - rewrite (bool_decide_eq_true_2 (col ∈ col :: cols)) by left. cbn [andb].
    destruct (bool_decide (is_Some (fetched_row !! col))) eqn:Hf; cbn [andb].
    2:{ by rewrite andb_false_r. }
    destruct (is_blank (dict_get current col)) eqn:Hb.
    + unfold dict_get at 1 3. rewrite lookup_insert_eq. cbn [default].
      by destruct (_ && _).
    + rewrite Hb. by rewrite andb_false_r.
  - assert (forall m : gmap pystr value,
              dict_get (<[c := dict_get fetched_row c]> m) col = dict_get m col) as Hget
      by (intros m; unfold dict_get; by rewrite lookup_insert_ne).
    rewrite (bool_decide_ext (col ∈ c :: cols) (col ∈ cols)).
    2:{ rewrite elem_of_cons. split; [intros [?|?]; [congruence|done] | by right]. }
    destruct (_ && is_blank (dict_get current c)).
    + rewrite Hget. by rewrite lookup_insert_ne.
    + done.
Qed.

(** A populated cell survives the fill loop. *)
Lemma fill_missing_keeps (fetched_row : gmap pystr value) (force_columns : list pystr)
    (current : gmap pystr value) (col : pystr) (v : value) :
  current !! col = Some v -> is_blank v = false ->
  fill_missing fetched_row force_columns current !! col = Some v.
Proof.
  intros Hv Hb. rewrite fill_missing_lookup.
  unfold dict_get at 1. rewrite Hv. cbn [default from_option id]. rewrite Hb.
  by rewrite andb_false_r.
Qed.

Lemma refresh_status_other (current : gmap pystr value) (col : pystr) :
  col ≠ lit "Status" -> refresh_status current !! col = current !! col.
Proof.
  intros Hne. unfold refresh_status.
  repeat case_match; by rewrite ?lookup_insert_ne.
Qed.

Lemma refresh_status_status (current : gmap pystr value) :
  refresh_status current !! lit "Status" =
    if negb (is_blank (dict_get current (lit "Market Value (raw)")))
    then Some (VStr (lit "ok"))
    else if negb (is_blank (dict_get current (lit "Transfermarkt URL")))
    then Some (VStr (lit "value_not_found"))
    else current !! lit "Status".
Proof.
  unfold refresh_status. repeat case_match; by rewrite ?lookup_insert_eq.
Qed.

(** The write-back copies the labels that are columns and leaves the
    rest of the row alone. *)
Lemma write_back_lookup (columns : list pystr) (current row : gmap pystr value)
    (col : pystr) :
  write_back columns current row !! col =
    if bool_decide (col ∈ columns)
    then match current !! col with Some v => Some v | None => row !! col end
    else row !! col.
Proof.
  unfold write_back. rewrite map_fold_foldr.
  rewrite <- (list_to_map_to_list current) at 2.
  induction (map_to_list current) as [|[k v] l IH]; cbn [foldr uncurry list_to_map].
  { rewrite lookup_empty. by case_bool_decide. }
  destruct (decide (k = col)) as [->|Hne].
  - case_bool_decide; cbn [fst snd]; [by rewrite !lookup_insert_eq|done].
  - cbn [fst snd]. rewrite (lookup_insert_ne (list_to_map l)) by done.
    destruct (bool_decide (k ∈ columns)); [|done].
    by rewrite lookup_insert_ne.
Qed.

(** C1, as amended. After a call of [merge_missing_fields] that
    returns, every cell of the row that was populated (non-blank) and is
    not the Status cell holds the value it held before, forced or not.
    The Status cell is recomputed: in a table that has the Status, raw
    value and URL columns it ends as [ok] when the raw value cell is
    non-blank after the call, as [value_not_found] when that cell is
    blank and the URL cell is not, and keeps a populated value only when
    both are blank. *)
Theorem merge_missing_fields_frame (df : DataFrame) (idx : nat)
    (fetched_row : gmap pystr value) (force_columns : gset pystr) (df' : DataFrame) :
  merge_missing_fields df idx fetched_row force_columns = Ok df' ->
  (forall col v,
     col ≠ lit "Status" ->
     cell df idx col = Some v -> is_blank v = false ->
     cell df' idx col = Some v)
  /\ (forall v,
        lit "Status" ∈ df_columns df ->
        lit "Market Value (raw)" ∈ df_columns df ->
        lit "Transfermarkt URL" ∈ df_columns df ->
        cell df idx (lit "Status") = Some v -> is_blank v = false ->
        cell df' idx (lit "Status") =
          Some (if negb (is_blank (default VNone (cell df' idx (lit "Market Value (raw)"))))
                then VStr (lit "ok")
                else if negb (is_blank (default VNone (cell df' idx (lit "Transfermarkt URL"))))
                then VStr (lit "value_not_found")
                else v)).
Proof.
  unfold merge_missing_fields, cell.
  destruct (df_rows df !! idx) as [row|] eqn:Hrow; [|done].
  intros [= <-]. cbn [df_rows df_columns].
  rewrite list_lookup_insert_eq by (by eapply lookup_lt_Some).
  cbn [mbind option_bind].
  set (filled := fill_missing fetched_row (elements force_columns) row).
  split.
  - intros col v Hcol Hv Hb.
    rewrite write_back_lookup, refresh_status_other by done.
    unfold filled. rewrite (fill_missing_keeps _ _ _ _ v) by done.
    by case_bool_decide.
  - intros v HS HR HU Hv Hb.
    rewrite !write_back_lookup.
    rewrite !bool_decide_eq_true_2 by done.
    rewrite (refresh_status_other _ (lit "Market Value (raw)")) by lit_neq.
    rewrite (refresh_status_other _ (lit "Transfermarkt URL")) by lit_neq.
    rewrite refresh_status_status.
    assert (forall c, default VNone
              match filled !! c with Some x => Some x | None => row !! c end
            = dict_get filled c) as Hget.
    { intros c. unfold dict_get. destruct (filled !! c) eqn:Hc; [done|].
      unfold filled in Hc. rewrite fill_missing_lookup in Hc.
      destruct (_ && _); [done|]. by rewrite Hc. }
    rewrite !Hget.
    unfold filled at 3. rewrite (fill_missing_keeps _ _ _ _ v) by done.
    by repeat case_match.
Qed.

End MergeProperties.

(** ** Candidate selection *)

Lemma key_gt_spec (a b : candidate) : key_gt a b = true <-> lex_lt (key b) (key a).
Proof.
  unfold key_gt, lex_lt, key. cbn [fst snd].
  rewrite !orb_true_iff, !andb_true_iff, !orb_true_iff, !andb_true_iff.
  rewrite !Z.ltb_lt, !Z.eqb_eq. lia.
Qed.

Lemma lex_lt_irrefl (x : Z * Z * Z) : ~ lex_lt x x.
Proof. unfold lex_lt. lia. Qed.

(** Below-or-equal followed by strictly-below is strictly-below. *)
Lemma lex_le_lt_trans (x y z : Z * Z * Z) :
  ~ lex_lt y x -> lex_lt y z -> lex_lt x z.
Proof. unfold lex_lt. lia. Qed.

(** A key above the greatest so far is not below any key seen. *)
Lemma lex_lt_above (b x c : Z * Z * Z) :
  lex_lt b x -> ~ lex_lt b c -> ~ lex_lt x c.
Proof. unfold lex_lt. lia. Qed.

(** The loop [if best is None or candidate[:3] > best[:3]: best = candidate]
    ends on the first maximum of the candidates it has seen. *)
Lemma foldl_keep_best (l : list candidate) :
  match foldl keep_best None l with
  | None => l = []
  | Some c => first_maximum l c
  end.
Proof.
  induction l as [|x l IH] using rev_ind; [done|].
  rewrite foldl_snoc. destruct (foldl keep_best None l) as [b|]; cbn [keep_best].
  - destruct IH as (i & Hi & Hmax & Hfirst).
    destruct (key_gt x b) eqn:Hgt.
    + apply key_gt_spec in Hgt. exists (length l). split; [|split].
      * by rewrite lookup_app_r, Nat.sub_diag by lia.
      * intros j c' Hj. apply lookup_app_Some in Hj as [Hj|[_ Hj]].
        -- eapply lex_lt_above; [exact Hgt|]. by eapply Hmax.
        -- apply list_lookup_singleton_Some in Hj as [_ <-]. apply lex_lt_irrefl.
      * intros j c' Hlt Hj. rewrite lookup_app_l in Hj by done.
        eapply lex_le_lt_trans; [|exact Hgt]. by eapply Hmax.
    + exists i. split; [|split].
      * rewrite lookup_app_l; [done|]. by eapply lookup_lt_Some.
      * intros j c' Hj. apply lookup_app_Some in Hj as [Hj|[_ Hj]].
        -- by eapply Hmax.
        -- apply list_lookup_singleton_Some in Hj as [_ <-].
           rewrite <- key_gt_spec. by rewrite Hgt.
      * intros j c' Hlt Hj. apply (Hfirst j c' Hlt).
        rewrite lookup_app_l in Hj; [done|].
        apply lookup_lt_Some in Hi. lia.
  - subst l. exists 0%nat. split; [done|]. split.
    + intros [|j] c' Hj; [|done]. injection Hj as <-. apply lex_lt_irrefl.
    + intros j c' Hlt. lia.
Qed.

Section SelectionProperties.
Context {U : UnicodeDB}.

Lemma score_name_range (query_name row_name : pystr) :
  (0 <= score_name query_name row_name <= 3)%Z.
Proof. unfold score_name. repeat case_match; lia. Qed.

Lemma make_candidate_fields (squad : pystr) (score : Z) (link : pystr)
    (club_candidates : list pystr) (raw : pystr) :
  let c := make_candidate squad score link club_candidates raw in
  name_score c = score
  /\ squad_score c = (score_squad squad club_candidates).1
  /\ best_club c = (score_squad squad club_candidates).2
  /\ href c = link /\ mv_raw c = raw
  /\ composite c = (name_score c * 10 + squad_score c * 4
                    + (if bool_decide (mv_raw c = []) then 0 else 1))%Z.
Proof. unfold make_candidate. by destruct (score_squad _ _). Qed.

(** A step of either loop amounts to: drop the candidate when its name
    score is 0, else compare it with the best so far. *)
Lemma keep_scored (best : option candidate) (squad : pystr) (q r : pystr)
    (link : pystr) (club_candidates : list pystr) (raw : pystr) :
  (if (score_name q r =? 0)%Z then best
   else keep_best best (make_candidate squad (score_name q r) link club_candidates raw))
  = foldl keep_best best
      (filter (fun c => (0 < name_score c)%Z)
         [make_candidate squad (score_name q r) link club_candidates raw]).
Proof.
  pose proof (score_name_range q r) as Hr.
  pose proof (make_candidate_fields squad (score_name q r) link club_candidates raw)
    as (Hn & _).
  rewrite filter_cons, filter_nil. rewrite Hn.
  destruct (Z.eqb_spec (score_name q r) 0) as [->|Hne].
  - by rewrite decide_False by lia.
  - by rewrite decide_True by lia.
Qed.

Lemma http_candidates_cons (player_name squad : pystr) (row : http_row)
    (rest : list http_row) :
  http_candidates player_name squad (row :: rest) =
    match hr_player row with
    | None => http_candidates player_name squad rest
    | Some (link, row_player) =>
        [make_candidate squad (score_name player_name row_player)
           (http_href link) (http_clubs row) (http_raw row)]
        ++ http_candidates player_name squad rest
    end.
Proof.
  unfold http_candidates. cbn [omap list_omap].
  by destruct (hr_player row) as [[link row_player]|].
Qed.

Lemma http_loop_candidates (player_name squad : pystr) (rows_html : list http_row)
    (best : option candidate) :
  foldl (http_step player_name squad) best rows_html
  = foldl keep_best best
      (filter (fun c => (0 < name_score c)%Z)
         (http_candidates player_name squad rows_html)).
Proof.
  revert best. induction rows_html as [|row rest IH]; intros best; [done|].
  cbn [foldl]. rewrite IH, http_candidates_cons. unfold http_step.
  destruct (hr_player row) as [[link row_player]|]; [|done].
  by rewrite keep_scored, filter_app, foldl_app.
Qed.

Lemma browser_loop_candidates (player_name squad : pystr) (links : list browser_link)
    (best : option candidate) (seen_rows : gset N) :
  (foldl (browser_step player_name squad) (best, seen_rows) links).1
  = foldl keep_best best
      (filter (fun c => (0 < name_score c)%Z)
         (browser_candidates player_name squad seen_rows links)).
Proof.
  revert best seen_rows.
  induction links as [|link rest IH]; intros best seen_rows; [done|].
  cbn [foldl browser_candidates]. unfold browser_step at 2.
  destruct (bl_href link) as [[|ch link_href]|]; [by rewrite IH..| |by rewrite IH].
  destruct (bl_row link) as [row|]; [|by rewrite IH].
  case_bool_decide; [by rewrite IH|].
  cbv zeta.
  change (?x :: browser_candidates ?p ?s ?seen rest)
    with ([x] ++ browser_candidates p s seen rest).
  rewrite filter_app, foldl_app, <- keep_scored.
  destruct (score_name _ _ =? 0)%Z; by rewrite IH.
Qed.

(** C7. In both tiers the candidate that is selected is the first
    maximum, for the lexicographic order on
    [(composite, name_score, squad_score)], of the candidates whose name
    score is positive; candidates with name score 0 take no part, an
    equal key never displaces the candidate met first, and nothing is
    selected exactly when no candidate has a positive name score. The
    composite of a candidate is
    [name_score * 10 + squad_score * 4 + (1 if the raw value text is non-empty else 0)],
    with the scores of the identity scorer. *)
Theorem candidate_selection (player_name squad : pystr) :
  (forall rows_html,
     let survivors :=
       filter (fun c => (0 < name_score c)%Z)
              (http_candidates player_name squad rows_html) in
     match http_select player_name squad rows_html with
     | None => survivors = []
     | Some r =>
         exists c, first_maximum survivors c /\ r = (href c, best_club c, mv_raw c)
     end)
  /\ (forall links,
        let survivors :=
          filter (fun c => (0 < name_score c)%Z)
                 (browser_candidates player_name squad ∅ links) in
        match browser_select player_name squad links with
        | None => survivors = []
        | Some r =>
            exists c, first_maximum survivors c /\ r = (href c, best_club c, mv_raw c)
        end)
  /\ (forall score link club_candidates raw,
        let c := make_candidate squad score link club_candidates raw in
        name_score c = score
        /\ squad_score c = (score_squad squad club_candidates).1
        /\ composite c = (score * 10 + (score_squad squad club_candidates).1 * 4
                          + (if bool_decide (raw = []) then 0 else 1))%Z).
Proof.
  split; [|split].
  - intros rows_html survivors. unfold http_select.
    rewrite http_loop_candidates. fold survivors.
    pose proof (foldl_keep_best survivors) as H.
    destruct (foldl keep_best None survivors) as [c|]; [|done]. by exists c.
  - intros links survivors. unfold browser_select.
    rewrite browser_loop_candidates. fold survivors.
    pose proof (foldl_keep_best survivors) as H.
    destruct (foldl keep_best None survivors) as [c|]; [|done]. by exists c.
  - intros score link club_candidates raw c.
    destruct (make_candidate_fields squad score link club_candidates raw)
      as (Hn & Hs & _ & _ & Hr & Hc).
    fold c in Hn, Hs, Hr, Hc. rewrite Hc, Hn, Hs, Hr. done.
Qed.

End SelectionProperties.

(** ** Resolution client *)

Section ClientProperties.
Context {U : UnicodeDB}.

(** What the fallback search returns does not depend on the client. *)
Lemma _find_best_browser_result (w : World) (player_name squad : pystr) (c c0 : Client) :
  (_find_best_browser w player_name squad c).1
  = (_find_best_browser w player_name squad c0).1.
Proof.
  unfold _find_best_browser.
  destruct (browser_get w player_name); [|done].
  by destruct (browser_links w player_name) as [[|]|].
Qed.

(** The run of lines 282-289, case by case. *)
Lemma select_match_run (w : World) (player_name squad : pystr) (c c' : Client)
    (found : option (pystr * pystr * pystr)) (source : pystr) :
  select_match w player_name squad c = (Ok (found, source), c') ->
  exists fast,
    (_find_best_http w player_name squad c).1 = Ok fast
    /\ searches c' =
         searches c ++ Fast :: (if has_value_text fast then [] else [Fallback])
    /\ ((has_value_text fast = true /\ found = fast /\ source = lit "http")
        \/ (has_value_text fast = false
            /\ exists browser_match,
                 (_find_best_browser w player_name squad c).1 = Ok browser_match
                 /\ match browser_match with
                    | Some _ => found = browser_match /\ source = lit "browser"
                    | None => found = fast /\ source = lit "http"
                    end)).
Proof.
  unfold select_match, exec_bind, exec_ret.
  destruct (_find_best_http w player_name squad c) as [r1 c1] eqn:H1.
  assert (searches c1 = searches c ++ [Fast] /\ exists fast, r1 = Ok fast) as [Hs1 [fast ->]].
  { unfold _find_best_http in H1.
    destruct (http_search w player_name); injection H1 as <- <-; eauto. }
  intros Hrun. exists fast. split; [done|].
  destruct (has_value_text fast) eqn:Hv.
  { injection Hrun as <- <- <-. rewrite Hs1. split; [done|]. by left. }
  destruct (_ensure_browser w c1) as [r2 c2] eqn:H2.
  assert (searches c2 = searches c1) as Hs2.
  { unfold _ensure_browser in H2. destruct (driver c1); [by injection H2 as _ <-|].
    destruct (build_driver w); by injection H2 as _ <-. }
  destruct r2 as [[]|]; [|done].
  rewrite (surjective_pairing (_find_best_browser w player_name squad c2)) in Hrun.
  rewrite (_find_best_browser_result w player_name squad c2 c) in Hrun.
  assert (searches (_find_best_browser w player_name squad c2).2
          = searches c2 ++ [Fallback]) as Hs3.
  { unfold _find_best_browser. destruct (browser_get w player_name); [|done].
    destruct (cookies_accepted _); by destruct (browser_links w player_name) as [[|]|]. }
  destruct (_find_best_browser w player_name squad c).1 as [browser_match|] eqn:H3;
    [|done].
  assert (searches c' = searches c ++ [Fast; Fallback]) as Hs.
  { destruct browser_match; injection Hrun as _ _ <-;
      by rewrite Hs3, Hs2, Hs1, <- app_assoc. }
  split; [done|]. right. split; [done|]. exists browser_match. split; [done|].
  destruct browser_match; by injection Hrun as <- <- _.
Qed.

(** A call that returns has gone through [select_match] and [build_row]. *)
Lemma process_player_run (w : World) (player_name squad : pystr) (c c' : Client)
    (row : gmap pystr value) (source : pystr) :
  process_player w player_name squad c = (Ok (row, source), c') ->
  exists found,
    select_match w player_name squad c = (Ok (found, source), c')
    /\ build_row w player_name squad found = Ok row.
Proof.
  unfold process_player, exec_bind, exec_lift, exec_ret.
  destruct (select_match w player_name squad c) as [[[found src]|] c1]; [|done].
  cbn [fst snd].
  destruct (build_row w player_name squad found) as [r|] eqn:Hrow; [|done].
  intros [= <- <- <-]. by exists found.
Qed.

(** C2, as amended. In a call of [process_player] that returns, the
    fast tier is searched once; the fallback tier is searched exactly
    once when the fast tier selected nothing or selected a candidate
    whose raw value text is blank, and not at all otherwise, whatever
    affiliation labels the candidates carry. The source that is reported
    is the fallback tier exactly when it was searched and selected a
    candidate; it is the fast tier otherwise. *)
Theorem fallback_trigger (w : World) (player_name squad : pystr) (c c' : Client)
    (row : gmap pystr value) (source : pystr) :
  process_player w player_name squad c = (Ok (row, source), c') ->
  exists fast,
    (_find_best_http w player_name squad c).1 = Ok fast
    /\ searches c' =
         searches c ++ Fast :: (if has_value_text fast then [] else [Fallback])
    /\ (source = lit "browser" <->
        has_value_text fast = false
        /\ exists m, (_find_best_browser w player_name squad c).1 = Ok (Some m))
    /\ (source = lit "browser" \/ source = lit "http").
Proof.
  intros (found & Hsel & _)%process_player_run.
  apply select_match_run in Hsel as (fast & Hfast & Hs & Hcases).
  exists fast. split; [done|]. split; [done|].
  destruct Hcases as [(Hv & _ & ->) | (Hv & bm & Hb & Hbm)].
  - split; [|by right]. split; [lit_neq|]. intros [? _]. congruence.
  - destruct bm as [m|].
    + destruct Hbm as [_ ->]. split; [|by left]. split; [|done]. eauto.
    + destruct Hbm as [_ ->]. split; [|by right].
      split; [lit_neq|]. intros [_ [m Hm]]. congruence.
Qed.

End ClientProperties.

(** Open the existentials and conjunctions of the context and let the
    equations between constructors speak. *)
Ltac unpack_eqs :=
  intros;
  repeat match goal with
         | H : exists _, _ |- _ => destruct H
         | H : _ /\ _ |- _ => destruct H
         end;
  simplify_eq; eauto.

Section StatusProperties.
Context {U : UnicodeDB}.

(** The status, raw value and parsed value cells of the row payload. *)
Lemma build_row_fields (w : World) (player_name squad : pystr)
    (found : option (pystr * pystr * pystr)) (row : gmap pystr value) :
  build_row w player_name squad found = Ok row ->
  match found with
  | None =>
      row !! lit "Status" = Some (VStr (lit "not_found"))
      /\ row !! lit "Market Value (raw)" = Some (VStr [])
  | Some (url, club, raw) =>
      row !! lit "Status" =
        Some (VStr (if bool_decide (raw = []) then lit "value_not_found" else lit "ok"))
      /\ row !! lit "Market Value (raw)" = Some (VStr raw)
      /\ (raw ≠ [] ->
          exists parsed,
            parse_market_value_to_int (VStr raw) = Ok parsed
            /\ row !! lit "Market Value (int)" =
                 Some match parsed with Some n => VInt n | None => VStr [] end)
  end.
Proof.
  unfold build_row. destruct found as [[[url club] raw]|].
  - case_bool_decide as Hraw.
    + cbn [mbind result_bind]. intros [= <-]. subst raw. by vm_compute.
    + destruct (parse_market_value_to_int (VStr raw)) as [parsed|];
        cbn [mbind result_bind]; [|done].
      intros [= <-]. split; [by vm_compute|]. split; [by vm_compute|].
      intros _. exists parsed. split; [done|]. by vm_compute.
  - intros [= <-]. by vm_compute.
Qed.

(** C5. The row that [process_player] returns has status [not_found]
    exactly when no candidate is kept by the selection, status
    [value_not_found] exactly when a candidate is kept and its raw value
    text is empty, and status [ok] exactly when the raw value text of the
    kept candidate is non-empty; in that case the parsed value cell holds
    what the value parser returns on that text (the empty cell for an
    absent value). Hence the status is [ok] exactly when the raw value
    cell of the row is non-empty. *)
Theorem process_player_status (w : World) (player_name squad : pystr) (c c' : Client)
    (row : gmap pystr value) (source : pystr) :
  process_player w player_name squad c = (Ok (row, source), c') ->
  exists found,
    select_match w player_name squad c = (Ok (found, source), c')
    /\ (row !! lit "Status" = Some (VStr (lit "not_found")) <-> found = None)
    /\ (row !! lit "Status" = Some (VStr (lit "value_not_found")) <->
        exists url club, found = Some (url, club, []))
    /\ (row !! lit "Status" = Some (VStr (lit "ok")) <->
        exists url club raw, found = Some (url, club, raw) /\ raw ≠ [])
    /\ (forall url club raw,
          found = Some (url, club, raw) -> raw ≠ [] ->
          exists parsed,
            parse_market_value_to_int (VStr raw) = Ok parsed
            /\ row !! lit "Market Value (int)" =
                 Some match parsed with Some n => VInt n | None => VStr [] end)
    /\ (row !! lit "Status" = Some (VStr (lit "ok")) <->
        exists raw, row !! lit "Market Value (raw)" = Some (VStr raw) /\ raw ≠ []).
Proof.
  intros (found & Hsel & Hrow)%process_player_run.
  exists found. split; [done|].
  apply build_row_fields in Hrow.
  destruct found as [[[url club] raw]|].
  - destruct Hrow as (Hst & Hraw & Hint). rewrite Hst, Hraw.
    case_bool_decide as Hempty.
    + subst raw.
      repeat split; try done; try lit_neq; try (by eauto); by unpack_eqs.
    + repeat split; try done; try lit_neq; try (by eauto); by unpack_eqs.
  - destruct Hrow as (Hst & Hraw). rewrite Hst, Hraw.
    repeat split; try done; try lit_neq; by unpack_eqs.
Qed.

End StatusProperties.

(** ** Worker loop *)

Section WorkerProperties.
Context {U : UnicodeDB}.

(** One task always ends in a message for its index; a raised exception
    becomes the error row. *)
Lemma worker_job_message (w : World) (idx : nat) (player squad : pystr)
    (client : Client) :
  exists msg,
    (worker_job w (idx, player, squad) client).1 = Ok msg
    /\ msg.1.1 = Some idx
    /\ (worker_job w (idx, player, squad) client).2
       = (process_player w player squad client).2
    /\ forall exc_type,
         (process_player w player squad client).1 = Raise exc_type ->
         msg = (Some idx,
                Some (error_row player squad (strftime_now w) exc_type),
                lit "error").
Proof.
  unfold worker_job.
  destruct (process_player w player squad client) as [[[row_out source]|exc] client'];
    cbn [fst snd mbind result_bind]; eexists; (split; [done|]);
    (split; [done|]); (split; [done|]); intros e [= <-]; done.
Qed.

(** The loop never ends by an exception, and it appends one message per
    task it took, in order. *)
Lemma worker_while_messages (obs : list observation) (client : Client)
    (results_queue : list message) :
  exists msgs client',
    worker_while obs client results_queue = (Ok tt, client', results_queue ++ msgs)
    /\ (fun m : message => m.1.1) <$> msgs
       = (fun t : nat * pystr * pystr => Some t.1.1) <$> taken_tasks obs.
Proof.
  revert client results_queue.
  induction obs as [|ob rest IH]; intros client results_queue.
  { exists [], client. by rewrite app_nil_r. }
  cbn [worker_while taken_tasks].
  destruct (ob_stop ob); [exists [], client; by rewrite app_nil_r|].
  destruct (ob_task ob) as [[[idx player] squad]|];
    [|exists [], client; by rewrite app_nil_r].
  destruct (worker_job_message (ob_world ob) idx player squad client)
    as (msg & Hjob & Hidx & _).
  destruct (worker_job (ob_world ob) (idx, player, squad) client) as [r client1].
  cbn [fst] in Hjob. subst r.
  destruct (IH client1 (results_queue ++ [msg])) as (msgs & client' & -> & Hmsgs).
  exists (msg :: msgs), client'. split.
  - by rewrite <- app_assoc.
  - cbn [fmap list_fmap]. by rewrite Hidx, <- Hmsgs.
Qed.

(** While every observation delivers a task, the loop goes on with the
    rest, one message further per task. *)
Lemma worker_while_app (pre rest : list observation) (client : Client)
    (results_queue : list message) :
  Forall (fun ob => ob_stop ob = false /\ is_Some (ob_task ob)) pre ->
  worker_while (pre ++ rest) client results_queue
  = worker_while rest (worker_while pre client results_queue).1.2
                      (worker_while pre client results_queue).2
  /\ length (worker_while pre client results_queue).2
     = (length results_queue + length pre)%nat.
Proof.
  intros Hpre. revert client results_queue.
  induction Hpre as [|ob pre [Hstop [task Htask]] _ IH]; intros client results_queue.
  { cbn. by rewrite Nat.add_0_r. }
  cbn [app worker_while length]. rewrite Hstop, Htask.
  destruct task as [[idx player] squad].
  destruct (worker_job_message (ob_world ob) idx player squad client)
    as (msg & Hjob & _).
  destruct (worker_job (ob_world ob) (idx, player, squad) client) as [r client1].
  cbn [fst] in Hjob. subst r.
  destruct (IH client1 (results_queue ++ [msg])) as [-> ->].
  split; [done|]. rewrite length_app. cbn. lia.
Qed.

(** C8. A worker that takes the tasks of [pre], then a task on which
    the resolution client raises an exception of class [exc_type], and
    then goes on with [post]: the call of the worker loop ends normally
    (no exception leaves it); the message put for the failing task, at
    its turn in the result queue, carries the task's index, the source
    [error] and a row whose status is [error:] followed by the name of
    the exception class; and the queue receives one message per task
    taken, in the order taken, before the final [worker_done] message. *)
Theorem worker_error_containment (worker_id : Z) (pre : list observation)
    (ob : observation) (post : list observation) (results_queue : list message)
    (idx : nat) (player squad exc_type : pystr) :
  Forall (fun o => ob_stop o = false /\ is_Some (ob_task o)) pre ->
  ob_stop ob = false ->
  ob_task ob = Some (idx, player, squad) ->
  let fresh := {| driver := false; cookies_accepted := false; searches := [] |} in
  let client := (worker_while pre fresh results_queue).1.2 in
  (process_player (ob_world ob) player squad client).1 = Raise exc_type ->
  let run := _worker_loop worker_id (pre ++ ob :: post) results_queue in
  run.1 = Ok tt
  /\ run.2 !! (length results_queue + length pre)%nat
     = Some (Some idx,
             Some (error_row player squad (strftime_now (ob_world ob)) exc_type),
             lit "error")
  /\ error_row player squad (strftime_now (ob_world ob)) exc_type !! lit "Status"
     = Some (VStr (lit "error:" ++ exc_type))
  /\ exists msgs,
       run.2 = results_queue ++ msgs
                 ++ [(None, None, lit "worker_done:" ++ int_str worker_id)]
       /\ (fun m : message => m.1.1) <$> msgs
          = (fun t : nat * pystr * pystr => Some t.1.1)
              <$> taken_tasks (pre ++ ob :: post).
Proof.
  intros Hpre Hstop Htask fresh client Hraise run.
  destruct (worker_while_messages (pre ++ ob :: post) fresh results_queue)
    as (msgs & client' & Hrun & Hmsgs).
  assert (run = (Ok tt, (results_queue ++ msgs)
                          ++ [(None, None, lit "worker_done:" ++ int_str worker_id)]))
    as Hloop.
  { unfold run, _worker_loop. fold fresh. by rewrite Hrun. }
  rewrite Hloop. cbn [fst snd].
  split; [done|]. split; [|split].
  - destruct (worker_while_app pre (ob :: post) fresh results_queue Hpre)
      as [Happ Hlen].
    rewrite Happ in Hrun. fold client in Hrun.
    cbn [worker_while] in Hrun. rewrite Hstop, Htask in Hrun.
    destruct (worker_job_message (ob_world ob) idx player squad client)
      as (msg & Hjob & _ & _ & Herr).
    specialize (Herr exc_type Hraise). subst msg.
    destruct (worker_job (ob_world ob) (idx, player, squad) client) as [r client1].
    cbn [fst] in Hjob. subst r.
    set (q1 := (worker_while pre fresh results_queue).2) in *.
    destruct (worker_while_messages post client1
                (q1 ++ [(Some idx,
                         Some (error_row player squad (strftime_now (ob_world ob)) exc_type),
                         lit "error")]))
      as (msgs' & client'' & Hpost & _).
    pose proof (eq_trans (eq_sym Hpost) Hrun) as Heq. injection Heq as _ Hq.
    rewrite <- Hq, <- Hlen.
    rewrite <- (app_assoc (q1 ++ _)), <- (app_assoc q1).
    rewrite (lookup_app_r q1) by done.
    by rewrite Nat.sub_diag.
  - unfold error_row. generalize (lit "error:" ++ exc_type).
    generalize (strftime_now (ob_world ob)). intros now status. by vm_compute.
  - exists msgs. by rewrite <- app_assoc.
Qed.

End WorkerProperties.

(** ** Runs on the sample data *)

(** Close an equation between closed terms by evaluation of both sides. *)
Ltac by_evaluation :=
  match goal with
  | |- ?a = _ => vm_cast_no_check (@eq_refl _ a)
  | |- _ => refine (bool_decide_unpack _ _); vm_compute; exact I
  end.

(** The merge of the fetched fields into the stored row. *)
Lemma merge_sample :
  merge_missing_fields (U := ascii_db) stored_table 0 fetched_fields backfill_columns
  = Ok merged_table.
Proof. by_evaluation. Qed.

(** C1, counterexample to the claim as stated. The stored row has the
    populated status [value_not_found]; merging the fetched fields over
    the forced columns of the backfill pass, Status among them, fills the
    raw value and leaves the status [ok]. *)
Lemma merge_missing_fields_rewrites_status :
  lit "Status" ∈ backfill_columns
  /\ cell stored_table 0 (lit "Status") = Some (VStr (lit "value_not_found"))
  /\ is_blank (U := ascii_db) (VStr (lit "value_not_found")) = false
  /\ merge_missing_fields (U := ascii_db) stored_table 0 fetched_fields backfill_columns
     = Ok merged_table
  /\ cell merged_table 0 (lit "Status") = Some (VStr (lit "ok"))
  /\ cell merged_table 0 (lit "Status") ≠ cell stored_table 0 (lit "Status").
Proof.
  split; [by_evaluation|]. split; [by_evaluation|]. split; [by_evaluation|].
  split; [exact merge_sample|]. split; [by_evaluation|].
  intros H. vm_compute in H. discriminate H.
Qed.

(** The amended C1 on the same merge: the populated club label is kept
    although the fetched row offers another one, and the status follows
    the raw value. *)
Lemma merge_missing_fields_frame_witness :
  merge_missing_fields (U := ascii_db) stored_table 0 fetched_fields backfill_columns
  = Ok merged_table
  /\ cell merged_table 0 (lit "Matched Club") = Some (VStr (lit "Inter Miami"))
  /\ cell merged_table 0 (lit "Status") = Some (VStr (lit "ok")).
Proof.
  split; [exact merge_sample|].
  destruct (merge_missing_fields_frame (U := ascii_db) stored_table 0 fetched_fields
              backfill_columns merged_table merge_sample) as [Hkeep Hstatus].
  split.
  - apply Hkeep; [lit_neq|by_evaluation|by_evaluation].
  - rewrite (Hstatus (VStr (lit "value_not_found")));
      by_evaluation.
Defined.

(** The run of the client on the candidate without labels. *)
Lemma unlabelled_run :
  process_player (U := ascii_db) (world_with [row_without_labels] [browser_messi])
    (lit "Lionel Messi") (lit "Inter Miami") new_client
  = (Ok (unlabelled_fields, lit "http"),
     {| driver := false; cookies_accepted := false; searches := [Fast] |}).
Proof. by_evaluation. Qed.

(** C2, counterexample to the claim as stated. The only candidate of
    the fast tier carries no affiliation label at all, yet it has a value
    text: the fallback tier is not searched and the source is the fast
    tier. *)
Lemma fallback_not_triggered_without_labels :
  let w := world_with [row_without_labels] [browser_messi] in
  let run := process_player (U := ascii_db) w (lit "Lionel Messi") (lit "Inter Miami")
               new_client in
  Forall (fun row_html => http_clubs row_html = []) [row_without_labels]
  /\ run.1 = Ok (unlabelled_fields, lit "http")
  /\ searches run.2 = [Fast]
  /\ Fallback ∉ searches run.2.
Proof.
  intros w run. unfold run, w. rewrite unlabelled_run. cbn [fst snd searches].
  split; [by repeat constructor|]. split; [done|]. split; [done|].
  intros H. apply list_elem_of_singleton in H. discriminate H.
Qed.

(** The run of the client on a fast-tier candidate that has a club label
    but no value text, with the browser showing the value. *)
Lemma fallback_run :
  process_player (U := ascii_db) (world_with [row_without_value] [browser_messi])
    (lit "Lionel Messi") (lit "Inter Miami") new_client
  = (Ok (fetched_fields, lit "browser"),
     {| driver := true; cookies_accepted := true; searches := [Fast; Fallback] |}).
Proof. by_evaluation. Qed.

(** The amended C2 on that run: the fallback tier is searched once and
    credited. *)
Lemma fallback_trigger_witness :
  let w := world_with [row_without_value] [browser_messi] in
  process_player (U := ascii_db) w (lit "Lionel Messi") (lit "Inter Miami") new_client
  = (Ok (fetched_fields, lit "browser"),
     {| driver := true; cookies_accepted := true; searches := [Fast; Fallback] |})
  /\ exists fast,
       (_find_best_http (U := ascii_db) w (lit "Lionel Messi") (lit "Inter Miami")
          new_client).1 = Ok fast
       /\ has_value_text fast = false
       /\ (lit "browser" = lit "browser" <->
           has_value_text fast = false
           /\ exists m,
                (_find_best_browser (U := ascii_db) w (lit "Lionel Messi")
                   (lit "Inter Miami") new_client).1 = Ok (Some m)).
Proof.
  intros w. split; [exact fallback_run|].
  destruct (fallback_trigger (U := ascii_db) w _ _ _ _ _ _ fallback_run)
    as (fast & Hfast & Hs & Hsrc & _).
  exists fast. split; [exact Hfast|]. split; [|exact Hsrc].
  destruct (has_value_text fast); [|reflexivity].
  cbn [searches app] in Hs. discriminate Hs.
Defined.

(** C3, counterexample to the claim as stated: the empty string scores 0
    against itself. *)
Lemma score_name_empty_self :
  score_name (U := ascii_db) [] [] = 0%Z /\ score_name (U := ascii_db) [] [] ≠ 3%Z.
Proof. split; [by_evaluation|]. intros H. vm_compute in H. discriminate H. Qed.

(** The amended C3 on a string of two spaces. *)
Lemma score_name_self_witness :
  lit "  " ≠ [] /\ score_name (U := ascii_db) (lit "  ") (lit "  ") = 3%Z.
Proof.
  assert (lit "  " ≠ []) as Hx by lit_neq.
  split; [exact Hx|]. exact (score_name_self (U := ascii_db) (lit "  ") Hx).
Defined.

(** C4, the code at the failing input. On a table whose rows are named
    [None], [null], two spaces and [NaN], [iter_rows_from] from row 1
    returns the first three as jobs and skips only the last, although all
    these names are blank for the shared predicate [is_blank]. *)
Lemma iter_rows_from_keeps_null_names :
  iter_rows_from (U := ascii_db) null_named_table 1
    = [(0%nat, lit "None", lit "Porto"); (1%nat, lit "null", lit "Benfica");
       (2%nat, lit "  ", lit "Braga")]
  /\ is_blank (U := ascii_db) (VStr (lit "None")) = true
  /\ is_blank (U := ascii_db) (VStr (lit "null")) = true
  /\ is_blank (U := ascii_db) (VStr (lit "  ")) = true.
Proof. repeat split; by_evaluation. Qed.

(** C5 on the run that ends in the fallback tier: the kept candidate has
    the value text of the browser row, the status is [ok] and the parsed
    value is that of the parser. *)
Lemma process_player_status_witness :
  let w := world_with [row_without_value] [browser_messi] in
  process_player (U := ascii_db) w (lit "Lionel Messi") (lit "Inter Miami") new_client
  = (Ok (fetched_fields, lit "browser"),
     {| driver := true; cookies_accepted := true; searches := [Fast; Fallback] |})
  /\ fetched_fields !! lit "Status" = Some (VStr (lit "ok"))
  /\ fetched_fields !! lit "Market Value (int)" = Some (VInt 30000000).
Proof.
  intros w. split; [exact fallback_run|].
  destruct (process_player_status (U := ascii_db) w _ _ _ _ _ _ fallback_run)
    as (found & Hsel & _ & _ & Hok & Hint & _).
  assert (found = Some (messi_url, lit "Inter Miami CF", euro :: lit "30.00m")) as ->.
  { assert (select_match (U := ascii_db) w (lit "Lionel Messi") (lit "Inter Miami")
              new_client
            = (Ok (Some (messi_url, lit "Inter Miami CF", euro :: lit "30.00m"),
                   lit "browser"),
               {| driver := true; cookies_accepted := true;
                  searches := [Fast; Fallback] |})) as Hsel' by by_evaluation.
    rewrite Hsel' in Hsel. by injection Hsel as ->. }
  split.
  - apply Hok. do 3 eexists. split; [reflexivity|]. discriminate.
  - destruct (Hint _ _ _ eq_refl ltac:(discriminate)) as (parsed & Hparse & Hcell).
    assert (parse_market_value_to_int (U := ascii_db) (VStr (euro :: lit "30.00m"))
            = Ok (Some 30000000%Z)) as Hp by by_evaluation.
    rewrite Hp in Hparse. injection Hparse as <-. exact Hcell.
Defined.

(** C6. The value parser on the texts of the specification. *)
Theorem parse_market_value_examples :
  parse_market_value_to_int (U := ascii_db) (VStr (lit "12.5m")) = Ok (Some 12500000%Z)
  /\ parse_market_value_to_int (U := ascii_db) (VStr (lit "750k")) = Ok (Some 750000%Z)
  /\ parse_market_value_to_int (U := ascii_db) (VStr (euro :: lit "200.00m"))
     = Ok (Some 200000000%Z)
  /\ parse_market_value_to_int (U := ascii_db) (VStr (lit "12,500,000"))
     = Ok (Some 12500000%Z)
  /\ parse_market_value_to_int (U := ascii_db) (VStr []) = Ok None
  /\ parse_market_value_to_int (U := ascii_db) (VStr (lit "null")) = Ok None.
Proof. repeat split; by_evaluation. Qed.

(** C8 on a worker without network: its one task raises
    [WebDriverException] in the client, and the queue receives the error
    message and then the end-of-worker message. *)
Lemma worker_error_containment_witness :
  let run := _worker_loop (U := ascii_db) 3 [offline_task] [] in
  (process_player (U := ascii_db) world_offline (lit "Lionel Messi") (lit "Inter Miami")
     new_client).1 = Raise (lit "WebDriverException")
  /\ run.1 = Ok tt
  /\ run.2 !! 0%nat
     = Some (Some 0%nat,
             Some (error_row (lit "Lionel Messi") (lit "Inter Miami")
                     (lit "2026-02-18 12:25:00") (lit "WebDriverException")),
             lit "error")
  /\ error_row (lit "Lionel Messi") (lit "Inter Miami")
       (lit "2026-02-18 12:25:00") (lit "WebDriverException") !! lit "Status"
     = Some (VStr (lit "error:" ++ lit "WebDriverException")).
Proof.
  intros run.
  assert ((process_player (U := ascii_db) world_offline (lit "Lionel Messi")
             (lit "Inter Miami") new_client).1 = Raise (lit "WebDriverException"))
    as Hraise by by_evaluation.
  split; [exact Hraise|].
  destruct (worker_error_containment (U := ascii_db) 3 [] offline_task [] []
              0 (lit "Lionel Messi") (lit "Inter Miami") (lit "WebDriverException")
              ltac:(constructor) eq_refl eq_refl Hraise)
    as (Hok & Hmsg & Hstatus & _).
  split; [exact Hok|]. split; [exact Hmsg|]. exact Hstatus.
Defined.

(** C9, counterexample to the claim as stated: on 309 nines, a comma
    and a five, the float nearest to the decimal is infinite and the call
    raises [OverflowError] where the claim has it return a value. *)
Lemma parse_comma_overflow :
  forallb is_ascii_digit (repeat 57 309) = true
  /\ parse_market_value_to_int (U := ascii_db)
       (VStr (repeat 57 309 ++ lit "," ++ lit "5"))
     = Raise (lit "OverflowError").
Proof. split; by_evaluation. Qed.

(** The amended C9 on [1,234]: the comma is the decimal separator and
    the value is 1, not 1234. *)
Lemma parse_comma_is_decimal_separator_witness :
  lit "1" ≠ [] /\ lit "234" ≠ []
  /\ forallb is_ascii_digit (lit "1") = true
  /\ forallb is_ascii_digit (lit "234") = true
  /\ parse_market_value_to_int (U := ascii_db) (VStr (lit "1" ++ lit "," ++ lit "234"))
     = Ok (Some 1%Z).
Proof.
  assert (lit "1" ≠ []) as Ha by lit_neq.
  assert (lit "234" ≠ []) as Hb by lit_neq.
  split; [exact Ha|]. split; [exact Hb|]. split; [by_evaluation|].
  split; [by_evaluation|].
  destruct (parse_comma_is_decimal_separator (U := ascii_db) (lit "1") (lit "234")
              Ha Hb eq_refl eq_refl) as (_ & Hreturns).
  destruct Hreturns as (n & Hn & Hparse); [by_evaluation|].
  vm_compute in Hn. injection Hn as <-. exact Hparse.
Defined.

(** C10 on a query of one space and the labels [" "], [FC Porto],
    [Benfica]: score 2 with [FC Porto]. *)
Lemma score_squad_blank_query_witness :
  lit " " ≠ []
  /\ normalize_club_name (U := ascii_db) (lit " ") = []
  /\ Forall (fun l => normalize_club_name (U := ascii_db) l = []) [lit " "]
  /\ normalize_club_name (U := ascii_db) (lit "FC Porto") ≠ []
  /\ score_squad (U := ascii_db) (lit " ") ([lit " "] ++ lit "FC Porto" :: [lit "Benfica"])
     = (2%Z, lit "FC Porto").
Proof.
  assert (lit " " ≠ []) as Hq by lit_neq.
  assert (normalize_club_name (U := ascii_db) (lit " ") = []) as Hn by by_evaluation.
  assert (Forall (fun l => normalize_club_name (U := ascii_db) l = []) [lit " "])
    as Hpre by (repeat constructor; by_evaluation).
  assert (normalize_club_name (U := ascii_db) (lit "FC Porto") ≠ []) as Hclub by lit_neq.
  split; [exact Hq|]. split; [exact Hn|]. split; [exact Hpre|]. split; [exact Hclub|].
  exact (score_squad_blank_query (U := ascii_db) _ _ _ _ Hq Hn Hpre Hclub).
Defined.

(** * Further properties of the code *)

(** ** Repository: [update_row] *)

(** What the loop of [update_row] leaves at a label: the value of the
    payload when the label is a column, is allowed and is in the payload;
    the previous content otherwise. *)
Lemma update_cells_lookup (columns : list pystr) (columns_to_fill : gset pystr)
    (row_data row : gmap pystr value) (col : pystr) :
  update_cells columns columns_to_fill row_data row !! col =
    if bool_decide (col ∈ columns) && bool_decide (col ∈ columns_to_fill)
    then match row_data !! col with Some v => Some v | None => row !! col end
    else row !! col.
Proof.
  unfold update_cells. rewrite map_fold_foldr.
  rewrite <- (list_to_map_to_list row_data) at 2.
  induction (map_to_list row_data) as [|[k v] l IH]; cbn [foldr uncurry list_to_map].
  { rewrite lookup_empty. by destruct (_ && _). }
  cbn [fst snd].
  destruct (decide (k = col)) as [->|Hne].
  - rewrite lookup_insert_eq.
    destruct (bool_decide (col ∈ columns) && bool_decide (col ∈ columns_to_fill)) eqn:Hc;
      [by rewrite lookup_insert_eq|].
    rewrite IH. done.
  - rewrite (lookup_insert_ne (list_to_map l)) by done.
    destruct (bool_decide (k ∈ columns) && bool_decide (k ∈ columns_to_fill)); [|done].
    by rewrite lookup_insert_ne.
Qed.

(** An [update_row] that writes nothing returns the table as it was. *)
Lemma update_cells_nothing (columns : list pystr) (columns_to_fill : gset pystr)
    (row_data row : gmap pystr value) :
  filter (fun kv => kv.1 ∈ columns ∧ kv.1 ∈ columns_to_fill) row_data = ∅ ->
  update_cells columns columns_to_fill row_data row = row.
Proof.
  intros Hnone. apply map_eq. intros col. rewrite update_cells_lookup.
  destruct (bool_decide (col ∈ columns) && bool_decide (col ∈ columns_to_fill)) eqn:Hc;
    [|done].
  apply andb_true_iff in Hc as [Hc1%bool_decide_eq_true Hc2%bool_decide_eq_true].
  destruct (row_data !! col) as [v|] eqn:Hv; [|done].
  assert (filter (fun kv => kv.1 ∈ columns ∧ kv.1 ∈ columns_to_fill) row_data !! col
          = Some v) as Hin by (by apply map_lookup_filter_Some).
  rewrite Hnone, lookup_empty in Hin. done.
Qed.


(** X2. [update_row] twice with the same payload is [update_row] once. *)
Theorem update_row_idempotent (df df' : DataFrame) (idx : nat)
    (row_data : gmap pystr value) (columns_to_fill : gset pystr) :
  update_row df idx row_data columns_to_fill = Some df' ->
  update_row df' idx row_data columns_to_fill = Some df'.
Proof.
  unfold update_row.
  destruct (df_rows df !! idx) as [row|] eqn:Hrow.
  - intros [= <-]. cbn [df_rows df_columns].
    assert (idx < length (df_rows df))%nat as Hlt by (by eapply lookup_lt_Some).
    rewrite list_lookup_insert_eq by done. f_equal. f_equal.
    rewrite list_insert_insert_eq. f_equal.
    apply map_eq. intros col. rewrite !update_cells_lookup.
    destruct (_ && _); [|done]. by destruct (row_data !! col).
  - case_bool_decide as Hnone; [|done]. intros [= <-].
    rewrite Hrow. by rewrite bool_decide_eq_true_2.
Qed.

(** The cell of the table after [update_row], in one formula. *)
Lemma update_row_cell (df df' : DataFrame) (idx : nat) (row_data : gmap pystr value)
    (columns_to_fill : gset pystr) :
  update_row df idx row_data columns_to_fill = Some df' ->
  forall j col,
    cell df' j col =
      match row_data !! col with
      | Some v =>
          if bool_decide (j = idx) && bool_decide (col ∈ df_columns df)
             && bool_decide (col ∈ columns_to_fill)
          then Some v else cell df j col
      | None => cell df j col
      end.
Proof.
  unfold update_row, cell.
  destruct (df_rows df !! idx) as [row|] eqn:Hrow.
  - intros [= <-] j col. cbn [df_rows df_columns].
    assert (idx < length (df_rows df))%nat as Hlt by (by eapply lookup_lt_Some).
    destruct (decide (j = idx)) as [->|Hj].
    + rewrite list_lookup_insert_eq by done. cbn [mbind option_bind].
      rewrite update_cells_lookup, (bool_decide_eq_true_2 (idx = idx)) by done.
      cbn [andb]. rewrite Hrow. cbn [mbind option_bind].
      destruct (row_data !! col); by destruct (_ && _).
    + rewrite list_lookup_insert_ne by done.
      rewrite (bool_decide_eq_false_2 (j = idx)) by done. cbn [andb].
      by destruct (row_data !! col).
  - case_bool_decide as Hnone; [|done]. intros [= <-] j col.
    destruct (row_data !! col) as [v|] eqn:Hv; [|done].
    destruct (bool_decide (j = idx) && bool_decide (col ∈ df_columns df)
              && bool_decide (col ∈ columns_to_fill)) eqn:Hc; [|done].
    apply andb_true_iff in Hc as [Hc Hc3%bool_decide_eq_true].
    apply andb_true_iff in Hc as [_ Hc2%bool_decide_eq_true].
    assert (filter (fun kv => kv.1 ∈ df_columns df ∧ kv.1 ∈ columns_to_fill) row_data !! col
            = Some v) as Hin by (by apply map_lookup_filter_Some).
    rewrite Hnone, lookup_empty in Hin. done.
Qed.

(** [update_row] keeps the columns and the number of rows. *)
Lemma update_row_shape (df df' : DataFrame) (idx : nat) (row_data : gmap pystr value)
    (columns_to_fill : gset pystr) :
  update_row df idx row_data columns_to_fill = Some df' ->
  df_columns df' = df_columns df /\ length (df_rows df') = length (df_rows df).
Proof.
  unfold update_row. destruct (df_rows df !! idx) as [row|].
  - intros [= <-]. cbn [df_rows df_columns]. by rewrite length_insert.
  - case_bool_decide; [|done]. by intros [= <-].
Qed.

(** Within the table, [update_row] returns. *)
Lemma update_row_in_range (df : DataFrame) (idx : nat) (row_data : gmap pystr value)
    (columns_to_fill : gset pystr) :
  (idx < length (df_rows df))%nat ->
  exists df', update_row df idx row_data columns_to_fill = Some df'.
Proof.
  intros Hlt. unfold update_row.
  destruct (lookup_lt_is_Some_2 _ _ Hlt) as [row ->]. by eexists.
Qed.

(** ** Prompts and column detection *)

Section PromptProperties.
Context {U : UnicodeDB}.

Lemma editable_elem (headers : list pystr) (h : pystr) :
  h ∈ filter (fun h => h ∉ [lit "Player"; lit "Squad"]) headers
  <-> h ∈ headers /\ h ≠ lit "Player" /\ h ≠ lit "Squad".
Proof.
  rewrite list_elem_of_filter, !not_elem_of_cons. split.
  - intros [(? & ? & _) ?]. done.
  - intros (? & ? & ?). split; [|done]. split; [done|]. split; [done|].
    apply not_elem_of_nil.
Qed.

(** X3. The set returned by [choose_columns_to_fill] holds labels of the
    headers only and never the Player or the Squad column; it is empty
    only when the headers have no other label (a selection that names no
    editable column falls back to all of them); and in every mode other
    than [selected] it holds every editable label. *)
Theorem choose_columns_to_fill_editable (headers : list pystr)
    (mode_answer selected_answer : pystr) :
  let chosen := choose_columns_to_fill headers mode_answer selected_answer in
  (forall c, c ∈ chosen -> c ∈ headers /\ c ≠ lit "Player" /\ c ≠ lit "Squad")
  /\ (chosen = ∅ <-> forall h, h ∈ headers -> h = lit "Player" \/ h = lit "Squad")
  /\ (str_casefold (strip mode_answer) ≠ lit "selected" ->
      forall c, c ∈ headers -> c ≠ lit "Player" -> c ≠ lit "Squad" -> c ∈ chosen).
Proof.
  unfold choose_columns_to_fill.
  set (editable := filter (fun h => h ∉ [lit "Player"; lit "Squad"]) headers).
  set (selected := list_to_set (strip <$> _) : gset pystr).
  set (picked := list_to_set (filter (fun c => c ∈ selected) editable) : gset pystr).
  assert (forall c, c ∈ (list_to_set editable : gset pystr)
                    <-> c ∈ headers /\ c ≠ lit "Player" /\ c ≠ lit "Squad") as Hall.
  { intros c. rewrite elem_of_list_to_set. apply editable_elem. }
  assert ((list_to_set editable : gset pystr) = ∅
          <-> forall h, h ∈ headers -> h = lit "Player" \/ h = lit "Squad") as Hempty.
  { rewrite elem_of_equiv_empty_L. split.
    - intros Hno h Hh.
      destruct (decide (h = lit "Player")) as [|H1]; [by left|].
      destruct (decide (h = lit "Squad")) as [|H2]; [by right|].
      destruct (Hno h). by apply Hall.
    - intros Honly h (Hh & H1 & H2)%Hall. by destruct (Honly h Hh). }
  assert (forall c, c ∈ picked -> c ∈ (list_to_set editable : gset pystr)) as Hsub.
  { intros c. unfold picked. rewrite !elem_of_list_to_set, list_elem_of_filter. tauto. }
  case_bool_decide as Hmode.
  - split; [intros c; apply Hall|]. split; [exact Hempty|].
    intros _ c Hc H1 H2. by apply Hall.
  - case_bool_decide as Hpicked.
    + split; [intros c; apply Hall|]. split; [exact Hempty|]. by intros [].
    + split; [intros c Hc; by apply Hall, Hsub|]. split; [|by intros []].
      split; [done|]. intros Honly. exfalso.
      apply set_choose_L in Hpicked as [c Hc].
      apply Hsub, Hall in Hc as (Hh & H1 & H2). by destruct (Honly c Hh).
Qed.

(** X4. With the columns chosen by [choose_columns_to_fill], no call of
    [update_row] changes a cell of the Player or of the Squad column,
    whatever the payload. *)
Theorem update_row_keeps_identity_columns (df df' : DataFrame) (idx : nat)
    (row_data : gmap pystr value) (headers : list pystr)
    (mode_answer selected_answer : pystr) :
  update_row df idx row_data
    (choose_columns_to_fill headers mode_answer selected_answer) = Some df' ->
  forall j,
    cell df' j (lit "Player") = cell df j (lit "Player")
    /\ cell df' j (lit "Squad") = cell df j (lit "Squad").
Proof.
  intros Hup j.
  assert (forall col, col = lit "Player" \/ col = lit "Squad" ->
            col ∉ choose_columns_to_fill headers mode_answer selected_answer) as Hout.
  { intros col Hcol Hin.
    unfold choose_columns_to_fill in Hin.
    assert (forall c, c ∈ (list_to_set
                             (filter (fun h => h ∉ [lit "Player"; lit "Squad"]) headers)
                           : gset pystr) -> c ≠ lit "Player" /\ c ≠ lit "Squad") as Hall.
    { intros c. rewrite elem_of_list_to_set, editable_elem. tauto. }
    repeat case_bool_decide.
    - apply Hall in Hin. destruct Hcol; tauto.
    - apply Hall in Hin. destruct Hcol; tauto.
    - rewrite elem_of_list_to_set, list_elem_of_filter, editable_elem in Hin.
      destruct Hcol; tauto. }
  rewrite !(update_row_cell _ _ _ _ _ Hup).
  rewrite !(bool_decide_eq_false_2 (_ ∈ choose_columns_to_fill _ _ _)) by (apply Hout; tauto).
  rewrite !andb_false_r. split; by case_match.
Qed.

(** X5. The number of workers asked for is at least one and at most the
    number of jobs (one when there is none), whatever is typed and
    whatever the machine; the default offered, that of
    [recommended_workers] for [MAX_WORKERS], lies between 2 and 6, and is
    what an empty answer or the end of the input gives, capped by the
    number of jobs. *)
Theorem worker_count_bounds (cpu_count : option Z) (total_jobs : Z)
    (answer : result pystr) :
  let default_workers := recommended_workers cpu_count MAX_WORKERS in
  let workers := ask_worker_count default_workers total_jobs answer in
  (1 <= workers <= Z.max 1 total_jobs)%Z
  /\ (2 <= default_workers <= 6)%Z
  /\ (match answer with Ok line => strip line = [] | Raise _ => True end ->
      workers = Z.max 1 (Z.min default_workers total_jobs)).
Proof.
  intros default_workers workers.
  split; [|split].
  - unfold workers, ask_worker_count. repeat case_match; lia.
  - unfold default_workers, recommended_workers, MAX_WORKERS. repeat case_match; lia.
  - unfold workers, ask_worker_count. destruct answer as [line|e]; [|done].
    intros ->. by rewrite bool_decide_eq_true_2.
Qed.


(** The dictionary [{c.casefold(): c for c in columns}] holds, under a
    key, the last column that folds to it. *)
Lemma cols_casefold_lookup (columns : list pystr) (k : pystr) :
  cols_casefold columns !! k = last (filter (fun c => str_casefold c = k) columns).
Proof.
  unfold cols_casefold.
  enough (forall m : gmap pystr pystr,
            foldl (fun m c => <[str_casefold c := c]> m) m columns !! k
            = match last (filter (fun c => str_casefold c = k) columns) with
              | Some c => Some c
              | None => m !! k
              end) as Hgen.
  { rewrite Hgen, lookup_empty. by destruct (last _). }
  induction columns as [|c cols IH]; intros m; [done|].
  cbn [foldl]. rewrite IH, filter_cons.
  destruct (decide (str_casefold c = k)) as [<-|Hne].
  - rewrite last_cons, lookup_insert_eq. by destruct (last _).
  - by rewrite lookup_insert_ne.
Qed.

(** The candidate loop returns the entry of the first candidate that has
    one. *)
Lemma first_known_spec (cols : gmap pystr pystr) (candidates : list pystr) :
  match first_known cols candidates with
  | Some c =>
      exists pre candidate post,
        candidates = pre ++ candidate :: post
        /\ cols !! str_casefold candidate = Some c
        /\ Forall (fun p => cols !! str_casefold p = None) pre
  | None => Forall (fun p => cols !! str_casefold p = None) candidates
  end.
Proof.
  induction candidates as [|cand rest IH]; cbn [first_known]; [constructor|].
  destruct (cols !! str_casefold cand) as [c|] eqn:Hc.
  - exists [], cand, rest. by repeat split.
  - destruct (first_known cols rest) as [c|].
    + destruct IH as (pre & candidate & post & -> & Hk & Hpre).
      exists (cand :: pre), candidate, post. split; [done|]. split; [done|].
      by constructor.
    + by constructor.
Qed.

(** X7. [detect_squad_column] returns a column of the table that equals,
    letter case apart, the first of the configured labels that any
    column equals in this way, and of several such columns the last one;
    it raises [ValueError] exactly when no column equals a configured
    label, letter case apart. *)
Theorem detect_squad_column_spec (columns : list pystr) :
  match detect_squad_column columns with
  | Ok c =>
      c ∈ columns
      /\ exists pre candidate post,
           POSSIBLE_SQUAD_COLS = pre ++ candidate :: post
           /\ last (filter (fun x => str_casefold x = str_casefold candidate) columns)
              = Some c
           /\ forall p x, p ∈ pre -> x ∈ columns -> str_casefold x ≠ str_casefold p
  | Raise e =>
      e = lit "ValueError"
      /\ forall p x, p ∈ POSSIBLE_SQUAD_COLS -> x ∈ columns ->
           str_casefold x ≠ str_casefold p
  end.
Proof.
  unfold detect_squad_column.
  assert (forall p, cols_casefold columns !! str_casefold p = None ->
            forall x, x ∈ columns -> str_casefold x ≠ str_casefold p) as Hnone.
  { intros p Hp x Hx Heq. rewrite cols_casefold_lookup in Hp.
    apply last_None in Hp.
    assert (x ∈ filter (fun c => str_casefold c = str_casefold p) columns) as Hin
      by (by apply list_elem_of_filter).
    rewrite Hp in Hin. by apply elem_of_nil in Hin. }
  pose proof (first_known_spec (cols_casefold columns) POSSIBLE_SQUAD_COLS) as Hfirst.
  destruct (first_known _ _) as [c|].
  - destruct Hfirst as (pre & candidate & post & Heq & Hk & Hpre).
    rewrite cols_casefold_lookup in Hk. split.
    + apply last_Some_elem_of in Hk. apply list_elem_of_filter in Hk. tauto.
    + exists pre, candidate, post. split; [done|]. split; [done|].
      intros p x Hp. rewrite Forall_forall in Hpre. by apply Hnone, Hpre.
  - split; [done|]. intros p x Hp. rewrite Forall_forall in Hfirst.
    by apply Hnone, Hfirst.
Qed.

(** X8. [detect_player_column] returns a column of the table: the last
    one that equals, letter case apart, the first configured label so
    matched, and when no column matches a label, the first column of
    object type; it raises [ValueError] exactly when there is neither. *)
Theorem detect_player_column_spec (columns : list (pystr * bool)) :
  let matched :=
    exists p x, p ∈ POSSIBLE_PLAYER_COLS /\ x ∈ columns.*1
                /\ str_casefold x = str_casefold p in
  match detect_player_column columns with
  | Ok c =>
      c ∈ columns.*1
      /\ ((exists pre candidate post,
             POSSIBLE_PLAYER_COLS = pre ++ candidate :: post
             /\ last (filter (fun x => str_casefold x = str_casefold candidate) (columns.*1))
                = Some c
             /\ forall p x, p ∈ pre -> x ∈ columns.*1 -> str_casefold x ≠ str_casefold p)
          \/ (~ matched
              /\ exists pre post,
                   columns = pre ++ (c, true) :: post
                   /\ Forall (fun cd => cd.2 = false) pre))
  | Raise e =>
      e = lit "ValueError" /\ ~ matched /\ Forall (fun cd => cd.2 = false) columns
  end.
Proof.
  intros matched. unfold detect_player_column.
  assert (forall p, cols_casefold (columns.*1) !! str_casefold p = None ->
            forall x, x ∈ columns.*1 -> str_casefold x ≠ str_casefold p) as Hnone.
  { intros p Hp x Hx Heq. rewrite cols_casefold_lookup in Hp.
    apply last_None in Hp.
    assert (x ∈ filter (fun c => str_casefold c = str_casefold p) (columns.*1)) as Hin
      by (by apply list_elem_of_filter).
    rewrite Hp in Hin. by apply elem_of_nil in Hin. }
  pose proof (first_known_spec (cols_casefold (columns.*1)) POSSIBLE_PLAYER_COLS) as Hfirst.
  destruct (first_known _ _) as [c|].
  - destruct Hfirst as (pre & candidate & post & Heq & Hk & Hpre).
    rewrite cols_casefold_lookup in Hk. split.
    + apply last_Some_elem_of in Hk. apply list_elem_of_filter in Hk. tauto.
    + left. exists pre, candidate, post. split; [done|]. split; [done|].
      intros p x Hp. rewrite Forall_forall in Hpre. by apply Hnone, Hpre.
  - assert (~ matched) as Hno.
    { intros (p & x & Hp & Hx & Heq). rewrite Forall_forall in Hfirst.
      by apply (Hnone p (Hfirst p Hp) x Hx). }
    clear Hfirst Hnone.
    assert (match filter (fun cd : pystr * bool => cd.2 = true) columns with
            | (c, _) :: _ =>
                exists pre post, columns = pre ++ (c, true) :: post
                                 /\ Forall (fun cd => cd.2 = false) pre
            | [] => Forall (fun cd => cd.2 = false) columns
            end) as Hobj.
    { clear Hno matched.
      induction columns as [|[c d] cols IH]; [constructor|].
      rewrite filter_cons. cbn [snd]. destruct d.
      - rewrite decide_True by done. by exists [], cols.
      - rewrite decide_False by done.
        destruct (filter _ cols) as [|[c' ?] ?].
        + by constructor.
        + destruct IH as (pre & post & -> & Hpre).
          exists ((c, false) :: pre), post. split; [done|]. by constructor. }
    destruct (filter _ columns) as [|[c ?] ?].
    + done.
    + destruct Hobj as (pre & post & Hcols & Hpre). split.
      * rewrite Hcols, fmap_app, fmap_cons. apply elem_of_app. right. left.
      * right. split; [done|]. by exists pre, post.
Qed.

End PromptProperties.

(** ** The search URL and the tag stripper *)

Lemma lstrip_head (s : pystr) :
  match lstrip s with [] => True | c :: _ => isspace c = false end.
Proof.
  induction s as [|c s IH]; [done|]. cbn [lstrip].
  destruct (isspace c) eqn:Hc; [done|]. exact Hc.
Qed.

(** What [lstrip] drops is a prefix. *)
Lemma lstrip_suffix (s : pystr) : exists ws, s = ws ++ lstrip s.
Proof.
  induction s as [|c s [ws IH]]; [by exists []|]. cbn [lstrip].
  destruct (isspace c); [|by exists []].
  exists (c :: ws). cbn [app]. by rewrite <- IH.
Qed.

(** [strip] does nothing to a stripped text. *)
Lemma strip_idempotent (s : pystr) : strip (strip s) = strip s.
Proof.
  unfold strip. set (t := lstrip s).
  assert (lstrip (rstrip t) = rstrip t) as Hl.
  { apply lstrip_no_space. unfold rstrip.
    destruct (lstrip_suffix (reverse t)) as [ws Hws].
    apply (f_equal reverse) in Hws. rewrite reverse_involutive, reverse_app in Hws.
    pose proof (lstrip_head s) as Hhead. fold t in Hhead.
    destruct (reverse (lstrip (reverse t))) as [|c r] eqn:Hr; [done|].
    rewrite Hws in Hhead. exact Hhead. }
  rewrite Hl. unfold rstrip. rewrite reverse_involutive.
  f_equal. apply lstrip_no_space, lstrip_head.
Qed.

(** A byte of the UTF-8 encoding is below 256. *)
Lemma utf8_encode_char_bytes (c : N) (bs : list N) :
  utf8_encode_char c = Ok bs -> Forall (fun b => b < 256) bs.
Proof.
  unfold utf8_encode_char.
  repeat match goal with
         | |- context [N.ltb ?a ?b] => destruct (N.ltb_spec a b)
         | |- context [andb _ _] => destruct (andb _ _)
         end; intros [= <-];
    repeat (apply Forall_cons; split); try (by apply Forall_nil);
    first [ zify; Z.div_mod_to_equations; lia
          | apply (N.lt_le_trans _ (128 + 64));
            [apply N.add_lt_mono_l, N.mod_lt; done | done] ].
Qed.

Lemma utf8_encode_bytes (s : pystr) (bs : list N) :
  utf8_encode s = Ok bs -> Forall (fun b => b < 256) bs.
Proof.
  revert bs. induction s as [|c s IH]; intros bs; cbn [utf8_encode].
  { intros [= <-]. constructor. }
  destruct (utf8_encode_char c) as [b|] eqn:Hc; [|done]. cbn.
  destruct (utf8_encode s) as [rest|]; [|done]. cbn. intros [= <-].
  apply Forall_app. split; [by eapply utf8_encode_char_bytes|by apply IH].
Qed.

(** The encoding fails on the surrogates and above U+10FFFF only. *)
Lemma utf8_encode_outcome (s : pystr) :
  match utf8_encode s with
  | Ok _ => Forall (fun c => ~ (55296 <= c <= 57343 \/ 1114112 <= c)) s
  | Raise e =>
      e = lit "UnicodeEncodeError"
      /\ Exists (fun c => 55296 <= c <= 57343 \/ 1114112 <= c) s
  end.
Proof.
  induction s as [|c s IH]; cbn [utf8_encode]; [constructor|].
  assert (match utf8_encode_char c with
          | Ok _ => ~ (55296 <= c <= 57343 \/ 1114112 <= c)
          | Raise e => e = lit "UnicodeEncodeError"
                       /\ (55296 <= c <= 57343 \/ 1114112 <= c)
          end) as Hc.
  { unfold utf8_encode_char.
    repeat match goal with
           | |- context [N.ltb ?a ?b] => destruct (N.ltb_spec a b)
           | |- context [N.leb ?a ?b] => destruct (N.leb_spec a b)
           end; cbn [andb]; try split; try done; lia. }
  destruct (utf8_encode_char c) as [b|e]; cbn.
  - destruct (utf8_encode s) as [rest|e]; cbn.
    + by constructor.
    + destruct IH as [-> IH]. split; [done|]. by apply Exists_cons_tl.
  - destruct Hc as [-> Hc]. split; [done|]. by apply Exists_cons_hd.
Qed.

Lemma hex_digit_safe (n : N) : n < 16 -> always_safe (hex_digit n) = true.
Proof.
  intros Hn. unfold hex_digit, always_safe.
  destruct (N.ltb_spec n 10).
  - assert ((48 <=? 48 + n) && (48 + n <=? 57) = true) as ->; [|by rewrite orb_true_r].
    apply andb_true_iff. split; apply N.leb_le; lia.
  - assert ((65 <=? 55 + n) && (55 + n <=? 90) = true) as ->; [|done].
    apply andb_true_iff. split; apply N.leb_le; lia.
Qed.

(** X9. [build_search_url] returns the search endpoint followed by a
    query made of letters, digits, [_.-~], [+] and [%] only, for every
    name whose stripped text can be encoded; it raises
    [UnicodeEncodeError] exactly when the stripped name holds a
    surrogate (or a code point no [str] holds); and white space around
    the name does not change the outcome. *)
Theorem build_search_url_spec (player_name : pystr) :
  build_search_url (strip player_name) = build_search_url player_name
  /\ match build_search_url player_name with
     | Ok url =>
         exists query,
           url = search_endpoint ++ query
           /\ Forall (fun c => always_safe c = true \/ c = 43 \/ c = 37) query
           /\ Forall (fun c => ~ (55296 <= c <= 57343 \/ 1114112 <= c)) (strip player_name)
     | Raise e =>
         e = lit "UnicodeEncodeError"
         /\ Exists (fun c => 55296 <= c <= 57343 \/ 1114112 <= c) (strip player_name)
     end.
Proof.
  split; [unfold build_search_url; by rewrite strip_idempotent|].
  unfold build_search_url, quote_plus.
  pose proof (utf8_encode_outcome (strip player_name)) as Hout.
  pose proof (utf8_encode_bytes (strip player_name)) as Hbytes.
  destruct (utf8_encode (strip player_name)) as [bs|e]; cbn; [|done].
  eexists. split; [done|]. split; [|done].
  specialize (Hbytes bs eq_refl).
  induction Hbytes as [|b bs Hb _ IH]; cbn [flat_map]; [constructor|].
  apply Forall_app. split; [|exact IH].
  unfold quote_byte. destruct (always_safe b) eqn:Hsafe.
  { apply Forall_cons. split; [by left|by apply Forall_nil]. }
  destruct (b =? 32).
  { apply Forall_cons. split; [tauto|by apply Forall_nil]. }
  apply Forall_cons. split; [tauto|].
  apply Forall_cons. split.
  { left. apply hex_digit_safe. zify; Z.div_mod_to_equations; lia. }
  apply Forall_cons. split; [|by apply Forall_nil].
  left. apply hex_digit_safe. by apply N.mod_lt.
Qed.







(** ** Affiliation scorer *)

Section SquadProperties.
Context {U : UnicodeDB}.

(** The loop either keeps the best score and label it was given, or ends
    on a label of the list with a higher score and the reason for it. *)
Lemma score_squad_loop_sound (q : pystr) (row_clubs : list pystr)
    (best_score : Z) (best_club : pystr) :
  let r := score_squad_loop q row_clubs best_score best_club in
  r = (best_score, best_club)
  \/ (r.2 ∈ row_clubs /\ normalize_club_name r.2 ≠ []
      /\ squad_score_reason q r.1 r.2 /\ (best_score < r.1)%Z)
  \/ (r.2 ∈ row_clubs /\ normalize_club_name r.2 ≠ [] /\ r.1 = 3%Z /\ q = normalize_club_name r.2).
Proof.
  revert best_score best_club.
  induction row_clubs as [|club rest IH]; intros best_score best_club; [by left|].
  cbn [score_squad_loop].
  assert (forall s b,
            let r := score_squad_loop q rest s b in
            r = (s, b)
            \/ (r.2 ∈ club :: rest /\ normalize_club_name r.2 ≠ []
                /\ squad_score_reason q r.1 r.2 /\ (s < r.1)%Z)
            \/ (r.2 ∈ club :: rest /\ normalize_club_name r.2 ≠ [] /\ r.1 = 3%Z
                /\ q = normalize_club_name r.2)) as IH'.
  { intros s b. destruct (IH s b) as [H|[(H1 & H2 & H3 & H4)|(H1 & H2 & H3 & H4)]].
    - by left.
    - right. left. split; [by right|done].
    - right. right. split; [by right|done]. }
  case_bool_decide as Hc; [apply IH'|].
  case_bool_decide as Hq.
  { right. right. cbn [fst snd]. split; [by left|done]. }
  destruct (contains q (normalize_club_name club) || contains (normalize_club_name club) q)
    eqn:Hsub.
  - destruct (Z.ltb_spec best_score 2); [|apply IH'].
    destruct (IH' 2%Z club) as [H'|[(H1 & H2 & H3 & H4)|H']].
    + right. left. rewrite H'. cbn [fst snd].
      split; [by left|]. split; [done|]. split; [|done].
      right. left. by split.
    + right. left. split; [done|]. split; [done|]. split; [done|]. lia.
    + by right; right.
  - destruct (negb _ && negb _ && (best_score <? 1)%Z) eqn:Htok; [|apply IH'].
    apply andb_true_iff in Htok as [Htok Hlt].
    apply andb_true_iff in Htok as [_ Hmeet].
    apply negb_true_iff, bool_decide_eq_false in Hmeet.
    apply Z.ltb_lt in Hlt.
    destruct (IH' 1%Z club) as [H'|[(H1 & H2 & H3 & H4)|H']].
    + right. left. rewrite H'. cbn [fst snd].
      split; [by left|]. split; [done|]. split; [|done].
      right. right. by split.
    + right. left. split; [done|]. split; [done|]. split; [done|]. lia.
    + by right; right.
Qed.

(** X11. The score of [score_squad] is justified by the label returned
    with it: a score of 0 comes with the first label of the list (the
    empty text for an empty list); any other score is 3, 2 or 1 and comes
    with a label of the list whose normalised text is not empty and,
    respectively, equals the normalised query, contains it or is
    contained in it, or shares a word with it. *)
Theorem score_squad_sound (query_squad : pystr) (row_clubs : list pystr) :
  let r := score_squad query_squad row_clubs in
  (r.1 = 0%Z /\ r.2 = hd [] row_clubs)
  \/ (query_squad ≠ [] /\ r.2 ∈ row_clubs /\ normalize_club_name r.2 ≠ []
      /\ squad_score_reason (normalize_club_name query_squad) r.1 r.2).
Proof.
  unfold score_squad. case_bool_decide as Hq; [by left|].
  destruct (score_squad_loop_sound (normalize_club_name query_squad) row_clubs 0
              (hd [] row_clubs)) as [H|[(H1 & H2 & H3 & H4)|(H1 & H2 & H3 & H4)]].
  - left. cbn zeta. by rewrite H.
  - right. done.
  - right. split; [done|]. split; [done|]. split; [done|]. left. done.
Qed.

(** The scores lie between 0 and 3. *)
Lemma score_squad_range (query_squad : pystr) (row_clubs : list pystr) :
  (0 <= (score_squad query_squad row_clubs).1 <= 3)%Z.
Proof.
  unfold score_squad. case_bool_decide; [cbn [fst]; lia|].
  destruct (score_squad_loop_sound (normalize_club_name query_squad) row_clubs 0
              (hd [] row_clubs))
    as [->|[(_ & _ & [[-> _]|[[-> _]|[-> _]]] & _)|(_ & _ & -> & _)]]; cbn [fst]; lia.
Qed.

(** Before an exact match the loop cannot end. *)
Lemma score_squad_loop_exact (q : pystr) (pre : list pystr) (club : pystr)
    (post : list pystr) (best_score : Z) (best_club : pystr) :
  q ≠ [] ->
  Forall (fun l => normalize_club_name l ≠ q) pre ->
  normalize_club_name club = q ->
  score_squad_loop q (pre ++ club :: post) best_score best_club = (3%Z, club).
Proof.
  intros Hq Hpre Hclub. revert best_score best_club.
  induction Hpre as [|l pre Hl _ IH]; intros best_score best_club; cbn [app score_squad_loop].
  - rewrite Hclub. rewrite bool_decide_eq_false_2 by done.
    by rewrite bool_decide_eq_true_2.
  - case_bool_decide; [apply IH|].
    rewrite (bool_decide_eq_false_2 (q = normalize_club_name l)) by done.
    repeat case_match; apply IH.
Qed.

(** X12. An exact match wins wherever it stands: when a label of the
    list equals the query after normalisation, and that text is not
    empty, [score_squad] returns 3 with the first such label, whatever
    the labels before it scored. *)
Theorem score_squad_exact (query_squad : pystr) (pre : list pystr) (club : pystr)
    (post : list pystr) :
  normalize_club_name query_squad ≠ [] ->
  query_squad ≠ [] ->
  Forall (fun l => normalize_club_name l ≠ normalize_club_name query_squad) pre ->
  normalize_club_name club = normalize_club_name query_squad ->
  score_squad query_squad (pre ++ club :: post) = (3%Z, club).
Proof.
  intros Hq Hquery Hpre Hclub. unfold score_squad.
  rewrite bool_decide_eq_false_2 by done.
  by apply score_squad_loop_exact.
Qed.

(** X13. The name score outranks the rest of the key by two steps, not
    by one. Of two candidates built by either tier, the one whose name
    score is higher by 2 or more is always preferred; when the name score
    is higher by 1 only, the other candidate is preferred exactly when
    its affiliation score is 3 against 0. *)
Theorem name_score_precedence (squad : pystr) (na nb : Z) (la lb : pystr)
    (ca cb : list pystr) (ra rb : pystr) :
  let a := make_candidate squad na la ca ra in
  let b := make_candidate squad nb lb cb rb in
  ((nb + 2 <= na)%Z -> key_gt a b = true /\ key_gt b a = false)
  /\ (na = (nb + 1)%Z ->
      (key_gt b a = true <-> squad_score a = 0%Z /\ squad_score b = 3%Z)
      /\ (key_gt a b = false <-> squad_score a = 0%Z /\ squad_score b = 3%Z)).
Proof.
  intros a b.
  destruct (make_candidate_fields squad na la ca ra) as (Hna & Hsa & _ & _ & _ & Hca).
  destruct (make_candidate_fields squad nb lb cb rb) as (Hnb & Hsb & _ & _ & _ & Hcb).
  fold a in Hna, Hsa, Hca. fold b in Hnb, Hsb, Hcb.
  pose proof (score_squad_range squad ca) as Hra. rewrite <- Hsa in Hra.
  pose proof (score_squad_range squad cb) as Hrb. rewrite <- Hsb in Hrb.
  assert (exists va, (0 <= va <= 1)%Z
                     /\ composite a = (na * 10 + squad_score a * 4 + va)%Z) as (va & Hva & Ha).
  { rewrite Hca, Hna.
    destruct (bool_decide (mv_raw a = [])); [exists 0%Z|exists 1%Z]; (split; [lia|done]). }
  assert (exists vb, (0 <= vb <= 1)%Z
                     /\ composite b = (nb * 10 + squad_score b * 4 + vb)%Z) as (vb & Hvb & Hb).
  { rewrite Hcb, Hnb.
    destruct (bool_decide (mv_raw b = [])); [exists 0%Z|exists 1%Z]; (split; [lia|done]). }
  unfold key_gt. rewrite Ha, Hb, Hna, Hnb.
  split.
  - intros Hlead. split.
    + apply orb_true_iff. left. apply Z.ltb_lt. lia.
    + apply orb_false_iff. split; [apply Z.ltb_ge; lia|].
      apply andb_false_iff. left. apply Z.eqb_neq. lia.
  - intros ->.
    assert (forall x y : Z, (x =? y)%Z = true <-> x = y) as Heq by (intros; apply Z.eqb_eq).
    split.
    + rewrite orb_true_iff, andb_true_iff, Z.ltb_lt, Heq. split.
      * intros [H|[H _]]; lia.
      * intros [H1 H2]. left. lia.
    + rewrite orb_false_iff, andb_false_iff, Z.ltb_ge. split.
      * intros [H _]. lia.
      * intros [H1 H2]. split; [lia|]. left. apply Z.eqb_neq. lia.
Qed.

End SquadProperties.

(** ** Value parser: the sign *)

Lemma binary_round_aux_sign (prec emax : Z) (sx : bool) (mx ex : Z) (lx : location) :
  match binary_round_aux prec emax sx mx ex lx with
  | S754_finite s _ _ => s = sx
  | _ => True
  end.
Proof.
  unfold binary_round_aux.
  destruct (shr_fexp prec emax mx ex lx) as [mrs' e'].
  destruct (shr_fexp prec emax _ e' loc_Exact) as [mrs'' e''].
  destruct (shr_m mrs''); [done| |done]. by destruct (_ <=? _)%Z.
Qed.

Lemma float_of_ratio_unsigned (n d : positive) : float_unsigned (float_of_ratio n d).
Proof.
  unfold float_of_ratio, SFdiv.
  destruct (SFdiv_core_binary 53 1024 (Z.pos n) 0 (Z.pos d) 0) as [[mz ez] lz].
  pose proof (binary_round_aux_sign 53 1024 (xorb false false) mz ez lz) as Hs.
  unfold float_unsigned. destruct (binary_round_aux _ _ _ _ _ _) as [| | |[]]; done.
Qed.

Lemma float_of_int_unsigned (z : Z) : (0 <= z)%Z -> float_unsigned (float_of_int z).
Proof.
  intros Hz. unfold float_of_int, binary_normalize. destruct z as [|m|m]; [done| |lia].
  unfold binary_round.
  destruct (shl_align m 0 _) as [mz ez].
  pose proof (binary_round_aux_sign 53 1024 false (Z.pos mz) ez loc_Exact) as Hs.
  unfold float_unsigned. destruct (binary_round_aux _ _ _ _ _ _) as [| | |[]]; done.
Qed.

Lemma float_mul_unsigned (x y : float) :
  float_unsigned x -> float_unsigned y -> float_unsigned (float_mul x y).
Proof.
  unfold float_mul, SFmul, float_unsigned.
  destruct x as [sx|sx| |[] mx ex], y as [sy|sy| |[] my ey]; try done.
  intros _ _.
  pose proof (binary_round_aux_sign 53 1024 (xorb false false) (Z.pos (mx * my))
                (ex + ey) loc_Exact) as Hs.
  destruct (binary_round_aux _ _ _ _ _ _) as [| | |[]]; done.
Qed.

Lemma round_half_even_nonneg (m : positive) (e : Z) : (0 <= round_half_even (Z.pos m) e)%Z.
Proof.
  unfold round_half_even. destruct e as [|p|p]; [lia| |].
  - pose proof (Z.pow_pos_nonneg 2 (Z.pos p)). lia.
  - assert (0 < 2 ^ Z.pos p)%Z as Hd by (apply Z.pow_pos_nonneg; lia).
    assert (0 <= Z.pos m `div` 2 ^ Z.pos p)%Z as Hq by (apply Z.div_pos; lia).
    repeat case_match; lia.
Qed.

Lemma int_round_nonneg (x : float) (n : Z) :
  float_unsigned x -> int_round x = Ok n -> (0 <= n)%Z.
Proof.
  unfold float_unsigned, int_round. destruct x as [s|s| |[] m e]; try done.
  - intros _ [= <-]. lia.
  - intros _ [= <-]. cbn [cond_Zopp]. apply round_half_even_nonneg.
Qed.

Lemma py_float_unsigned (num : pystr) (base : float) :
  py_float num = Ok base -> float_unsigned base.
Proof.
  unfold py_float. repeat case_match; intros [= <-]; try done;
    apply float_of_ratio_unsigned.
Qed.

Section SignProperties.
Context {U : UnicodeDB}.

Lemma py_int_nonneg (digits : pystr) (n : Z) :
  (forall c d, decimal_value c = Some d -> (0 <= d)%Z) ->
  py_int digits = Ok n -> (0 <= n)%Z.
Proof.
  intros Hdec. unfold py_int. destruct digits as [|c0 digits0]; [done|].
  generalize (c0 :: digits0). clear c0 digits0. intros digits.
  assert (forall acc : result Z,
            match acc with Ok a => (0 <= a)%Z | Raise _ => True end ->
            match fold_left
                    (fun acc c =>
                       a ← acc;
                       match decimal_value c with
                       | Some d => Ok (10 * a + d)%Z
                       | None => Raise (lit "ValueError")
                       end) digits acc with
            | Ok a => (0 <= a)%Z
            | Raise _ => True
            end) as Hfold.
  { induction digits as [|c digits IH]; intros acc Hacc; [done|].
    cbn [fold_left]. apply IH. destruct acc as [a|]; [|done]. cbn.
    destruct (decimal_value c) as [d|] eqn:Hd; [|done].
    specialize (Hdec c d Hd). lia. }
  intros Hn. specialize (Hfold (Ok 0%Z) ltac:(done)). by rewrite Hn in Hfold.
Qed.

(** X14. A value that [parse_market_value_to_int] reads from a text is
    never negative, whatever the text, as long as no character has a
    negative digit value (none has one in Unicode). *)
Theorem parse_market_value_nonnegative (s : pystr) (n : Z) :
  (forall c d, decimal_value c = Some d -> (0 <= d)%Z) ->
  parse_market_value_to_int (VStr s) = Ok (Some n) ->
  (0 <= n)%Z.
Proof.
  intros Hdec. unfold parse_market_value_to_int. cbn [py_str].
  destruct (_ || _); [done|].
  destruct (re_match_value _) as [[g1 suffix]|].
  - destruct (py_float _) as [base|] eqn:Hbase; cbn [mbind result_bind]; [|done].
    apply py_float_unsigned in Hbase.
    destruct suffix as [c|]; [destruct (_ || _)|].
    + destruct (int_round _) as [m|] eqn:Hm; cbn [mbind result_bind]; [|done].
      intros [= <-]. eapply int_round_nonneg; [|exact Hm].
      apply float_mul_unsigned; [done|]. by apply float_of_int_unsigned.
    + destruct (int_round _) as [m|] eqn:Hm; cbn [mbind result_bind]; [|done].
      intros [= <-]. eapply int_round_nonneg; [|exact Hm].
      apply float_mul_unsigned; [done|]. by apply float_of_int_unsigned.
    + destruct (int_round _) as [m|] eqn:Hm; cbn [mbind result_bind]; [|done].
      intros [= <-]. by eapply int_round_nonneg.
  - destruct (_ && _); [|done].
    destruct (py_int _) as [m|] eqn:Hm; cbn [mbind result_bind]; [|done].
    intros [= <-]. by eapply py_int_nonneg.
Qed.

End SignProperties.

(** ** Resolution client: the payload and the browser *)

Section PayloadProperties.
Context {U : UnicodeDB}.

(** The keys of a dictionary written as a literal of eight items. *)
Lemma literal_keys (k1 k2 k3 k4 k5 k6 k7 k8 : pystr) (v1 v2 v3 v4 v5 v6 v7 v8 : value)
    (col : pystr) :
  is_Some ((<[k1:=v1]> (<[k2:=v2]> (<[k3:=v3]> (<[k4:=v4]> (<[k5:=v5]> (<[k6:=v6]>
              (<[k7:=v7]> (<[k8:=v8]> ∅))))))) : gmap pystr value) !! col)
  <-> col ∈ [k1; k2; k3; k4; k5; k6; k7; k8].
Proof.
  rewrite !lookup_insert_is_Some', lookup_empty, !elem_of_cons, elem_of_nil.
  rewrite is_Some_alt. intuition congruence.
Qed.

(** The payload of [build_row]: the identity of the row, the time, and
    the eight headers as keys, all text but the parsed value. *)
Lemma build_row_payload (w : World) (player_name squad : pystr)
    (found : option (pystr * pystr * pystr)) (row : gmap pystr value) :
  build_row w player_name squad found = Ok row ->
  row !! lit "Player" = Some (VStr player_name)
  /\ row !! lit "Squad" = Some (VStr squad)
  /\ row !! lit "Updated At" = Some (VStr (strftime_now w))
  /\ (forall col, is_Some (row !! col) <-> col ∈ HEADERS)
  /\ (exists status, row !! lit "Status" = Some (VStr status)).
Proof.
  unfold build_row. destruct found as [[[url club] raw]|].
  - assert (exists mv_int : result (option Z),
              (if bool_decide (raw = []) then Ok None
               else parse_market_value_to_int (VStr raw)) = mv_int) as [mv_int ->]
      by by eexists.
    destruct mv_int as [mv_int|]; cbn [mbind result_bind]; [|done].
    intros [= <-].
    split; [by vm_compute|]. split; [by vm_compute|]. split; [by vm_compute|].
    split; [intros col; apply literal_keys|].
    eexists. by vm_compute.
  - intros [= <-].
    split; [by vm_compute|]. split; [by vm_compute|]. split; [by vm_compute|].
    split; [intros col; apply literal_keys|].
    eexists. by vm_compute.
Qed.

(** The same for the row built when the resolution raises. *)
Lemma error_row_payload (player squad now exc_type : pystr) :
  let row := error_row player squad now exc_type in
  row !! lit "Player" = Some (VStr player)
  /\ row !! lit "Squad" = Some (VStr squad)
  /\ row !! lit "Updated At" = Some (VStr now)
  /\ (forall col, is_Some (row !! col) <-> col ∈ HEADERS)
  /\ row !! lit "Status" = Some (VStr (lit "error:" ++ exc_type)).
Proof.
  unfold error_row.
  split; [by vm_compute|]. split; [by vm_compute|]. split; [by vm_compute|].
  split; [intros col; apply literal_keys|].
  by vm_compute.
Qed.

(** X15. The payload of a resolution that returns names the row it was
    asked about and nothing else: its Player and Squad cells are the name
    and the affiliation given, its time stamp is the time of the call,
    its keys are the eight headers of the table, and its status is a
    text. *)
Theorem process_player_payload (w : World) (player_name squad : pystr) (c c' : Client)
    (row : gmap pystr value) (source : pystr) :
  process_player w player_name squad c = (Ok (row, source), c') ->
  row !! lit "Player" = Some (VStr player_name)
  /\ row !! lit "Squad" = Some (VStr squad)
  /\ row !! lit "Updated At" = Some (VStr (strftime_now w))
  /\ (forall col, is_Some (row !! col) <-> col ∈ HEADERS)
  /\ (exists status, row !! lit "Status" = Some (VStr status)).
Proof.
  intros (found & _ & Hrow)%process_player_run. by eapply build_row_payload.
Qed.

(** What one resolution does to the client, whatever its outcome. *)
Lemma process_player_client (w : World) (player_name squad : pystr) (c : Client) :
  let c' := (process_player w player_name squad c).2 in
  (exists fast,
     (_find_best_http w player_name squad c).1 = Ok fast
     /\ (has_value_text fast = true ->
         c' = {| driver := driver c; cookies_accepted := cookies_accepted c;
                 searches := searches c ++ [Fast] |}))
  /\ (driver c = true ->
      driver c' = true /\ (cookies_accepted c = true -> cookies_accepted c' = true)).
Proof.
  unfold process_player, select_match, exec_bind, exec_ret, exec_lift, _find_best_http.
  set (c1 := {| driver := driver c; cookies_accepted := cookies_accepted c;
                searches := searches c ++ [Fast] |}).
  set (fast := match http_search w player_name with
               | Some rows_html => http_select player_name squad rows_html
               | None => None
               end).
  assert ((match http_search w player_name with
           | Some rows_html => (Ok (http_select player_name squad rows_html), c1)
           | None => (Ok None, c1)
           end) = (Ok fast, c1)) as -> by (unfold fast; by destruct (http_search _ _)).
  cbn [fst snd].
  split.
  - exists fast. split; [done|]. intros ->. cbn [fst snd].
    by destruct (build_row w player_name squad fast).
  - intros Hd. destruct (has_value_text fast).
    { cbn [fst snd]. by destruct (build_row w player_name squad fast). }
    unfold _ensure_browser. unfold c1. cbn [driver]. rewrite Hd.
    unfold _find_best_browser. cbn [driver cookies_accepted searches].
    destruct (browser_get w player_name); [|by cbn].
    destruct (cookies_accepted c) eqn:Hck.
    + destruct (browser_links w player_name) as [[|l links]|]; cbn [snd fst];
        repeat case_match; simplify_eq; cbn; by rewrite ?Hd, ?Hck.
    + destruct (browser_links w player_name) as [[|l links]|]; cbn [snd fst];
        repeat case_match; simplify_eq; cbn; by rewrite ?Hd.
Qed.

(** X16. The browser is started late and only once. A resolution whose
    fast tier selected a candidate with a value text leaves the browser
    and the cookie flag of the client as they were; a client whose
    browser runs keeps it running, keeps a cookie flag that was set, and
    gets the same outcome whatever starting a browser would do. *)
Theorem process_player_browser (w : World) (player_name squad : pystr) (c : Client) :
  let run := process_player w player_name squad c in
  (forall fast,
     (_find_best_http w player_name squad c).1 = Ok fast ->
     has_value_text fast = true ->
     run.2 = {| driver := driver c; cookies_accepted := cookies_accepted c;
                searches := searches c ++ [Fast] |})
  /\ (driver c = true ->
      driver run.2 = true
      /\ (cookies_accepted c = true -> cookies_accepted run.2 = true)
      /\ forall outcome,
           process_player
             {| http_search := http_search w; build_driver := outcome;
                accept_cookies := accept_cookies w; browser_get := browser_get w;
                browser_links := browser_links w; strftime_now := strftime_now w |}
             player_name squad c = run).
Proof.
  intros run.
  destruct (process_player_client w player_name squad c) as [(fast & Hfast & Hhit) Hkeep].
  split.
  - intros fast' Hfast' Hv. rewrite Hfast in Hfast'. injection Hfast' as <-. by apply Hhit.
  - intros Hd. destruct (Hkeep Hd) as [Hd' Hck]. split; [done|]. split; [done|].
    intros outcome. set (w' := Build_World _ _ _ _ _ _).
    assert (forall found, build_row w' player_name squad found
                          = build_row w player_name squad found) as Hrow
      by (by intros [[[??]?]|]).
    assert (forall c0, _find_best_http w' player_name squad c0
                       = _find_best_http w player_name squad c0) as Hhttp by done.
    assert (forall c0, _find_best_browser w' player_name squad c0
                       = _find_best_browser w player_name squad c0) as Hbrowser by done.
    assert (forall c0, driver c0 = true -> _ensure_browser w' c0 = _ensure_browser w c0)
      as Hensure by (intros c0 H0; unfold _ensure_browser; by rewrite H0).
    unfold run, process_player, select_match, exec_bind, exec_ret, exec_lift.
    rewrite Hhttp.
    destruct (_find_best_http w player_name squad c) as [[fast'|] c1] eqn:Hc1; [|done].
    assert (driver c1 = true) as Hd1.
    { unfold _find_best_http in Hc1.
      destruct (http_search w player_name); by injection Hc1 as _ <-. }
    destruct (has_value_text fast'); cbn [fst snd]; [by rewrite Hrow|].
    rewrite (Hensure c1 Hd1).
    destruct (_ensure_browser w c1) as [[[]|] c2]; [|done].
    rewrite Hbrowser.
    destruct (_find_best_browser w player_name squad c2) as [[[m|]|] c3];
      cbn [fst snd]; by rewrite ?Hrow.
Qed.

End PayloadProperties.

(** ** The passes after the workers *)

Section PassProperties.
Context {U : UnicodeDB}.

(** The table after a merge: the target row is rewritten, nothing else. *)
Lemma merge_missing_fields_rows (df df' : DataFrame) (idx : nat)
    (fetched_row : gmap pystr value) (force_columns : gset pystr) :
  merge_missing_fields df idx fetched_row force_columns = Ok df' ->
  exists row,
    df_rows df !! idx = Some row
    /\ df_columns df' = df_columns df
    /\ df_rows df' =
         <[idx := write_back (df_columns df)
                    (refresh_status (fill_missing fetched_row (elements force_columns) row))
                    row]> (df_rows df).
Proof.
  unfold merge_missing_fields. destruct (df_rows df !! idx) as [row|]; [|done].
  intros [= <-]. by exists row.
Qed.

(** Within the table, a merge returns. *)
Lemma merge_missing_fields_in_range (df : DataFrame) (idx : nat)
    (fetched_row : gmap pystr value) (force_columns : gset pystr) :
  (idx < length (df_rows df))%nat ->
  exists df', merge_missing_fields df idx fetched_row force_columns = Ok df'.
Proof.
  intros Hlt. unfold merge_missing_fields.
  destruct (lookup_lt_is_Some_2 _ _ Hlt) as [row ->]. by eexists.
Qed.

(** A merge leaves alone the cells that are neither forced nor the
    Status cell, and the populated cells other than the Status cell. *)
Lemma merge_missing_fields_cells (df df' : DataFrame) (idx : nat)
    (fetched_row : gmap pystr value) (force_columns : gset pystr) :
  merge_missing_fields df idx fetched_row force_columns = Ok df' ->
  df_columns df' = df_columns df
  /\ length (df_rows df') = length (df_rows df)
  /\ (forall j, j ≠ idx -> df_rows df' !! j = df_rows df !! j)
  /\ (forall col, col ∉ force_columns -> col ≠ lit "Status" ->
        cell df' idx col = cell df idx col)
  /\ (forall col v, col ≠ lit "Status" -> cell df idx col = Some v -> is_blank v = false ->
        cell df' idx col = Some v).
Proof.
  intros (row & Hrow & Hcols & Hrows)%merge_missing_fields_rows.
  assert (idx < length (df_rows df))%nat as Hlt by (by eapply lookup_lt_Some).
  split; [done|]. split; [by rewrite Hrows, length_insert|].
  split; [intros j Hj; by rewrite Hrows, list_lookup_insert_ne|].
  unfold cell. rewrite Hrows, list_lookup_insert_eq, Hrow by done.
  cbn [mbind option_bind].
  split.
  - intros col Hforce Hstatus.
    rewrite write_back_lookup, refresh_status_other, fill_missing_lookup by done.
    rewrite (bool_decide_eq_false_2 (col ∈ elements force_columns))
      by (by rewrite elem_of_elements).
    cbn [andb]. case_bool_decide; [|done]. by destruct (row !! col).
  - intros col v Hstatus Hv Hb.
    rewrite write_back_lookup, refresh_status_other by done.
    rewrite (fill_missing_keeps _ _ _ _ v) by done. by case_bool_decide.
Qed.

(** One turn of the backfill loop on a row of the table: it returns,
    and changes at most the forced cells of that row that were blank, and
    its Status. *)
Lemma backfill_step_frame (w : World) (idx : nat) (client : Client) (df : DataFrame)
    (updates : nat) :
  (idx < length (df_rows df))%nat ->
  exists client' df' updates',
    backfill_step w idx client df updates = (Ok tt, client', df', updates')
    /\ (updates <= updates' <= S updates)%nat
    /\ df_columns df' = df_columns df
    /\ length (df_rows df') = length (df_rows df)
    /\ (forall j, j ≠ idx -> df_rows df' !! j = df_rows df !! j)
    /\ (forall col, col ∉ backfill_columns -> cell df' idx col = cell df idx col)
    /\ (forall col v, col ≠ lit "Status" -> cell df idx col = Some v -> is_blank v = false ->
          cell df' idx col = Some v)
    /\ (forall row,
          df_rows df !! idx = Some row ->
          is_blank (VStr (py_str (default (VStr []) (row !! lit "Player")))) = true
          \/ (is_blank (dict_get row (lit "Transfermarkt URL")) = false
              /\ is_blank (dict_get row (lit "Market Value (int)")) = false) ->
          df' = df).
Proof.
  intros Hlt. unfold backfill_step.
  destruct (lookup_lt_is_Some_2 _ _ Hlt) as [row Hrow]. rewrite Hrow.
  destruct (is_blank (VStr _)) eqn:Hname.
  { exists client, df, updates. split; [done|]. repeat split; try done; lia. }
  destruct (is_blank (dict_get row (lit "Transfermarkt URL"))) eqn:Hurl;
    destruct (is_blank (dict_get row (lit "Market Value (int)"))) eqn:Hint;
    cbn [orb negb].
  4:{ exists client, df, updates. split; [done|]. repeat split; try done; lia. }
  all: destruct (process_player w _ _ client) as [[[fetched source]|e] client'];
    [|exists client', df, updates; split; [done|]; repeat split; try done; try lia;
      intros row' [= <-] [?|[? ?]]; congruence].
  all: destruct (merge_missing_fields_in_range df idx fetched backfill_columns Hlt)
         as [df' Hmerge]; rewrite Hmerge;
    destruct (merge_missing_fields_cells _ _ _ _ _ Hmerge) as (H1 & H2 & H3 & H4 & H5);
    exists client', df', (S updates); split; [done|];
    split; [lia|]; split; [done|]; split; [done|]; split; [done|];
    (split; [intros col Hcol; apply H4; [done|];
             intros ->; apply Hcol; by_evaluation|]);
    (split; [done|]);
    intros row' [= <-] [?|[? ?]]; congruence.
Qed.

(** The loop of the backfill over rows of the table. *)
Lemma backfill_loop_frame (worlds : nat -> World) (idxs : list nat) (client : Client)
    (df : DataFrame) (updates : nat) :
  Forall (fun i => (i < length (df_rows df))%nat) idxs ->
  exists df' updates',
    backfill_loop worlds idxs client df updates = (Ok tt, df', updates')
    /\ (updates <= updates' <= updates + length idxs)%nat
    /\ df_columns df' = df_columns df
    /\ length (df_rows df') = length (df_rows df)
    /\ (forall j, j ∉ idxs -> df_rows df' !! j = df_rows df !! j)
    /\ (forall j col, col ∉ backfill_columns -> cell df' j col = cell df j col)
    /\ (forall j col v, col ≠ lit "Status" -> cell df j col = Some v -> is_blank v = false ->
          cell df' j col = Some v)
    /\ (forall j row,
          df_rows df !! j = Some row ->
          is_blank (VStr (py_str (default (VStr []) (row !! lit "Player")))) = true
          \/ (is_blank (dict_get row (lit "Transfermarkt URL")) = false
              /\ is_blank (dict_get row (lit "Market Value (int)")) = false) ->
          df_rows df' !! j = Some row).
Proof.
  revert client df updates.
  induction idxs as [|idx rest IH]; intros client df updates Hin.
  { exists df, updates. cbn [backfill_loop length]. repeat split; (done || lia). }
  apply Forall_cons in Hin as [Hidx Hrest].
  destruct (backfill_step_frame (worlds idx) idx client df updates Hidx)
    as (client1 & df1 & updates1 & Hstep & Hu1 & Hc1 & Hl1 & Hrows1 & Hout1 & Hkeep1 & Hskip1).
  cbn [backfill_loop]. rewrite Hstep.
  rewrite <- Hl1 in Hrest.
  destruct (IH client1 df1 updates1 Hrest)
    as (df' & updates' & Hloop & Hu & Hc & Hl & Hrows & Hout & Hkeep & Hskip).
  exists df', updates'. split; [done|].
  split; [cbn [length]; lia|]. split; [congruence|]. split; [congruence|].
  assert (forall j col, j ≠ idx -> cell df1 j col = cell df j col) as Hcell1.
  { intros j col Hj. unfold cell. by rewrite Hrows1. }
  split; [|split; [|split]].
  - intros j Hj. apply not_elem_of_cons in Hj as [Hj1 Hj2].
    by rewrite Hrows, Hrows1.
  - intros j col Hcol. rewrite Hout by done.
    destruct (decide (j = idx)) as [->|Hj]; [by apply Hout1|by apply Hcell1].
  - intros j col v Hcol Hv Hb. apply Hkeep; [done| |done].
    destruct (decide (j = idx)) as [->|Hj]; [by apply Hkeep1|by rewrite Hcell1].
  - intros j row Hrow Hrowskip. apply Hskip; [|done].
    destruct (decide (j = idx)) as [->|Hj]; [by rewrite (Hskip1 row)|by rewrite Hrows1].
Qed.

(** The rows that the backfill visits lie in the table, from its start
    index on. *)
Lemma backfill_range (start_row : Z) (df : DataFrame) :
  let start_idx := Z.to_nat (Z.max 0 (start_row - 1 - BACKFILL_BEHIND_ROWS)) in
  Forall (fun i => (i < length (df_rows df))%nat)
         (seq start_idx (length (df_rows df) - start_idx))
  /\ forall j, (Z.of_nat j < start_row - 1 - BACKFILL_BEHIND_ROWS)%Z ->
       j ∉ seq start_idx (length (df_rows df) - start_idx).
Proof.
  intros start_idx. split.
  - apply Forall_forall. intros i Hi%elem_of_seq. lia.
  - intros j Hj Hin%elem_of_seq. unfold start_idx in Hin. lia.
Qed.

(** The backfill pass returns, keeps the shape of the table and the
    cells outside its forced columns. *)
Lemma run_backfill_shape (enable_backfill : bool) (start_row : Z) (worlds : nat -> World)
    (df : DataFrame) :
  let run := _run_backfill enable_backfill start_row worlds df in
  run.1.1 = Ok tt
  /\ df_columns run.1.2 = df_columns df
  /\ length (df_rows run.1.2) = length (df_rows df)
  /\ (forall j col, col ∉ backfill_columns -> cell run.1.2 j col = cell df j col).
Proof.
  intros run. unfold run, _run_backfill.
  destruct enable_backfill; [|done].
  destruct (backfill_range start_row df) as [Hrange _].
  destruct (backfill_loop_frame worlds _ new_client df O Hrange)
    as (df1 & updates & -> & _ & Hc & Hl & _ & Hout & _ & _).
  done.
Qed.

(** X17. The backfill pass returns and keeps the shape of the table. It
    never changes a cell outside its six forced columns, so that no
    Player or Squad cell changes; it never changes a row more than five
    rows before the start row; it merges into at most as many rows as
    the table has; and when it is disabled it changes nothing. *)
Theorem backfill_frame (enable_backfill : bool) (start_row : Z) (worlds : nat -> World)
    (df : DataFrame) :
  let run := _run_backfill enable_backfill start_row worlds df in
  let df' := run.1.2 in
  run.1.1 = Ok tt
  /\ df_columns df' = df_columns df
  /\ length (df_rows df') = length (df_rows df)
  /\ (forall j col, col ∉ backfill_columns -> cell df' j col = cell df j col)
  /\ (forall j, cell df' j (lit "Player") = cell df j (lit "Player")
                /\ cell df' j (lit "Squad") = cell df j (lit "Squad"))
  /\ (forall j, (Z.of_nat j < start_row - 1 - BACKFILL_BEHIND_ROWS)%Z ->
        df_rows df' !! j = df_rows df !! j)
  /\ (run.2 <= length (df_rows df))%nat
  /\ (enable_backfill = false -> df' = df /\ run.2 = O).
Proof.
  intros run df'. unfold df', run, _run_backfill.
  destruct enable_backfill.
  2:{ cbn [fst snd]. repeat split; (done || lia). }
  destruct (backfill_range start_row df) as [Hrange Hbefore].
  destruct (backfill_loop_frame worlds _ new_client df O Hrange)
    as (df1 & updates & -> & Hu & Hc & Hl & Hrows & Hout & _ & _).
  cbn [fst snd].
  split; [done|]. split; [done|]. split; [done|]. split; [done|].
  split; [|split; [|split; [|done]]].
  - intros j. split; apply Hout; by_evaluation.
  - intros j Hj. by apply Hrows, Hbefore.
  - rewrite length_seq in Hu. lia.
Qed.

(** X18. The backfill pass never regresses resolved data: a cell that
    was populated (non-blank) before the pass, the Status cell apart,
    holds the same value after it; and a row that has both its URL and
    its parsed value, or whose Player cell is blank, is the same row
    after the pass. *)
Theorem backfill_keeps_resolved (enable_backfill : bool) (start_row : Z)
    (worlds : nat -> World) (df : DataFrame) :
  let df' := (_run_backfill enable_backfill start_row worlds df).1.2 in
  (forall j col v,
     col ≠ lit "Status" -> cell df j col = Some v -> is_blank v = false ->
     cell df' j col = Some v)
  /\ (forall j row,
        df_rows df !! j = Some row ->
        is_blank (VStr (py_str (default (VStr []) (row !! lit "Player")))) = true
        \/ (is_blank (dict_get row (lit "Transfermarkt URL")) = false
            /\ is_blank (dict_get row (lit "Market Value (int)")) = false) ->
        df_rows df' !! j = Some row).
Proof.
  intros df'. unfold df', _run_backfill.
  destruct enable_backfill; [|done].
  destruct (backfill_range start_row df) as [Hrange _].
  destruct (backfill_loop_frame worlds _ new_client df O Hrange)
    as (df1 & updates & -> & _ & _ & _ & _ & _ & Hkeep & Hskip).
  done.
Qed.

(** The row that the retry pass records for a job names the job, has the
    eight headers as keys and a text as status, whether the resolution
    returned or raised. *)
Lemma retry_job_payload (w : World) (player squad : pystr) (client : Client) :
  let row := (retry_job w player squad client).1 in
  row !! lit "Player" = Some (VStr player)
  /\ row !! lit "Squad" = Some (VStr squad)
  /\ (forall col, is_Some (row !! col) <-> col ∈ HEADERS)
  /\ (exists status, row !! lit "Status" = Some (VStr status)).
Proof.
  unfold retry_job.
  destruct (process_player w player squad client) as [[[row source]|e] client'] eqn:Hrun;
    cbn [fst].
  - apply process_player_run in Hrun as (found & _ & Hrow).
    apply build_row_payload in Hrow as (H1 & H2 & _ & H4 & H5). done.
  - destruct (error_row_payload player squad (strftime_now w) e) as (H1 & H2 & _ & H4 & H5).
    split; [done|]. split; [done|]. split; [done|]. by eexists.
Qed.

(** The loop of the retry pass over jobs of the table. *)
Lemma retry_loop_results (worlds : nat -> World) (row_lookup : gmap nat (pystr * pystr))
    (columns_to_fill : gset pystr) (missing_idxs : list nat) (client : Client)
    (df : DataFrame) (results : list (gmap pystr value)) :
  Forall (fun idx => is_Some (row_lookup !! idx) /\ (idx < length (df_rows df))%nat)
         missing_idxs ->
  exists df' rows,
    retry_loop worlds row_lookup columns_to_fill missing_idxs client df results
    = Some (Ok tt, df', results ++ rows)
    /\ Forall2
         (fun idx row =>
            exists player squad status,
              row_lookup !! idx = Some (player, squad)
              /\ row !! lit "Player" = Some (VStr player)
              /\ row !! lit "Squad" = Some (VStr squad)
              /\ row !! lit "Status" = Some (VStr status))
         missing_idxs rows
    /\ df_columns df' = df_columns df
    /\ length (df_rows df') = length (df_rows df)
    /\ (forall j col, j ∉ missing_idxs \/ col ∉ columns_to_fill \/ col ∉ df_columns df ->
          cell df' j col = cell df j col)
    /\ (NoDup missing_idxs ->
        Forall2
          (fun idx row =>
             forall col v, col ∈ df_columns df -> col ∈ columns_to_fill ->
               row !! col = Some v -> cell df' idx col = Some v)
          missing_idxs rows).
Proof.
  revert client df results.
  induction missing_idxs as [|idx rest IH]; intros client df results Hin.
  { exists df, []. cbn [retry_loop]. rewrite app_nil_r. repeat split; by constructor. }
  apply Forall_cons in Hin as [[[[player squad] Hjob] Hidx] Hrest].
  cbn [retry_loop]. rewrite Hjob.
  pose proof (retry_job_payload (worlds idx) player squad client) as (Hp & Hs & _ & st & Hst).
  destruct (retry_job (worlds idx) player squad client) as [row_out client1].
  cbn [fst] in Hp, Hs, Hst.
  destruct (update_row_in_range df idx row_out columns_to_fill Hidx) as [df1 Hup].
  rewrite Hup.
  destruct (update_row_shape _ _ _ _ _ Hup) as [Hc1 Hl1].
  pose proof (update_row_cell _ _ _ _ _ Hup) as Hcell1.
  assert (Forall (fun i => is_Some (row_lookup !! i) /\ (i < length (df_rows df1))%nat) rest)
    as Hrest1 by (by rewrite Hl1).
  destruct (IH client1 df1 (results ++ [row_out]) Hrest1)
    as (df' & rows & Hloop & Hrows & Hc & Hl & Hframe & Hwritten).
  exists df', (row_out :: rows).
  split; [by rewrite Hloop, <- app_assoc|].
  split; [constructor; [by exists player, squad, st|done]|].
  split; [congruence|]. split; [congruence|].
  split.
  - intros j col Hj. rewrite Hframe.
    2:{ rewrite Hc1. destruct Hj as [Hj|Hj]; [|by right].
        left. apply not_elem_of_cons in Hj. tauto. }
    rewrite Hcell1. destruct (row_out !! col); [|done].
    destruct Hj as [Hj|[Hj|Hj]].
    + apply not_elem_of_cons in Hj as [Hj _].
      by rewrite (bool_decide_eq_false_2 (j = idx)).
    + rewrite (bool_decide_eq_false_2 (col ∈ columns_to_fill)) by done.
      by rewrite andb_false_r.
    + rewrite (bool_decide_eq_false_2 (col ∈ df_columns df)) by done.
      by rewrite andb_false_r.
  - intros [Hfresh Hnodup]%NoDup_cons. constructor.
    + intros col v Hcol Hfill Hv. rewrite Hframe by (by left).
      rewrite Hcell1, Hv. by rewrite !bool_decide_eq_true_2.
    + specialize (Hwritten Hnodup). rewrite Hc1 in Hwritten. exact Hwritten.
Qed.

(** X19. The retry pass contains every failure and gives each missing
    job one result. For jobs that are in the lookup table and rows of the
    table, [_retry_missing] returns; it appends one row per job, in
    order, each naming the player and affiliation of its job and
    carrying a text status (an [error:] status when the resolution
    raised); it keeps the shape of the table and changes no cell outside
    the rows retried and the allowed columns; and when no job is listed
    twice, each allowed column of a retried row holds what the row
    recorded for the job says. *)
Theorem retry_missing_results (worlds : nat -> World)
    (row_lookup : gmap nat (pystr * pystr)) (columns_to_fill : gset pystr)
    (missing_idxs : list nat) (df : DataFrame) (results : list (gmap pystr value)) :
  Forall (fun idx => is_Some (row_lookup !! idx) /\ (idx < length (df_rows df))%nat)
         missing_idxs ->
  exists df' rows,
    _retry_missing worlds row_lookup columns_to_fill missing_idxs df results
    = Some (Ok tt, df', results ++ rows)
    /\ Forall2
         (fun idx row =>
            exists player squad status,
              row_lookup !! idx = Some (player, squad)
              /\ row !! lit "Player" = Some (VStr player)
              /\ row !! lit "Squad" = Some (VStr squad)
              /\ row !! lit "Status" = Some (VStr status))
         missing_idxs rows
    /\ df_columns df' = df_columns df
    /\ length (df_rows df') = length (df_rows df)
    /\ (forall j col, j ∉ missing_idxs \/ col ∉ columns_to_fill \/ col ∉ df_columns df ->
          cell df' j col = cell df j col)
    /\ (NoDup missing_idxs ->
        Forall2
          (fun idx row =>
             forall col v, col ∈ df_columns df -> col ∈ columns_to_fill ->
               row !! col = Some v -> cell df' idx col = Some v)
          missing_idxs rows).
Proof.
  intros Hin.
  destruct (retry_loop_results worlds row_lookup columns_to_fill missing_idxs new_client
              df results Hin) as (df' & rows & Hloop & H).
  exists df', rows. split; [|exact H].
  unfold _retry_missing. by destruct missing_idxs.
Qed.

Lemma event_idxs_cons (ev : queue_event) (rest : list queue_event) :
  event_idxs (ev :: rest) =
    match ev with
    | Item (Some idx, _, _) => idx :: event_idxs rest
    | _ => event_idxs rest
    end.
Proof. by destruct ev as [[[[idx|] row] source]|ended]. Qed.

(** One turn of the loop of the main thread. *)
Lemma aggregate_cons (total_jobs : nat) (columns_to_fill : gset pystr) (ev : queue_event)
    (rest : list queue_event) (st : tally) :
  aggregate total_jobs columns_to_fill (ev :: rest) st =
    if bool_decide (t_processed st < total_jobs)%nat then
      match ev with
      | NoItem true => Some (Ok tt, st)
      | NoItem false => aggregate total_jobs columns_to_fill rest st
      | Item (None, _, _) => aggregate total_jobs columns_to_fill rest st
      | Item (Some idx, None, _) => Some (Raise (lit "AttributeError"), st)
      | Item (Some idx, Some row_out, _) =>
          match update_row (t_df st) idx row_out columns_to_fill with
          | None => None
          | Some df =>
              let st := {| t_df := df;
                           t_processed_idxs := {[ idx ]} ∪ t_processed_idxs st;
                           t_results := t_results st ++ [row_out];
                           t_processed := S (t_processed st) |} in
              match status_is_error row_out with
              | Raise e => Some (Raise e, st)
              | Ok _ => aggregate total_jobs columns_to_fill rest st
              end
          end
      end
    else Some (Ok tt, st).
Proof. done. Qed.

(** The loop of the main thread on the events of the workers: it
    returns, counts what it recorded, and records no index twice. *)
Lemma aggregate_run (total_jobs : nat) (columns_to_fill : gset pystr) (jobs : gset nat)
    (events : list queue_event) (st : tally) :
  Forall (event_of_worker jobs) events ->
  NoDup (event_idxs events) ->
  (forall idx, idx ∈ event_idxs events -> idx ∉ t_processed_idxs st) ->
  (forall idx, idx ∈ jobs -> (idx < length (df_rows (t_df st)))%nat) ->
  t_processed_idxs st ⊆ jobs ->
  t_processed st = length (t_results st) ->
  t_processed st = size (t_processed_idxs st) ->
  exists st' rows,
    aggregate total_jobs columns_to_fill events st = Some (Ok tt, st')
    /\ t_results st' = t_results st ++ rows
    /\ t_processed_idxs st' ⊆ jobs
    /\ t_processed st' = length (t_results st')
    /\ t_processed st' = size (t_processed_idxs st')
    /\ ((t_processed st <= total_jobs)%nat -> (t_processed st' <= total_jobs)%nat)
    /\ df_columns (t_df st') = df_columns (t_df st)
    /\ length (df_rows (t_df st')) = length (df_rows (t_df st))
    /\ (forall j col, col ∉ columns_to_fill \/ col ∉ df_columns (t_df st) ->
          cell (t_df st') j col = cell (t_df st) j col).
Proof.
  revert st. induction events as [|ev rest IH]; intros st Hev Hnodup Hfresh Hrange Hsub Hlen Hsize.
  { exists st, []. rewrite app_nil_r.
    assert (aggregate total_jobs columns_to_fill [] st = Some (Ok tt, st)) as ->
      by (cbn [aggregate]; by case_bool_decide).
    repeat split; done. }
  apply Forall_cons in Hev as [Hev Hrest].
  rewrite aggregate_cons. rewrite event_idxs_cons in Hnodup, Hfresh.
  case_bool_decide as Hmore.
  2:{ exists st, []. rewrite app_nil_r. repeat split; done. }
  destruct ev as [[[[idx|] [row_out|]] source]|[]]; cbn [event_of_worker] in Hev.
  - (* a result *)
    destruct Hev as [Hjob [status Hstatus]].
    apply NoDup_cons in Hnodup as [Hidx Hnodup].
    destruct (update_row_in_range (t_df st) idx row_out columns_to_fill (Hrange idx Hjob))
      as [df1 Hup].
    rewrite Hup. unfold status_is_error. rewrite Hstatus. cbn [default from_option id].
    destruct (update_row_shape _ _ _ _ _ Hup) as [Hc1 Hl1].
    pose proof (update_row_cell _ _ _ _ _ Hup) as Hcell1.
    assert (idx ∉ t_processed_idxs st) as Hnew by (apply Hfresh; left).
    set (st1 := {| t_df := df1; t_processed_idxs := {[idx]} ∪ t_processed_idxs st;
                   t_results := t_results st ++ [row_out];
                   t_processed := S (t_processed st) |}).
    destruct (IH st1) as (st' & rows & Hrun & Hres & Hsub' & Hlen' & Hsize' & Hcap & Hc & Hl & Hframe).
    + done.
    + done.
    + intros idx' Hin. cbn [st1 t_processed_idxs]. apply not_elem_of_union. split.
      * apply not_elem_of_singleton. intros ->. done.
      * apply Hfresh. by right.
    + intros idx' Hin. cbn [st1 t_df]. rewrite Hl1. by apply Hrange.
    + cbn [st1 t_processed_idxs]. apply union_subseteq. split; [|done].
      by apply singleton_subseteq_l.
    + cbn [st1 t_processed t_results]. rewrite length_app. cbn [length]. lia.
    + cbn [st1 t_processed t_processed_idxs].
      rewrite size_union by (by apply disjoint_singleton_l).
      rewrite size_singleton. lia.
    + exists st', (row_out :: rows). split; [done|].
      split; [by rewrite Hres; cbn [st1 t_results]; rewrite <- app_assoc|].
      split; [done|]. split; [done|]. split; [done|].
      split; [intros _; apply Hcap; cbn [st1 t_processed]; lia|].
      cbn [st1 t_df] in Hc, Hl, Hframe.
      split; [congruence|]. split; [congruence|].
      intros j col Hcol. rewrite Hframe by (by rewrite Hc1).
      rewrite Hcell1. destruct (row_out !! col); [|done].
      destruct Hcol as [Hcol|Hcol].
      * rewrite (bool_decide_eq_false_2 (col ∈ columns_to_fill)) by done.
        by rewrite andb_false_r.
      * rewrite (bool_decide_eq_false_2 (col ∈ df_columns (t_df st))) by done.
        by rewrite andb_false_r.
  - done.
  - (* the end of a worker *)
    destruct (IH st) as (st' & rows & H); try done. by exists st', rows.
  - destruct (IH st) as (st' & rows & H); try done. by exists st', rows.
  - (* nothing queued and every thread ended *)
    exists st, []. rewrite app_nil_r. repeat split; done.
  - destruct (IH st) as (st' & rows & H); try done. by exists st', rows.
Qed.

(** The lookup table of [run] has the indices of the jobs as keys. *)
Lemma row_lookup_of_dom (rows : list (nat * pystr * pystr)) :
  dom (row_lookup_of rows) = list_to_set (rows.*1.*1).
Proof.
  unfold row_lookup_of.
  enough (forall m : gmap nat (pystr * pystr),
            dom (foldl (fun m '(idx, player, squad) => <[idx := (player, squad)]> m) m rows)
            = list_to_set (rows.*1.*1) ∪ dom m) as Hgen.
  { by rewrite Hgen, dom_empty_L, (right_id_L ∅ (∪)). }
  induction rows as [|[[idx player] squad] rows IH]; intros m.
  { cbn [foldl fmap list_fmap list_to_set]. by rewrite (left_id_L ∅ (∪)). }
  cbn [foldl fmap list_fmap fst list_to_set]. rewrite IH, dom_insert_L.
  by rewrite (assoc_L (∪)), (comm_L (∪) (list_to_set _) {[idx]}).
Qed.

(** The jobs of [iter_rows_from] are rows of the table, each listed once. *)
Lemma iter_rows_from_jobs (df : DataFrame) (start_row : Z) :
  NoDup ((iter_rows_from df start_row).*1.*1)
  /\ forall idx, idx ∈ (iter_rows_from df start_row).*1.*1 ->
       (idx < length (df_rows df))%nat.
Proof.
  unfold iter_rows_from.
  destruct (iter_rows_loop_spec start_row (df_rows df) 0) as (Hmem & Hsorted & _).
  split.
  - assert ((iter_rows_loop start_row 0 (df_rows df)).*1.*1
            = (fun j : nat * pystr * pystr => j.1.1) <$> iter_rows_loop start_row 0 (df_rows df))
      as -> by (by rewrite <- list_fmap_compose).
    clear Hmem. induction Hsorted as [|x l Hs IH Hx]; constructor; [|done].
    intros Hin. rewrite Forall_forall in Hx. specialize (Hx x Hin). lia.
  - intros idx Hin.
    apply list_elem_of_fmap in Hin as ([idx' player] & -> & Hin).
    apply list_elem_of_fmap in Hin as ([[idx'' player'] squad] & [= <- <-] & Hin).
    apply Hmem in Hin as (i & row & -> & Hrow & _). cbn [fst].
    by eapply lookup_lt_Some.
Qed.


(** X21. Every job ends the run with exactly one result. On a run that
    is not interrupted, whatever part of the jobs the workers delivered
    (a result item per job at most, each for a job of the run and with a
    text status) and whatever the site answers during the retry and the
    backfill, lines 277-286 of [run] return; the results are as many as
    the jobs of [iter_rows_from]; the table keeps its shape; and no cell
    outside the allowed columns and the columns of the backfill
    changes. *)
Theorem run_one_result_per_job (columns_to_fill : gset pystr) (start_row : Z)
    (enable_backfill : bool) (events : list queue_event)
    (retry_worlds backfill_worlds : nat -> World) (df : DataFrame) :
  let rows := iter_rows_from df start_row in
  let jobs : gset nat := list_to_set (rows.*1.*1) in
  Forall (event_of_worker jobs) events ->
  NoDup (event_idxs events) ->
  exists df' results,
    run_passes columns_to_fill start_row enable_backfill events retry_worlds
      backfill_worlds df = Some (Ok tt, df', results)
    /\ length results = length rows
    /\ df_columns df' = df_columns df
    /\ length (df_rows df') = length (df_rows df)
    /\ (forall j col, col ∉ columns_to_fill -> col ∉ backfill_columns ->
          cell df' j col = cell df j col).
Proof.
  intros rows jobs Hev Hnodup. unfold run_passes. fold rows.
  destruct (iter_rows_from_jobs df start_row) as [Hjobs Hrange]. fold rows in Hjobs, Hrange.
  assert (forall idx, idx ∈ jobs -> (idx < length (df_rows df))%nat) as Hrange'.
  { intros idx Hidx. apply Hrange. by apply elem_of_list_to_set in Hidx. }
  assert (size jobs = length rows) as Hsize.
  { unfold jobs. rewrite size_list_to_set by done. by rewrite !length_fmap. }
  (* the parallel pass *)
  assert (exists results processed_idxs df1,
            _run_parallel columns_to_fill rows events df
            = Some (Ok (results, processed_idxs, false), df1)
            /\ length results = size processed_idxs
            /\ processed_idxs ⊆ jobs
            /\ df_columns df1 = df_columns df
            /\ length (df_rows df1) = length (df_rows df)
            /\ (forall j col, col ∉ columns_to_fill -> cell df1 j col = cell df j col))
    as (results & processed_idxs & df1 & -> & Hlen1 & Hsub1 & Hc1 & Hl1 & Hframe1).
  { unfold _run_parallel. case_bool_decide as Hnone.
    { exists [], ∅, df. repeat split; try done. }
    destruct (aggregate_run (length rows) columns_to_fill jobs events
                {| t_df := df; t_processed_idxs := ∅; t_results := []; t_processed := O |})
      as (st' & rs & -> & Hres & Hsub & Hlen & Hsz & Hcap & Hc & Hl & Hframe); try done.
    cbn [mbind option_bind mret result_ret result_bind t_processed t_df] in *.
    exists (t_results st'), (t_processed_idxs st'), (t_df st').
    split; [done|]. split; [congruence|]. split; [done|]. split; [done|]. split; [done|].
    intros j col Hcol. apply Hframe. by left. }
  (* the retry pass *)
  set (missing_idxs := merge_sort Nat.le (elements (dom (row_lookup_of rows) ∖ processed_idxs))).
  assert (forall idx, idx ∈ missing_idxs <-> idx ∈ jobs /\ idx ∉ processed_idxs) as Hmissing.
  { intros idx. unfold missing_idxs. rewrite merge_sort_Permutation, elem_of_elements.
    rewrite elem_of_difference, row_lookup_of_dom. done. }
  assert (length missing_idxs = (length rows - length results)%nat) as Hcount.
  { unfold missing_idxs. rewrite merge_sort_Permutation.
    change (length (elements ?X)) with (size X).
    rewrite size_difference by (by rewrite row_lookup_of_dom).
    rewrite row_lookup_of_dom. fold jobs. lia. }
  assert (length results <= length rows)%nat as Hle.
  { rewrite Hlen1, <- Hsize. by apply subseteq_size. }
  destruct (retry_loop_results retry_worlds (row_lookup_of rows) columns_to_fill
              missing_idxs new_client df1 results)
    as (df2 & retried & Hretry & Hrows2 & Hc2 & Hl2 & Hframe2 & _).
  { apply Forall_forall. intros idx [Hjob _]%Hmissing. split.
    - apply elem_of_dom. rewrite row_lookup_of_dom. exact Hjob.
    - rewrite Hl1. by apply Hrange'. }
  assert (_retry_missing retry_worlds (row_lookup_of rows) columns_to_fill missing_idxs
            df1 results = Some (Ok tt, df2, results ++ retried)) as ->.
  { unfold _retry_missing. destruct missing_idxs; [|done].
    cbn [retry_loop] in Hretry. done. }
  (* the backfill pass *)
  pose proof (run_backfill_shape enable_backfill start_row backfill_worlds df2)
    as (Hok & Hc3 & Hl3 & Hframe3).
  destruct (_run_backfill enable_backfill start_row backfill_worlds df2)
    as [[outcome df3] updates].
  cbn [fst snd] in Hok, Hc3, Hl3, Hframe3. subst outcome.
  exists df3, (results ++ retried). split; [done|].
  split.
  { rewrite length_app, <- (Forall2_length _ _ _ Hrows2). lia. }
  split; [congruence|]. split; [congruence|].
  intros j col Hfill Hback.
  rewrite Hframe3 by done. rewrite Hframe2 by (right; by left). by apply Hframe1.
Qed.

End PassProperties.

(** ** Merge: what is filled, and a second merge *)

Section MergeFillProperties.
Context {U : UnicodeDB}.

(** X22. [merge_missing_fields] raises [IndexError] exactly past the
    last row. Otherwise it keeps the shape of the table and every other
    row, leaves alone the cells that are neither forced nor the Status
    cell, and fills each forced column of the table, the Status column
    apart, whose cell is blank with the fetched value of that column. *)
Theorem merge_missing_fields_fills (df : DataFrame) (idx : nat)
    (fetched_row : gmap pystr value) (force_columns : gset pystr) :
  match merge_missing_fields df idx fetched_row force_columns with
  | Raise e => e = lit "IndexError" /\ (length (df_rows df) <= idx)%nat
  | Ok df' =>
      (idx < length (df_rows df))%nat
      /\ df_columns df' = df_columns df
      /\ length (df_rows df') = length (df_rows df)
      /\ (forall j, j ≠ idx -> df_rows df' !! j = df_rows df !! j)
      /\ (forall col, col ∉ force_columns -> col ≠ lit "Status" ->
            cell df' idx col = cell df idx col)
      /\ (forall col v,
            col ∈ force_columns -> col ≠ lit "Status" -> col ∈ df_columns df ->
            fetched_row !! col = Some v ->
            is_blank (default VNone (cell df idx col)) = true ->
            cell df' idx col = Some v)
  end.
Proof.
  destruct (merge_missing_fields df idx fetched_row force_columns) as [df'|e] eqn:Hmerge.
  - destruct (merge_missing_fields_cells _ _ _ _ _ Hmerge) as (Hc & Hl & Hrows & Hout & _).
    apply merge_missing_fields_rows in Hmerge as (row & Hrow & _ & Hrows').
    assert (idx < length (df_rows df))%nat as Hlt by (by eapply lookup_lt_Some).
    split; [done|]. split; [done|]. split; [done|]. split; [done|]. split; [done|].
    intros col v Hforce Hstatus Hcol Hv Hblank.
    unfold cell in *. rewrite Hrows', list_lookup_insert_eq by done.
    rewrite Hrow in Hblank. cbn [mbind option_bind] in *.
    rewrite write_back_lookup, refresh_status_other, fill_missing_lookup by done.
    rewrite (bool_decide_eq_true_2 (col ∈ df_columns df)) by done.
    rewrite (bool_decide_eq_true_2 (col ∈ elements force_columns))
      by (by rewrite elem_of_elements).
    rewrite (bool_decide_eq_true_2 (is_Some (fetched_row !! col))) by (by rewrite Hv).
    unfold dict_get at 1. rewrite Hblank. cbn [andb].
    unfold dict_get. by rewrite Hv.
  - unfold merge_missing_fields in Hmerge.
    destruct (df_rows df !! idx) eqn:Hrow; [done|].
    injection Hmerge as <-. split; [done|]. by apply lookup_ge_None.
Qed.

(** The dictionary read after the fill and the new status, when the row
    that was written back is read again. *)
Lemma refill_lookup (columns : list pystr) (fetched_row : gmap pystr value)
    (force_columns : list pystr) (row : gmap pystr value) (col : pystr) :
  let filled := fill_missing fetched_row force_columns row in
  let row' := write_back columns (refresh_status filled) row in
  col ≠ lit "Status" ->
  fill_missing fetched_row force_columns row' !! col = filled !! col.
Proof.
  intros filled row' Hcol.
  assert (row' !! col = if bool_decide (col ∈ columns) then filled !! col else row !! col)
    as Hrow'.
  { unfold row'. rewrite write_back_lookup, refresh_status_other by done.
    case_bool_decide; [|done].
    destruct (filled !! col) eqn:Hf; [done|].
    unfold filled in Hf. rewrite fill_missing_lookup in Hf.
    by destruct (_ && _). }
  rewrite fill_missing_lookup. unfold dict_get at 1. rewrite Hrow'.
  unfold filled. rewrite !fill_missing_lookup.
  destruct (bool_decide (col ∈ force_columns) && bool_decide (is_Some (fetched_row !! col)))
    eqn:Hforced; cbn [andb].
  2:{ by destruct (bool_decide (col ∈ columns)). }
  destruct (is_blank (dict_get row col)) eqn:Hblank.
  - destruct (bool_decide (col ∈ columns)).
    { by case_match. }
    unfold dict_get in Hblank. by rewrite Hblank.
  - destruct (bool_decide (col ∈ columns)); unfold dict_get in Hblank; by rewrite Hblank.
Qed.

(** X23. A second merge of the same fetched fields changes nothing:
    [merge_missing_fields] is idempotent. *)
Theorem merge_missing_fields_idempotent (df df' : DataFrame) (idx : nat)
    (fetched_row : gmap pystr value) (force_columns : gset pystr) :
  merge_missing_fields df idx fetched_row force_columns = Ok df' ->
  merge_missing_fields df' idx fetched_row force_columns = Ok df'.
Proof.
  intros (row & Hrow & Hc & Hrows)%merge_missing_fields_rows.
  assert (idx < length (df_rows df))%nat as Hlt by (by eapply lookup_lt_Some).
  set (filled := fill_missing fetched_row (elements force_columns) row) in *.
  set (row' := write_back (df_columns df) (refresh_status filled) row) in *.
  set (filled' := fill_missing fetched_row (elements force_columns) row').
  unfold merge_missing_fields. rewrite Hrows, list_lookup_insert_eq by done.
  destruct df' as [columns' rows']. cbn [df_columns df_rows] in *. subst columns' rows'.
  f_equal. f_equal. rewrite list_insert_insert_eq. f_equal.
  fold filled'.
  assert (forall col, col ≠ lit "Status" -> filled' !! col = filled !! col) as Hother
    by (intros col Hcol; by apply refill_lookup).
  assert (forall col, col ≠ lit "Status" -> dict_get filled' col = dict_get filled col)
    as Hget by (intros col Hcol; unfold dict_get; by rewrite Hother).
  apply map_eq. intros col. rewrite write_back_lookup.
  case_bool_decide as Hcol; [|done].
  assert (row' !! col
          = match refresh_status filled !! col with
            | Some v => Some v
            | None => row !! col
            end) as Hrow'
    by (unfold row'; by rewrite write_back_lookup, bool_decide_eq_true_2).
  enough (refresh_status filled' !! col = refresh_status filled !! col
          \/ (refresh_status filled' !! col = None)) as [Heq|Heq].
  { rewrite Heq, Hrow'. by destruct (refresh_status filled !! col). }
  { by rewrite Heq. }
  destruct (decide (col = lit "Status")) as [->|Hne].
  2:{ left. by rewrite !refresh_status_other, Hother. }
  rewrite !refresh_status_status.
  rewrite !Hget by lit_neq.
  destruct (negb (is_blank (dict_get filled (lit "Market Value (raw)")))) eqn:Hraw;
    [by left|].
  destruct (negb (is_blank (dict_get filled (lit "Transfermarkt URL")))) eqn:Hurl;
    [by left|].
  (* the status was not refreshed: the row holds the filled status *)
  assert (row' !! lit "Status" = filled !! lit "Status") as Hst.
  { rewrite Hrow', refresh_status_status, Hraw, Hurl.
    destruct (filled !! lit "Status") eqn:Hf; [done|].
    unfold filled in Hf. rewrite fill_missing_lookup in Hf. by destruct (_ && _). }
  left. unfold filled'. rewrite fill_missing_lookup. unfold dict_get at 1. rewrite Hst.
  unfold filled. rewrite !fill_missing_lookup.
  destruct (bool_decide (lit "Status" ∈ elements force_columns)
            && bool_decide (is_Some (fetched_row !! lit "Status"))) eqn:Hforced;
    cbn [andb]; [|done].
  destruct (is_blank (dict_get row (lit "Status"))) eqn:Hblank.
  - by destruct (is_blank (default VNone _)).
  - unfold dict_get in Hblank. by rewrite Hblank.
Qed.

End MergeFillProperties.

(** ** The workers as the main thread sees them *)

Section WorkerEventProperties.
Context {U : UnicodeDB}.

(** The message of a worker for a task: the index of the task and a row
    that names it and has a text status. *)
Lemma worker_job_event (w : World) (task : nat * pystr * pystr) (client : Client) :
  exists row_out source status client',
    worker_job w task client = (Ok (Some task.1.1, Some row_out, source), client')
    /\ row_out !! lit "Player" = Some (VStr task.1.2)
    /\ row_out !! lit "Squad" = Some (VStr task.2)
    /\ row_out !! lit "Status" = Some (VStr status).
Proof.
  destruct task as [[idx player] squad]. unfold worker_job. cbn [fst snd].
  destruct (process_player w player squad client) as [[[row source]|e] client'] eqn:Hrun.
  - apply process_player_run in Hrun as (found & _ & Hrow).
    apply build_row_payload in Hrow as (H1 & H2 & _ & _ & status & H5).
    by exists row, source, status, client'.
  - destruct (error_row_payload player squad (strftime_now w) e) as (H1 & H2 & _ & _ & H5).
    by eexists _, _, _, client'.
Qed.

(** The messages of the loop of a worker, task by task. *)
Lemma worker_while_events (obs : list observation) (client : Client)
    (results_queue : list message) :
  exists msgs client',
    worker_while obs client results_queue = (Ok tt, client', results_queue ++ msgs)
    /\ Forall2
         (fun (task : nat * pystr * pystr) (msg : message) =>
            exists row_out source status,
              msg = (Some task.1.1, Some row_out, source)
              /\ row_out !! lit "Player" = Some (VStr task.1.2)
              /\ row_out !! lit "Squad" = Some (VStr task.2)
              /\ row_out !! lit "Status" = Some (VStr status))
         (taken_tasks obs) msgs.
Proof.
  revert client results_queue.
  induction obs as [|ob rest IH]; intros client results_queue; cbn [worker_while taken_tasks].
  { exists [], client. rewrite app_nil_r. split; [done|constructor]. }
  destruct (ob_stop ob).
  { exists [], client. rewrite app_nil_r. split; [done|constructor]. }
  destruct (ob_task ob) as [task|].
  2:{ exists [], client. rewrite app_nil_r. split; [done|constructor]. }
  destruct (worker_job_event (ob_world ob) task client)
    as (row_out & source & status & client1 & -> & Hp & Hs & Hst).
  cbv beta iota.
  destruct (IH client1 (results_queue ++ [(Some task.1.1, Some row_out, source)]))
    as (msgs & client' & Hrun & Hmsgs).
  exists ((Some task.1.1, Some row_out, source) :: msgs), client'.
  split; [etrans; [exact Hrun|by rewrite <- app_assoc]|].
  constructor; [|done]. by exists row_out, source, status.
Qed.

(** X24. What a worker puts on the result queue is what the main thread
    expects. Whatever the site answers and whenever the worker stops,
    [_worker_loop] returns; its messages are one result item per task it
    took, in order, with the index of the task, a row that names the
    player and the affiliation of the task and a text status, followed
    by its end-of-worker item. *)
Theorem worker_loop_events (worker_id : Z) (obs : list observation) :
  let run := _worker_loop worker_id obs [] in
  exists msgs,
    run = (Ok tt, msgs ++ [(None, None, lit "worker_done:" ++ int_str worker_id)])
    /\ Forall2
         (fun (task : nat * pystr * pystr) (msg : message) =>
            exists row_out source status,
              msg = (Some task.1.1, Some row_out, source)
              /\ row_out !! lit "Player" = Some (VStr task.1.2)
              /\ row_out !! lit "Squad" = Some (VStr task.2)
              /\ row_out !! lit "Status" = Some (VStr status))
         (taken_tasks obs) msgs
    /\ Forall (event_of_worker (list_to_set ((taken_tasks obs).*1.*1))) (Item <$> run.2)
    /\ event_idxs (Item <$> run.2) = (taken_tasks obs).*1.*1.
Proof.
  intros run. unfold run, _worker_loop.
  destruct (worker_while_events obs
              {| driver := false; cookies_accepted := false; searches := [] |} [])
    as (msgs & client' & -> & Hmsgs).
  cbn [app fst snd]. exists msgs. split; [done|]. split; [done|].
  generalize (taken_tasks obs) Hmsgs. clear Hmsgs. intros tasks Hmsgs.
  split.
  - rewrite fmap_app. apply Forall_app. split; [|by repeat constructor].
    assert (forall jobs : gset nat,
              list_to_set (tasks.*1.*1) ⊆ jobs ->
              Forall (event_of_worker jobs) (Item <$> msgs)) as Hgen.
    { induction Hmsgs as [|task msg tasks msgs (row_out & source & status & -> & _ & _ & Hst) _ IH];
        intros jobs Hjobs; [constructor|].
      cbn [fmap list_fmap fst list_to_set] in Hjobs.
      apply union_subseteq in Hjobs as [Hjob%singleton_subseteq_l Hjobs].
      rewrite fmap_cons. constructor; [|by apply IH].
      cbn [event_of_worker]. split; [done|]. by exists status. }
    by apply Hgen.
  - rewrite fmap_app.
    induction Hmsgs as [|task msg tasks msgs (row_out & source & status & -> & _) _ IH];
      [done|].
    rewrite fmap_cons. cbn [app]. rewrite event_idxs_cons, IH. done.
Qed.

End WorkerEventProperties.

(** ** The input file *)

Section InputProperties.
Context {U : UnicodeDB}.

(** The suffix of each candidate name is its extension, which
    [read_input_table] knows. *)
Lemma candidate_reader (ext : pystr) :
  ext ∈ INPUT_EXTS ->
  path_suffix (INPUT_FILE_STEM ++ ext) = ext
  /\ read_input_table (INPUT_FILE_STEM ++ ext)
     = Ok (if bool_decide (ext = lit ".csv") then read_csv else read_excel).
Proof.
  intros Hext.
  assert (forall e, Forall (fun c => c < 128) e -> path_suffix (INPUT_FILE_STEM ++ e) = e ->
            read_input_table (INPUT_FILE_STEM ++ e)
            = if bool_decide (map ascii_lower_char e = lit ".csv") then Ok read_csv
              else if bool_decide (map ascii_lower_char e ∈ [lit ".xlsx"; lit ".xls"])
              then Ok read_excel else Raise (lit "ValueError")) as Hread.
  { intros e Hascii Hsuffix. unfold read_input_table.
    by rewrite Hsuffix, str_lower_ascii. }
  unfold INPUT_EXTS in Hext.
  repeat (apply elem_of_cons in Hext as [->|Hext]); [| | |by apply elem_of_nil in Hext].
  - split; [by_evaluation|]. rewrite Hread; [by_evaluation| |by_evaluation].
    apply Forall_forall. intros c Hc. vm_compute in Hc.
    repeat (apply elem_of_cons in Hc as [->|Hc]); try done. by apply elem_of_nil in Hc.
  - split; [by_evaluation|]. rewrite Hread; [by_evaluation| |by_evaluation].
    apply Forall_forall. intros c Hc. vm_compute in Hc.
    repeat (apply elem_of_cons in Hc as [->|Hc]); try done. by apply elem_of_nil in Hc.
  - split; [by_evaluation|]. rewrite Hread; [by_evaluation| |by_evaluation].
    apply Forall_forall. intros c Hc. vm_compute in Hc.
    repeat (apply elem_of_cons in Hc as [->|Hc]); try done. by apply elem_of_nil in Hc.
Qed.

(** X25. [find_input_file] returns the first of the three candidate
    names, in the order [.csv], [.xlsx], [.xls], that exists in the
    folder, and raises [FileNotFoundError] exactly when none exists; and
    [read_input_table] never raises [ValueError] on a file so found: it
    is handed to the reader of its extension. *)
Theorem find_input_file_readable (present : pystr -> bool) :
  match find_input_file present with
  | Ok name =>
      exists pre ext post,
        INPUT_EXTS = pre ++ ext :: post
        /\ name = INPUT_FILE_STEM ++ ext
        /\ present name = true
        /\ Forall (fun e => present (INPUT_FILE_STEM ++ e) = false) pre
        /\ read_input_table name
           = Ok (if bool_decide (ext = lit ".csv") then read_csv else read_excel)
  | Raise e =>
      e = lit "FileNotFoundError"
      /\ Forall (fun e => present (INPUT_FILE_STEM ++ e) = false) INPUT_EXTS
  end.
Proof.
  unfold find_input_file.
  assert (forall exts,
            match first_present present exts with
            | Some name =>
                exists pre ext post,
                  exts = pre ++ ext :: post
                  /\ name = INPUT_FILE_STEM ++ ext
                  /\ present name = true
                  /\ Forall (fun e => present (INPUT_FILE_STEM ++ e) = false) pre
            | None => Forall (fun e => present (INPUT_FILE_STEM ++ e) = false) exts
            end) as Hfirst.
  { induction exts as [|ext rest IH]; cbn [first_present]; [constructor|].
    destruct (present (INPUT_FILE_STEM ++ ext)) eqn:Hp.
    - by exists [], ext, rest.
    - destruct (first_present present rest) as [name|].
      + destruct IH as (pre & ext' & post & -> & -> & Hp' & Hpre).
        exists (ext :: pre), ext', post. split; [done|]. split; [done|]. split; [done|].
        by constructor.
      + by constructor. }
  specialize (Hfirst INPUT_EXTS).
  destruct (first_present present INPUT_EXTS) as [name|]; [|done].
  destruct Hfirst as (pre & ext & post & Hexts & -> & Hp & Hpre).
  exists pre, ext, post. split; [done|]. split; [done|]. split; [done|]. split; [done|].
  apply candidate_reader. rewrite Hexts. apply elem_of_app. right. left.
Qed.

End InputProperties.

(** ** The browser tier: the name and the value text of a row *)

(** The fold of [longest] ends on the first text of greatest length. *)
Lemma foldl_longest (l : list pystr) (best : pystr) :
  let r := foldl (fun best t => if (length best <? length t)%nat then t else best) best l in
  exists i,
    (best :: l) !! i = Some r
    /\ (forall j t, (best :: l) !! j = Some t -> (length t <= length r)%nat)
    /\ (forall j t, (j < i)%nat -> (best :: l) !! j = Some t -> (length t < length r)%nat).
Proof.
  revert best. induction l as [|x l IH]; intros best; cbn [foldl].
  { exists O. split; [done|]. split.
    - intros [|j] t; [by intros [= <-]|done].
    - intros j t Hj. lia. }
  destruct (Nat.ltb_spec (length best) (length x)) as [Hlt|Hge].
  - destruct (IH x) as (i & Hi & Hmax & Hfirst). cbv zeta in *.
    set (r := foldl _ x l) in *.
    assert (length x <= length r)%nat as Hx by (by apply (Hmax O x)).
    exists (S i). split; [done|]. split.
    + intros [|j] t Ht; [injection Ht as <-; lia|]. by apply (Hmax j).
    + intros [|j] t Hj Ht; [injection Ht as <-; lia|]. apply (Hfirst j); [lia|done].
  - destruct (IH best) as (i & Hi & Hmax & Hfirst). cbv zeta in *.
    set (r := foldl _ best l) in *.
    assert (length best <= length r)%nat as Hb by (by apply (Hmax O best)).
    destruct i as [|i].
    + exists O. split; [done|]. split; [|intros j t Hj; lia].
      intros [|[|j]] t Ht.
      * by apply (Hmax O).
      * injection Ht as <-. lia.
      * by apply (Hmax (S j)).
    + exists (S (S i)). split; [done|]. split.
      * intros [|[|j]] t Ht.
        -- by apply (Hmax O).
        -- injection Ht as <-. lia.
        -- by apply (Hmax (S j)).
      * intros [|[|j]] t Hj Ht.
        -- apply (Hfirst O); [lia|done].
        -- injection Ht as <-.
           assert (length best < length r)%nat by (apply (Hfirst O); [lia|done]). lia.
        -- apply (Hfirst (S j)); [lia|done].
Qed.

(** X26. [max(texts, key=len)] as the browser tier uses it for the name
    of a row: [longest] returns a text of the list, none of the list is
    longer, and every text before it is strictly shorter (the first of
    the longest wins); on the empty list it returns the empty text. *)
Theorem longest_first (texts : list pystr) :
  match texts with
  | [] => longest texts = []
  | _ =>
      exists i,
        texts !! i = Some (longest texts)
        /\ (forall j t, texts !! j = Some t -> (length t <= length (longest texts))%nat)
        /\ (forall j t, (j < i)%nat -> texts !! j = Some t ->
              (length t < length (longest texts))%nat)
  end.
Proof.
  destruct texts as [|t0 rest]; [done|].
  unfold longest. cbn [hd tl]. apply foldl_longest.
Qed.

Section ValueTextProperties.
Context {U : UnicodeDB}.

Lemma money_search_sign (txt : pystr) :
  money_search txt = true -> exists c, c ∈ txt /\ (c = 8364 \/ c = 36 \/ c = 163).
Proof.
  induction txt as [|c rest IH]; cbn [money_search]; [done|].
  intros [Hhere|Hrest]%orb_true_iff.
  - apply andb_true_iff in Hhere as [Hc _]. exists c. split; [left|].
    apply orb_true_iff in Hc as [Hc|Hc]; [apply orb_true_iff in Hc as [Hc|Hc]|];
      apply N.eqb_eq in Hc; tauto.
  - destruct (IH Hrest) as (c' & Hin & Hc'). exists c'. split; [by right|done].
Qed.

(** X27. The value text that the browser tier reads from a row is either
    empty or a cell text in which a currency sign is followed, white
    space apart, by a digit, a dot or a comma: [extract_mv] returns the
    first such cell, stripped and with the mis-decoded currency signs
    repaired, and the empty text when no cell is such. *)
Theorem extract_mv_money (mv_cells : list pystr) :
  let repaired cell_text :=
    replace [194; 163] [163] (replace [226; 8218; 172] [8364] (strip cell_text)) in
  match extract_mv mv_cells with
  | [] => Forall (fun cell_text => money_search (repaired cell_text) = false) mv_cells
  | raw =>
      money_search raw = true
      /\ (exists c, c ∈ raw /\ (c = 8364 \/ c = 36 \/ c = 163))
      /\ exists pre cell_text post,
           mv_cells = pre ++ cell_text :: post
           /\ raw = repaired cell_text
           /\ Forall (fun t => money_search (repaired t) = false) pre
  end.
Proof.
  intros repaired.
  assert (match extract_mv mv_cells with
          | [] => Forall (fun cell_text => money_search (repaired cell_text) = false) mv_cells
          | raw =>
              money_search raw = true
              /\ exists pre cell_text post,
                   mv_cells = pre ++ cell_text :: post
                   /\ raw = repaired cell_text
                   /\ Forall (fun t => money_search (repaired t) = false) pre
          end) as Hloop.
  { induction mv_cells as [|cell_text rest IH]; cbn [extract_mv]; [constructor|].
    fold (repaired cell_text).
    destruct (money_search (repaired cell_text)) eqn:Hm.
    - destruct (repaired cell_text) as [|c raw] eqn:Hraw; [done|].
      split; [done|]. exists [], cell_text, rest. by rewrite Hraw.
    - destruct (extract_mv rest) as [|c raw].
      + by constructor.
      + destruct IH as (Hm' & pre & cell' & post & -> & Hraw & Hpre).
        split; [done|]. exists (cell_text :: pre), cell', post.
        split; [done|]. split; [done|]. by constructor. }
  destruct (extract_mv mv_cells) as [|c raw]; [done|].
  destruct Hloop as (Hm & Hrest). split; [done|]. split; [|done].
  by apply money_search_sign.
Qed.

End ValueTextProperties.

(** ** The further properties on the sample data *)

(** The fetched fields written into the value columns of the stored row. *)
Lemma update_sample :
  update_row stored_table 0 fetched_fields value_columns = Some merged_table.
Proof. by_evaluation. Qed.


(** X2 on the same update. *)
Lemma update_row_idempotent_witness :
  update_row merged_table 0 fetched_fields value_columns = Some merged_table.
Proof.
  exact (update_row_idempotent stored_table merged_table 0 fetched_fields value_columns
           update_sample).
Defined.

(** The update of the stored row under a selection that names the
    Player column among the value columns. *)
Lemma update_selected_sample :
  update_row stored_table 0 renamed_fields
    (choose_columns_to_fill (U := ascii_db) HEADERS (lit "selected")
       (lit "Market Value (raw), Market Value (int) ,Status, Player"))
  = Some merged_table.
Proof. by_evaluation. Qed.

(** X4 on that update: the payload spells the name otherwise, and the
    Player cell keeps the stored name. *)
Lemma update_row_keeps_identity_columns_witness :
  update_row stored_table 0 renamed_fields
    (choose_columns_to_fill (U := ascii_db) HEADERS (lit "selected")
       (lit "Market Value (raw), Market Value (int) ,Status, Player"))
  = Some merged_table
  /\ renamed_fields !! lit "Player" = Some (VStr (lit "Leo Messi"))
  /\ cell merged_table 0 (lit "Player") = cell stored_table 0 (lit "Player").
Proof.
  split; [exact update_selected_sample|]. split; [by_evaluation|].
  exact (proj1 (update_row_keeps_identity_columns (U := ascii_db) _ _ _ _ _ _ _
                  update_selected_sample 0%nat)).
Defined.

(** X12 on three labels: the first contains a word of the query, the
    second equals it after normalisation and wins. *)
Lemma score_squad_exact_witness :
  score_squad (U := ascii_db) (lit "inter miami")
    ([lit "Miami FC"] ++ lit " Inter  Miami" :: [lit "Inter Miami CF"])
  = (3%Z, lit " Inter  Miami").
Proof.
  apply (score_squad_exact (U := ascii_db)).
  - lit_neq.
  - lit_neq.
  - constructor; [lit_neq|constructor].
  - by_evaluation.
Defined.

(** X14 on [750k]. *)
Lemma parse_market_value_nonnegative_witness :
  parse_market_value_to_int (U := ascii_db) (VStr (lit "750k")) = Ok (Some 750000%Z)
  /\ (0 <= 750000)%Z.
Proof.
  assert (parse_market_value_to_int (U := ascii_db) (VStr (lit "750k"))
          = Ok (Some 750000%Z)) as Hparse by by_evaluation.
  split; [exact Hparse|].
  apply (parse_market_value_nonnegative (U := ascii_db) (lit "750k")); [|exact Hparse].
  intros c d. cbn [decimal_value ascii_db]. unfold ascii_decimal.
  destruct (_ && _); [|done]. intros [= <-]. lia.
Defined.

(** X15 on the run that ends in the fallback tier. *)
Lemma process_player_payload_witness :
  process_player (U := ascii_db) (world_with [row_without_value] [browser_messi])
    (lit "Lionel Messi") (lit "Inter Miami") new_client
  = (Ok (fetched_fields, lit "browser"),
     {| driver := true; cookies_accepted := true; searches := [Fast; Fallback] |})
  /\ fetched_fields !! lit "Player" = Some (VStr (lit "Lionel Messi"))
  /\ fetched_fields !! lit "Updated At" = Some (VStr (lit "2026-02-18 12:25:00")).
Proof.
  split; [exact fallback_run|].
  destruct (process_player_payload (U := ascii_db) _ _ _ _ _ _ _ fallback_run)
    as (Hplayer & _ & Htime & _).
  split; [exact Hplayer|exact Htime].
Defined.

(** X19 without network: the retry of the one job returns and records
    one row. *)
Lemma retry_missing_results_witness :
  exists df' rows,
    _retry_missing (U := ascii_db) (fun _ => world_offline) (row_lookup_of stored_jobs)
      value_columns [0%nat] stored_table []
    = Some (Ok tt, df', rows)
    /\ length rows = 1%nat.
Proof.
  destruct (retry_missing_results (U := ascii_db) (fun _ => world_offline)
              (row_lookup_of stored_jobs) value_columns [0%nat] stored_table [])
    as (df' & rows & Hrun & Hrows & _).
  { constructor; [|constructor]. split; [|cbn; lia].
    exists (lit "Lionel Messi", lit "Inter Miami"). by_evaluation. }
  exists df', rows. split; [exact Hrun|].
  apply Forall2_length in Hrows. by rewrite <- Hrows.
Defined.


(** The jobs of the stored table from its first row. *)
Lemma stored_jobs_sample : iter_rows_from (U := ascii_db) stored_table 1 = stored_jobs.
Proof. by_evaluation. Qed.

(** X21 on a run whose worker ended without a result: the retry pass
    makes up for it, and the run ends with one result for the one job. *)
Lemma run_one_result_per_job_witness :
  exists df' results,
    run_passes (U := ascii_db) value_columns 1 true undelivered_events
      (fun _ => world_offline) (fun _ => world_offline) stored_table
    = Some (Ok tt, df', results)
    /\ length results = 1%nat.
Proof.
  destruct (run_one_result_per_job (U := ascii_db) value_columns 1 true undelivered_events
              (fun _ => world_offline) (fun _ => world_offline) stored_table)
    as (df' & results & Hrun & Hlen & _).
  - repeat constructor.
  - by_evaluation.
  - exists df', results. split; [exact Hrun|].
    rewrite Hlen, stored_jobs_sample. reflexivity.
Defined.

(** X23 on the merged row: merging the fetched fields again returns the
    same table. *)
Lemma merge_missing_fields_idempotent_witness :
  merge_missing_fields (U := ascii_db) merged_table 0 fetched_fields backfill_columns
  = Ok merged_table.
Proof.
  exact (merge_missing_fields_idempotent (U := ascii_db) stored_table merged_table 0
           fetched_fields backfill_columns merge_sample).
Defined.
